(** * Platform QoS utility, monitoring module (monitor.c)

    A shallow embedding of the monitoring module: the registry of core
    groups and process ids built from the [-m] / [-p] option strings, the
    setup step, the scale factors, the row formatters, the polling loop, the
    setters of the run configuration and the shutdown, followed by the
    properties proved about them.

    Conventions of the embedding.
    - C integers are [Z]; a conversion that can lose bits is written out
      ([to_unsigned], [to_int]).
    - A C string is a [string]; a [char *] that may be [NULL] is an
      [option string].
    - A table that the C code keeps as a fixed array plus a counter
      ([sel_monitor_core_tab] / [sel_monitor_num]) is the list of its valid
      entries; the counter is the length of the list.  The C arrays have a
      fixed capacity and the code stores at [tab[counter]] without looking at
      the capacity, so a list longer than the capacity stands for a run that
      wrote past the end of the array.
    - [exit(EXIT_FAILURE)] and [parse_error] (which prints and exits) are the
      [Exit] outcome of the [result] type.
    - [ASSERT] is the macro of a release build and expands to nothing;
      [malloc] and [alloca] succeed. *)

From Stdlib Require Import String Ascii.
From Stdlib Require Import ZArith QArith List Bool Lia.
From Stdlib Require Import Permutation Sorted DecimalString.
Import ListNotations.
Local Open Scope Z_scope.

(** ** Outcomes *)

Inductive result (A : Type) : Type :=
| Ok (a : A)
| Exit (msg : string).
Arguments Ok {A} a.
Arguments Exit {A} msg.

Definition bind {A B : Type} (r : result A) (k : A -> result B) : result B :=
  match r with
  | Ok a => k a
  | Exit m => Exit m
  end.

Notation "x <- r ;; k" := (bind r (fun x => k))
  (at level 61, r at next level, right associativity).

(** ** Machine integers *)

(** [(unsigned) v]: reduction modulo 2^32. *)
Definition to_unsigned (v : Z) : Z := v mod 2 ^ 32.

(** [(int) v] for a 64-bit [v]: the low 32 bits, read as two's complement. *)
Definition to_int (v : Z) : Z := (v + 2 ^ 31) mod 2 ^ 32 - 2 ^ 31.

(** [#define PQOS_MON_EVENT_ALL -1]; as a mask it has every bit set. *)
Definition PQOS_MON_EVENT_ALL : Z := -1.

(** [#define PQOS_MAX_PIDS 128] *)
Definition PQOS_MAX_PIDS : nat := 128%nat.

(** ** The registry tables *)

(** [struct core_group]; [num_cores] is [length cores], [pgrp] is the
    identity of the [pqos_mon_data] block the entry points to. *)
Record core_group : Type := mk_core_group {
  desc : string;
  cores : list Z;
  pgrp : nat;
  events : Z
}.

Definition num_cores (cg : core_group) : Z := Z.of_nat (length (cores cg)).

(** An entry of [sel_monitor_pid_tab]. *)
Record pid_entry : Type := mk_pid_entry {
  pid : Z;
  pid_pgrp : nat;
  pid_events : Z
}.

(** The file-scope variables of the registry.  [n_alloc] counts the
    [pqos_mon_data] blocks obtained from [malloc]; the block obtained by the
    k-th call is named [k]. *)
Record mon_state : Type := mk_mon_state {
  sel_monitor_core_tab : list core_group;
  sel_monitor_pid_tab : list pid_entry;
  sel_events_max : Z;
  m_mon_grps : list nat;
  n_alloc : nat
}.

Definition sel_monitor_num (st : mon_state) : nat :=
  length (sel_monitor_core_tab st).
Definition sel_process_num (st : mon_state) : nat :=
  length (sel_monitor_pid_tab st).

Definition initial_state : mon_state :=
  mk_mon_state [] [] 0 [] 0.

(** [tab[i] = x] on the list of valid entries: overwrite inside, extend by one
    at the end. *)
Fixpoint store_at {A : Type} (l : list A) (i : nat) (x : A) : list A :=
  match l, i with
  | [], _ => [x]
  | _ :: t, O => x :: t
  | h :: t, S i' => h :: store_at t i' x
  end.

(** [process_mode] *)
Definition process_mode (st : mon_state) : bool :=
  negb (Nat.leb (sel_process_num st) 0).

(** ** cmp_cgrps *)

(** The inner [j] loop: how many cores of [tab_b] equal [a]. *)
Fixpoint count_eq (a : Z) (tab_b : list Z) : Z :=
  match tab_b with
  | [] => 0
  | b :: tb => (if a =? b then 1 else 0) + count_eq a tb
  end.

(** The outer [i] loop: the value of [found] when both loops are done. *)
Fixpoint count_found (tab_a tab_b : list Z) : Z :=
  match tab_a with
  | [] => 0
  | a :: ta => count_eq a tab_b + count_found ta tab_b
  end.

Definition cmp_cgrps (cg_a cg_b : core_group) : Z :=
  let sz_a := num_cores cg_a in
  let sz_b := num_cores cg_b in
  let found := count_found (cores cg_a) (cores cg_b) in
  if found =? 0 then 0
  else if (sz_a =? sz_b) && (sz_b =? found) then 1
  else -1.

(** ** The registration loop of parse_monitor_event *)

Definition or_events (cg : core_group) (evt : Z) : core_group :=
  mk_core_group (desc cg) (cores cg) (pgrp cg) (Z.lor (events cg) evt).

(** The loop [for (found = 0, j = 0; j < sel_monitor_num && found == 0; j++)]
    over the registered groups, for one candidate [cg].  [Ok (Some tab')]:
    the loop ended with [found == 1] and [tab'] is the table after
    [events |= evt]; [Ok None]: it ended with [found == 0]. *)
Fixpoint find_cgrp (tab : list core_group) (cg : core_group) (evt : Z)
  : result (option (list core_group)) :=
  match tab with
  | [] => Ok None
  | g :: rest =>
      let found := cmp_cgrps g cg in
      if found <? 0 then
        Exit "Error: cannot monitor same cores in different groups"
      else if negb (found =? 0) then
        Ok (Some (or_events g evt :: rest))
      else
        r <- find_cgrp rest cg evt ;;
        Ok (match r with
            | Some rest' => Some (g :: rest')
            | None => None
            end)
  end.

(** One iteration of [for (i = 0; i < n; i++)]: candidate [cg] of
    [cgrp_tab]. *)
Definition register_cgrp (evt : Z) (cg : core_group) (st : mon_state)
  : result mon_state :=
  r <- find_cgrp (sel_monitor_core_tab st) cg evt ;;
  match r with
  | Some tab' =>
      Ok (mk_mon_state tab' (sel_monitor_pid_tab st) (sel_events_max st)
            (m_mon_grps st) (n_alloc st))
  | None =>
      let p := n_alloc st in
      Ok (mk_mon_state
            (sel_monitor_core_tab st ++ [mk_core_group (desc cg) (cores cg) p evt])
            (sel_monitor_pid_tab st) (sel_events_max st)
            (store_at (m_mon_grps st) (sel_monitor_num st) p)
            (S p))
  end.

Fixpoint register_cgrps (evt : Z) (cgrp_tab : list core_group) (st : mon_state)
  : result mon_state :=
  match cgrp_tab with
  | [] => Ok st
  | cg :: rest =>
      st' <- register_cgrp evt cg st ;;
      register_cgrps evt rest st'
  end.

(** ** C strings *)

Definition tolower (c : ascii) : ascii :=
  let n := nat_of_ascii c in
  if (Nat.leb 65 n && Nat.leb n 90)%bool then ascii_of_nat (n + 32) else c.

(** [strncasecmp(s1, s2, n) == 0] *)
Fixpoint strncasecmp_eq (s1 s2 : string) (n : nat) : bool :=
  match n with
  | O => true
  | S n' =>
      match s1, s2 with
      | EmptyString, EmptyString => true
      | String c1 t1, String c2 t2 =>
          Ascii.eqb (tolower c1) (tolower c2) && strncasecmp_eq t1 t2 n'
      | _, _ => false
      end
  end.

(** [strcasecmp(s1, s2) == 0] *)
Fixpoint strcasecmp_eq (s1 s2 : string) : bool :=
  match s1, s2 with
  | EmptyString, EmptyString => true
  | String c1 t1, String c2 t2 =>
      Ascii.eqb (tolower c1) (tolower c2) && strcasecmp_eq t1 t2
  | _, _ => false
  end.

(** [strsep(&s, d)] for a one-character delimiter set and [s != NULL]: the
    token, and the new value of [s] ([None] for [NULL]). *)
Fixpoint strsep (d : ascii) (s : string) : string * option string :=
  match s with
  | EmptyString => (EmptyString, None)
  | String c t =>
      if Ascii.eqb c d then (EmptyString, Some t)
      else let (tok, rest) := strsep d t in (String c tok, rest)
  end.

(** The fields of [s] between occurrences of [d], empty ones included. *)
Fixpoint fields (d : ascii) (s : string) : list string :=
  match s with
  | EmptyString => [EmptyString]
  | String c t =>
      if Ascii.eqb c d then EmptyString :: fields d t
      else match fields d t with
           | [] => [String c EmptyString]
           | f :: fs => String c f :: fs
           end
  end.

(** The tokens that successive calls [strtok_r(str, d, &saveptr)],
    [strtok_r(NULL, d, &saveptr)], ... return before [NULL]: the non-empty
    fields. *)
Definition strtok_r_all (d : ascii) (s : string) : list string :=
  filter (fun f => negb (String.eqb f EmptyString)) (fields d s).

(** [strchr(s, c) + 1]; [None] when [strchr] returns [NULL]. *)
Fixpoint strchr_next (c : ascii) (s : string) : option string :=
  match s with
  | EmptyString => None
  | String a t => if Ascii.eqb a c then Some t else strchr_next c t
  end.

(** [snprintf(buf, n, "%s", s)] keeps at most [n - 1] characters. *)
Fixpoint take (n : nat) (s : string) : string :=
  match n, s with
  | O, _ => EmptyString
  | _, EmptyString => EmptyString
  | S n', String c t => String c (take n' t)
  end.

(** [uinttostr]: ["%u"] into a 16-byte buffer. *)
Definition uinttostr (val : Z) : string :=
  take 15 (NilZero.string_of_uint (N.to_uint (Z.to_N val))).

(** ** Data of the monitoring library (pqos.h) as this module reads it *)

(** [struct pqos_event_values]: the three counters the module renders. *)
Record pqos_event_values : Type := mk_values {
  llc : Z;
  mbm_local_delta : Z;
  mbm_remote_delta : Z
}.

(** [struct pqos_mon_data]: the fields the module reads. *)
Record pqos_mon_data : Type := mk_mon_data {
  event : Z;
  context : string;
  md_pid : Z;
  rmid : Z;
  socket : Z;
  md_cores : list Z;
  values : pqos_event_values
}.

(** [struct pqos_monitor]: one entry of the capability descriptor. *)
Record pqos_monitor : Type := mk_monitor {
  mon_type : Z;
  pid_support : Z;
  scale_factor : Z
}.

Inductive retval : Type :=
| PQOS_RETVAL_OK
| PQOS_RETVAL_ERROR
| PQOS_RETVAL_PARAM.

(** ** The remaining file-scope variables *)

Record mon_config : Type := mk_mon_config {
  sel_output_file : option string;
  sel_output_type : option string;
  sel_mon_interval : Z;
  sel_mon_top_like : Z;
  sel_timeout : Z
}.

(** The values the variables are initialised with. *)
Definition default_config : mon_config :=
  mk_mon_config None None 10 0 (-1).

(** [fp_monitor] *)
Inductive stream : Type :=
| Stdout
| File (name : string).

(** What the module does to the outside, in order. *)
Inductive action : Type :=
| A_write (s : string)
| A_flush
| A_printf (s : string)
| A_poll (n : Z)
| A_nanosleep (sec nsec : Z).

Record timeval : Type := mk_timeval { tv_sec : Z; tv_usec : Z }.

(** ** The registry: parsing of the [-m] and [-p] option strings *)

(** An element of the local, uninitialised array [cgrp_tab] before
    [set_cgrp] fills it.  [set_cgrp] leaves [pgrp] and [events] as they are
    and the registration loop assigns both before anything reads them, so the
    values chosen here are never observed. *)
Definition cgrp_uninit : core_group := mk_core_group EmptyString [] 0 0.

(** [set_cgrp]: the cores are copied with the cast [(unsigned)cores[i]];
    [malloc] is taken to succeed. *)
Definition set_cgrp (cg : core_group) (d : string) (cs : list Z) : core_group :=
  mk_core_group d (map to_unsigned cs) (pgrp cg) (events cg).

Section Monitor.

(** Constants of pqos.h, a header outside this module. *)
Variable PQOS_MAX_CORES : nat.
Variable PQOS_MON_EVENT_L3_OCCUP : Z.
Variable PQOS_MON_EVENT_LMEM_BW : Z.
Variable PQOS_MON_EVENT_RMEM_BW : Z.

(** [strlisttotab(s, tab, max)] of main.c: the numbers it puts into [tab]
    (their count is the value returned), or [Exit] when it reports a parse
    error. *)
Variable strlisttotab : string -> Z -> result (list Z).

(** The first half of the body of the [while] loop of [strtocgrps]: the
    cores listed outside brackets, one group each.  [Ok None] is
    [return -1]. *)
Definition add_singles (non_grp : string) (tab : list core_group) (max : Z)
  : result (option (list core_group)) :=
  let index := Z.of_nat (length tab) in
  if Nat.ltb 0 (String.length non_grp) then
    cbuf <- strlisttotab non_grp (to_unsigned (max - index)) ;;
    let n := Z.of_nat (length cbuf) in
    if to_unsigned (index + n) >? max then Ok None
    else Ok (Some (tab ++ map (fun c => set_cgrp cgrp_uninit
                                         (uinttostr (to_unsigned c)) [c]) cbuf))
  else Ok (Some tab).

(** The second half: the bracketed list, one group. *)
Definition add_group (grp : string) (tab : list core_group) (max : Z)
  : result (option (list core_group)) :=
  let index := Z.of_nat (length tab) in
  cbuf <- strlisttotab grp (to_unsigned (max - index)) ;;
  let n := Z.of_nat (length cbuf) in
  if to_unsigned (index + n) >? max then Ok None
  else Ok (Some (tab ++ [set_cgrp cgrp_uninit grp cbuf])).

(** [while ((non_grp = strsep(&s, "[")) != NULL)]; [fuel] bounds the number
    of iterations and [None] means that it ran out. *)
Fixpoint strtocgrps_loop (fuel : nat) (s : option string)
  (tab : list core_group) (max : Z)
  : option (result (option (list core_group))) :=
  match fuel with
  | O => None
  | S fuel' =>
      match s with
      | None => Some (Ok (Some tab))
      | Some str =>
          let (non_grp, s1) := strsep "[" str in
          match add_singles non_grp tab max with
          | Exit m => Some (Exit m)
          | Ok None => Some (Ok None)
          | Ok (Some tab1) =>
              match s1 with
              | None => strtocgrps_loop fuel' None tab1 max
              | Some str1 =>
                  let (grp, s2) := strsep "]" str1 in
                  match add_group grp tab1 max with
                  | Exit m => Some (Exit m)
                  | Ok None => Some (Ok None)
                  | Ok (Some tab2) => strtocgrps_loop fuel' s2 tab2 max
                  end
              end
          end
      end
  end.

Definition strlen_opt (s : option string) : nat :=
  match s with
  | None => O
  | Some str => String.length str
  end.

(** [strtocgrps]: [Ok (Some tab)] returns [length tab] groups, [Ok None]
    returns -1.  Every iteration shortens [s], so the fuel given here is
    never used up ([strtocgrps_loop_total]). *)
Definition strtocgrps (s : option string) (max : Z)
  : result (option (list core_group)) :=
  match strtocgrps_loop (strlen_opt s + 2) s [] max with
  | Some r => r
  | None => Ok None
  end.

(** [parse_event]: the new values of [*evt] and of [sel_events_max]. *)
Definition parse_event (str : string) (st : mon_state)
  : result (Z * mon_state) :=
  let add (evt : Z) :=
    Ok (evt, mk_mon_state (sel_monitor_core_tab st) (sel_monitor_pid_tab st)
               (Z.lor (sel_events_max st) evt) (m_mon_grps st) (n_alloc st)) in
  if strncasecmp_eq str "llc:" 4 then add PQOS_MON_EVENT_L3_OCCUP
  else if strncasecmp_eq str "mbr:" 4 then add PQOS_MON_EVENT_RMEM_BW
  else if strncasecmp_eq str "mbl:" 4 then add PQOS_MON_EVENT_LMEM_BW
  else if strncasecmp_eq str "all:" 4 || strncasecmp_eq str ":" 1
  then Ok (PQOS_MON_EVENT_ALL, st)
  else Exit "Unrecognized monitoring event type".

(** [parse_monitor_event] *)
Definition parse_monitor_event (str : string) (st : mon_state)
  : result mon_state :=
  es <- parse_event str st ;;
  let (evt, st1) := es : Z * mon_state in
  r <- strtocgrps (strchr_next ":" str) (Z.of_nat PQOS_MAX_CORES) ;;
  match r with
  | None => Exit "Error: Too many cores selected"
  | Some cgrp_tab => register_cgrps evt cgrp_tab st1
  end.

Fixpoint for_each_token (f : string -> mon_state -> result mon_state)
  (tokens : list string) (st : mon_state) : result mon_state :=
  match tokens with
  | [] => Ok st
  | token :: rest => st' <- f token st ;; for_each_token f rest st'
  end.

Definition set_sel_events_max (st : mon_state) (v : Z) : mon_state :=
  mk_mon_state (sel_monitor_core_tab st) (sel_monitor_pid_tab st) v
    (m_mon_grps st) (n_alloc st).

(** [selfn_monitor_cores] *)
Definition selfn_monitor_cores (arg : option string) (st : mon_state)
  : result mon_state :=
  match arg with
  | None => Exit "NULL pointer!"
  | Some a =>
      if Nat.leb (String.length a) 0 then Exit "Empty string!"
      else for_each_token parse_monitor_event (strtok_r_all ";" a)
             (set_sel_events_max st 0)
  end.

(** The loop over [sel_monitor_pid_tab] for one process id [p]:
    [Some tab'] when an entry matched and got [events |= evt]. *)
Fixpoint find_pid (tab : list pid_entry) (p : Z) (evt : Z)
  : option (list pid_entry) :=
  match tab with
  | [] => None
  | e :: rest =>
      if to_unsigned (pid e) =? p then
        Some (mk_pid_entry (pid e) (pid_pgrp e) (Z.lor (pid_events e) evt) :: rest)
      else
        match find_pid rest p evt with
        | Some rest' => Some (e :: rest')
        | None => None
        end
  end.

(** One iteration of [for (i = 0; i < n; i++)] in [sel_store_process_id];
    [(pid_t) processes[i]] is a conversion to a 32-bit signed integer. *)
Definition store_pid (evt : Z) (p : Z) (st : mon_state) : mon_state :=
  match find_pid (sel_monitor_pid_tab st) p evt with
  | Some tab' =>
      mk_mon_state (sel_monitor_core_tab st) tab' (sel_events_max st)
        (m_mon_grps st) (n_alloc st)
  | None =>
      let h := n_alloc st in
      mk_mon_state (sel_monitor_core_tab st)
        (sel_monitor_pid_tab st ++ [mk_pid_entry (to_int p) h evt])
        (sel_events_max st)
        (store_at (m_mon_grps st) (sel_process_num st) h)
        (S h)
  end.

(** [sel_store_process_id] *)
Definition sel_store_process_id (str : string) (st : mon_state)
  : result mon_state :=
  es <- parse_event str st ;;
  let (evt, st1) := es : Z * mon_state in
  processes <-
    match strchr_next ":" str with
    | Some s => strlisttotab s (Z.of_nat PQOS_MAX_PIDS)
    | None => Ok []
    end ;;
  let n := length processes in
  if Nat.eqb n 0 then Exit "No process id selected for monitoring"
  else if Nat.leb PQOS_MAX_PIDS n
  then Exit "too many processes selected for monitoring"
  else Ok (fold_left (fun s p => store_pid evt p s) processes st1).

(** [selfn_monitor_pids] *)
Definition selfn_monitor_pids (arg : option string) (st : mon_state)
  : result mon_state :=
  match arg with
  | None => Exit "NULL pointer!"
  | Some a =>
      if Nat.leb (String.length a) 0 then Exit "Empty string!"
      else for_each_token sel_store_process_id (strtok_r_all ";" a)
             (set_sel_events_max st 0)
  end.

(** *** monitor_setup *)

(** [pqos_mon_start] and [pqos_mon_start_pid] of the library, at the [i]-th
    call of the loop: the started group, or [None] for a status other than
    [PQOS_RETVAL_OK]. *)
Variable pqos_mon_start :
  nat -> list Z -> Z -> string -> option pqos_mon_data.
Variable pqos_mon_start_pid : nat -> Z -> Z -> option pqos_mon_data.

(** What [fopen], [fseek] and [ftell] answer in [monitor_setup]. *)
Record file_env : Type := mk_file_env {
  fopen_ok : bool;
  fseek_ok : bool;
  ftell_pos : Z
}.

Definition xml_root_open : string := "<records>".
Definition xml_root_close : string := "</records>".
Definition xml_child_open : string := "<record>".
Definition xml_child_close : string := "</record>".

Definition nl : string := String (ascii_of_nat 10) EmptyString.
Definition tab_char : string := String (ascii_of_nat 9) EmptyString.
Definition esc : string := String (ascii_of_nat 27) EmptyString.

Definition xml_declaration : string :=
  ("<?xml version=" ++ String (ascii_of_nat 34) "1.0"
   ++ String (ascii_of_nat 34) " encoding="
   ++ String (ascii_of_nat 34) "UTF-8"
   ++ String (ascii_of_nat 34) "?>")%string.

(** The part of [monitor_setup] that sets up [fp_monitor]: the value of
    [fp_monitor] ([None] for [NULL]), what is written to it, and whether the
    function goes on ([false] for [return -1]). *)
Definition setup_output (cfg : mon_config) (type : string) (fe : file_env)
  : option stream * list action * bool :=
  match sel_output_file cfg with
  | None => (Some Stdout, [], true)
  | Some name =>
      if negb (fopen_ok fe) then (None, [], false)
      else if strcasecmp_eq type "xml" then
        if negb (fseek_ok fe) then (Some (File name), [], false)
        else if ftell_pos fe =? 0 then
          (Some (File name),
           [A_write (xml_declaration ++ nl ++ xml_root_open ++ nl)%string],
           true)
        else (Some (File name), [], true)
      else (Some (File name), [], true)
  end.

(** The events of the platform: [all_core_evts] and [all_pid_evts]. *)
Definition all_events (mon_events : list pqos_monitor) : Z * Z :=
  fold_left (fun (acc : Z * Z) (mon : pqos_monitor) =>
               (Z.lor (fst acc) (mon_type mon),
                if pid_support mon =? 0 then snd acc
                else Z.lor (snd acc) (mon_type mon)))
            mon_events (0, 0).

(** The default selection: one group per core of [cpu_info]. *)
Definition add_default_core (st : mon_state) (lcore : Z) : mon_state :=
  let cg := set_cgrp cgrp_uninit (uinttostr lcore) [lcore] in
  let p := n_alloc st in
  mk_mon_state
    (sel_monitor_core_tab st
       ++ [mk_core_group (desc cg) (cores cg) p (sel_events_max st)])
    (sel_monitor_pid_tab st) (sel_events_max st)
    (store_at (m_mon_grps st) (sel_monitor_num st) p) (S p).

(** The loop that starts the core groups.  It walks the table from entry [i];
    [done] holds the entries already visited.  The result is the table, the
    display mask, the started groups and whether every start succeeded. *)
Fixpoint start_cores (i : nat) (todo done : list core_group) (emax : Z)
  (all_core_evts : Z) (started : list pqos_mon_data)
  : list core_group * Z * list pqos_mon_data * bool :=
  match todo with
  | [] => (done, emax, started, true)
  | cg :: rest =>
      let expand := events cg =? PQOS_MON_EVENT_ALL in
      let cg' := if expand
                 then mk_core_group (desc cg) (cores cg) (pgrp cg) all_core_evts
                 else cg in
      let emax' := if expand then Z.lor emax all_core_evts else emax in
      match pqos_mon_start i (cores cg') (events cg') (desc cg') with
      | Some md =>
          start_cores (S i) rest (done ++ [cg']) emax' all_core_evts
            (started ++ [md])
      | None => (done ++ cg' :: rest, emax', started, false)
      end
  end.

(** The loop that starts the process ids. *)
Fixpoint start_pids (i : nat) (todo done : list pid_entry) (emax : Z)
  (all_pid_evts : Z) (started : list pqos_mon_data)
  : list pid_entry * Z * list pqos_mon_data * bool :=
  match todo with
  | [] => (done, emax, started, true)
  | e :: rest =>
      let expand := pid_events e =? PQOS_MON_EVENT_ALL in
      let e' := if expand
                then mk_pid_entry (pid e) (pid_pgrp e) all_pid_evts
                else e in
      let emax' := if expand then Z.lor emax all_pid_evts else emax in
      match pqos_mon_start_pid i (pid e') (pid_events e') with
      | Some md =>
          start_pids (S i) rest (done ++ [e']) emax' all_pid_evts
            (started ++ [md])
      | None => (done ++ e' :: rest, emax', started, false)
      end
  end.

(** The state of the module after [monitor_setup]. *)
Record monitor : Type := mk_monitor_state {
  mon_st : mon_state;
  mon_cfg : mon_config;
  fp_monitor : option stream;
  mon_grps : list pqos_mon_data;
  mon_out : list action
}.

(** [monitor_setup]: the value returned with the state reached.  [mon_grps]
    are the blocks [m_mon_grps[i]] points to, as the library left them. *)
Definition monitor_setup (cpu_lcores : list Z) (mon_events : list pqos_monitor)
  (fe : file_env) (cfg : mon_config) (st : mon_state) : Z * monitor :=
  let type := match sel_output_type cfg with
              | None => "text"%string
              | Some t => t
              end in
  let cfg1 := mk_mon_config (sel_output_file cfg) (Some type)
                (sel_mon_interval cfg) (sel_mon_top_like cfg) (sel_timeout cfg) in
  if negb (strcasecmp_eq type "text") && negb (strcasecmp_eq type "xml")
     && negb (strcasecmp_eq type "csv")
  then (-1, mk_monitor_state st cfg1 None [] [])
  else
    match setup_output cfg1 type fe with
    | (fp, out, false) => (-1, mk_monitor_state st cfg1 fp [] out)
    | (fp, out, true) =>
        let (all_core_evts, all_pid_evts) := all_events mon_events in
        let st1 :=
          if Nat.eqb (sel_monitor_num st) 0 && Nat.eqb (sel_process_num st) 0
          then fold_left add_default_core cpu_lcores
                 (set_sel_events_max st all_core_evts)
          else st in
        if Nat.ltb 0 (sel_process_num st1) && Nat.ltb 0 (sel_monitor_num st1)
        then (-1, mk_monitor_state st1 cfg1 fp [] out)
        else if negb (process_mode st1) then
          match start_cores 0 (sel_monitor_core_tab st1) [] (sel_events_max st1)
                  all_core_evts [] with
          | (tab, emax, started, ok) =>
              (if ok then 0 else -1,
               mk_monitor_state
                 (mk_mon_state tab (sel_monitor_pid_tab st1) emax
                    (m_mon_grps st1) (n_alloc st1))
                 cfg1 fp started out)
          end
        else
          match start_pids 0 (sel_monitor_pid_tab st1) [] (sel_events_max st1)
                  all_pid_evts [] with
          | (tab, emax, started, ok) =>
              (if ok then 0 else -1,
               mk_monitor_state
                 (mk_mon_state (sel_monitor_core_tab st1) tab emax
                    (m_mon_grps st1) (n_alloc st1))
                 cfg1 fp started out)
          end
    end.

(** *** The comparison functions given to qsort *)

(** [(int64_t) v] *)
Definition to_int64 (v : Z) : Z := (v + 2 ^ 63) mod 2 ^ 64 - 2 ^ 63.

Definition mon_qsort_llc_cmp_desc (ap bp : pqos_mon_data) : Z :=
  to_int (to_int64 (to_int64 (llc (values bp)) - to_int64 (llc (values ap)))).

Definition mon_qsort_coreid_cmp_asc (ap bp : pqos_mon_data) : Z :=
  to_int (to_unsigned (to_unsigned (nth 0 (md_cores ap) 0)
                       - to_unsigned (nth 0 (md_cores bp) 0))).

(** [qsort] belongs to the C library, which only promises a comparison sort.
    It is taken here as the insertion sort that asks [cmp x y] for an earlier
    element [x] and a later one [y], and keeps [x] first when the answer is
    not positive. *)
Fixpoint qsort_insert {A : Type} (cmp : A -> A -> Z) (x : A) (l : list A)
  : list A :=
  match l with
  | [] => [x]
  | y :: t => if cmp x y <=? 0 then x :: l else y :: qsort_insert cmp x t
  end.

Definition qsort {A : Type} (cmp : A -> A -> Z) (l : list A) : list A :=
  fold_right (qsort_insert cmp) [] l.

(** The sort of one tick of [monitor_loop]. *)
Definition sort_mon_data (top_mode : Z) (pmode : bool)
  (mon_data : list pqos_mon_data) : list pqos_mon_data :=
  if negb (top_mode =? 0) then qsort mon_qsort_llc_cmp_desc mon_data
  else if negb pmode then qsort mon_qsort_coreid_cmp_asc mon_data
  else mon_data.

(** *** get_event_factors *)

(** Floating point is kept abstract: the type [double], the conversion of an
    integer, the two operations the module uses and [printf]'s ["%<w>.1f"]
    ([w = 0] for ["%.1f"]). *)
Variable double : Type.
Variable D_of_Z : Z -> double.
Variable Dmul : double -> double -> double.
Variable Ddiv : double -> double -> double.
Variable fmt_f1 : nat -> double -> string.

(** The capability structure and [pqos_cap_get_event] of the library
    ([None] for a status other than [PQOS_RETVAL_OK]). *)
Variable pqos_cap : Type.
Variable pqos_cap_get_event : pqos_cap -> Z -> option pqos_monitor.

Record factors : Type := mk_factors {
  llc_factor : double;
  mbr_factor : double;
  mbl_factor : double
}.

(** [get_event_factors]: the status, and the three output parameters as they
    are when the function returns ([f0] on entry). *)
Definition get_event_factors (cap : option pqos_cap) (emax : Z) (f0 : factors)
  : retval * factors :=
  match cap with
  | None => (PQOS_RETVAL_PARAM, f0)
  | Some c =>
      let r1 :=
        if negb (Z.land emax PQOS_MON_EVENT_L3_OCCUP =? 0) then
          match pqos_cap_get_event c PQOS_MON_EVENT_L3_OCCUP with
          | None => None
          | Some l3mon =>
              Some (Ddiv (D_of_Z (scale_factor l3mon)) (D_of_Z 1024))
          end
        else Some (D_of_Z 1) in
      match r1 with
      | None => (PQOS_RETVAL_ERROR, f0)
      | Some lf =>
          let f1 := mk_factors lf (mbr_factor f0) (mbl_factor f0) in
          let r2 :=
            if negb (Z.land emax PQOS_MON_EVENT_RMEM_BW =? 0) then
              match pqos_cap_get_event c PQOS_MON_EVENT_RMEM_BW with
              | None => None
              | Some mbr_mon =>
                  Some (Ddiv (D_of_Z (scale_factor mbr_mon))
                          (Dmul (D_of_Z 1024) (D_of_Z 1024)))
              end
            else Some (D_of_Z 1) in
          match r2 with
          | None => (PQOS_RETVAL_ERROR, f1)
          | Some rf =>
              let f2 := mk_factors lf rf (mbl_factor f0) in
              let r3 :=
                if negb (Z.land emax PQOS_MON_EVENT_LMEM_BW =? 0) then
                  match pqos_cap_get_event c PQOS_MON_EVENT_LMEM_BW with
                  | None => None
                  | Some mbl_mon =>
                      Some (Ddiv (D_of_Z (scale_factor mbl_mon))
                              (Dmul (D_of_Z 1024) (D_of_Z 1024)))
                  end
                else Some (D_of_Z 1) in
              match r3 with
              | None => (PQOS_RETVAL_ERROR, f2)
              | Some bf => (PQOS_RETVAL_OK, mk_factors lf rf bf)
              end
          end
      end
  end.

(** *** The row formatters *)

(** [snprintf(data, size, "%s", s)] followed by [strlen(data)], on a buffer
    that was zeroed: at most [size - 1] characters are kept. *)
Definition snprintf (size : Z) (s : string) : string :=
  take (Z.to_nat (size - 1)) s.

Definition strlen (s : string) : Z := Z.of_nat (String.length s).

Definition blank_column : string := "           ".

(** [sizeof(blank_column)] *)
Definition sizeof_blank_column : Z := 12.

(** [fillin_text_column]: the characters put into [data]; the value returned
    is their number. *)
Definition fillin_text_column (val : double) (sz_data : Z)
  (is_monitored is_column_present : Z) : string :=
  if sz_data <=? sizeof_blank_column then EmptyString
  else if negb (is_monitored =? 0) then snprintf (sz_data - 1) (fmt_f1 11 val)
  else if negb (is_column_present =? 0)
  then take (Z.to_nat (sz_data - 1)) blank_column
  else EmptyString.

(** The three calls that the row functions share: the columns in the order
    cache occupancy, local bandwidth, remote bandwidth, each one written
    behind the previous one into what is left of the buffer. *)
Definition fillin_row (column : double -> Z -> Z -> Z -> string -> string)
  (names : string * string * string) (sz_data : Z) (mon_event emax : Z)
  (llc_v mbr_v mbl_v : double) : string :=
  let '(n1, n2, n3) := names in
  let c1 := column llc_v sz_data
              (Z.land mon_event PQOS_MON_EVENT_L3_OCCUP)
              (Z.land emax PQOS_MON_EVENT_L3_OCCUP) n1 in
  let o1 := strlen c1 in
  let c2 := column mbl_v (sz_data - o1)
              (Z.land mon_event PQOS_MON_EVENT_LMEM_BW)
              (Z.land emax PQOS_MON_EVENT_LMEM_BW) n2 in
  let o2 := o1 + strlen c2 in
  let c3 := column mbr_v (sz_data - o2)
              (Z.land mon_event PQOS_MON_EVENT_RMEM_BW)
              (Z.land emax PQOS_MON_EVENT_RMEM_BW) n3 in
  (c1 ++ c2 ++ c3)%string.

Definition no_names : string * string * string :=
  (EmptyString, EmptyString, EmptyString).

(** [fillin_text_row] *)
Definition fillin_text_row (sz_data : Z) (mon_event emax : Z)
  (llc_v mbr_v mbl_v : double) : string :=
  fillin_row (fun v sz m p _ => fillin_text_column v sz m p) no_names
    sz_data mon_event emax llc_v mbr_v mbl_v.

(** [fillin_xml_column] *)
Definition fillin_xml_column (val : double) (sz_data : Z)
  (is_monitored is_column_present : Z) (node_name : string) : string :=
  if negb (is_monitored =? 0) then
    snprintf (sz_data - 1)
      (tab_char ++ "<" ++ node_name ++ ">" ++ fmt_f1 0 val
       ++ "</" ++ node_name ++ ">" ++ nl)
  else if negb (is_column_present =? 0) then
    snprintf (sz_data - 1)
      (tab_char ++ "<" ++ node_name ++ "></" ++ node_name ++ ">" ++ nl)
  else EmptyString.

Definition xml_names : string * string * string :=
  ("l3_occupancy_kB"%string, "mbm_local_MB"%string, "mbm_remote_MB"%string).

(** [fillin_xml_row] *)
Definition fillin_xml_row (sz_data : Z) (mon_event emax : Z)
  (llc_v mbr_v mbl_v : double) : string :=
  fillin_row fillin_xml_column xml_names
    sz_data mon_event emax llc_v mbr_v mbl_v.

(** [fillin_csv_column] *)
Definition fillin_csv_column (val : double) (sz_data : Z)
  (is_monitored is_column_present : Z) : string :=
  if negb (is_monitored =? 0) then
    snprintf (sz_data - 1) ("," ++ fmt_f1 0 val)
  else if negb (is_column_present =? 0) then snprintf (sz_data - 1) ","
  else EmptyString.

(** [fillin_csv_row] *)
Definition fillin_csv_row (sz_data : Z) (mon_event emax : Z)
  (llc_v mbr_v mbl_v : double) : string :=
  fillin_row (fun v sz m p _ => fillin_csv_column v sz m p) no_names
    sz_data mon_event emax llc_v mbr_v mbl_v.

(** [printf]'s ["%<w>s"]: right-justified in [w] columns. *)
Fixpoint spaces (n : nat) : string :=
  match n with
  | O => EmptyString
  | S n' => String " " (spaces n')
  end.

Definition pad_left (w : nat) (s : string) : string :=
  (spaces (w - String.length s) ++ s)%string.

(** ["%<w>u"] *)
Definition fmt_u (w : nat) (v : Z) : string :=
  pad_left w (NilZero.string_of_uint (N.to_uint (Z.to_N (to_unsigned v)))).

(** [print_text_row]: what it writes to [fp]. *)
Definition print_text_row (pmode : bool) (emax : Z) (mon_data : pqos_mon_data)
  (sz_data : Z) (llc_v mbr_v mbl_v : double) : string :=
  let data := fillin_text_row sz_data (event mon_data) emax llc_v mbr_v mbl_v in
  if negb pmode then
    (nl ++ fmt_u 3 (socket mon_data) ++ " "
     ++ pad_left 8 (take 8 (context mon_data)) ++ " "
     ++ fmt_u 8 (rmid mon_data) ++ data)%string
  else
    (nl ++ fmt_u 6 (md_pid mon_data) ++ " " ++ pad_left 6 "N/A" ++ " "
     ++ pad_left 8 "N/A" ++ data)%string.

(** [print_xml_row] *)
Definition print_xml_row (pmode : bool) (emax : Z) (time : string)
  (mon_data : pqos_mon_data) (sz_data : Z) (llc_v mbr_v mbl_v : double)
  : string :=
  let data := fillin_xml_row sz_data (event mon_data) emax llc_v mbr_v mbl_v in
  if negb pmode then
    (xml_child_open ++ nl
     ++ tab_char ++ "<time>" ++ time ++ "</time>" ++ nl
     ++ tab_char ++ "<socket>" ++ fmt_u 0 (socket mon_data) ++ "</socket>" ++ nl
     ++ tab_char ++ "<core>" ++ context mon_data ++ "</core>" ++ nl
     ++ tab_char ++ "<rmid>" ++ fmt_u 0 (rmid mon_data) ++ "</rmid>" ++ nl
     ++ data ++ xml_child_close ++ nl)%string
  else
    (xml_child_open ++ nl
     ++ tab_char ++ "<time>" ++ time ++ "</time>" ++ nl
     ++ tab_char ++ "<pid>" ++ fmt_u 0 (md_pid mon_data) ++ "</pid>" ++ nl
     ++ tab_char ++ "<core>" ++ "N/A" ++ "</core>" ++ nl
     ++ tab_char ++ "<rmid>" ++ "N/A" ++ "</rmid>" ++ nl
     ++ data ++ xml_child_close ++ nl)%string.

(** [print_csv_row] *)
Definition print_csv_row (pmode : bool) (emax : Z) (time : string)
  (mon_data : pqos_mon_data) (sz_data : Z) (llc_v mbr_v mbl_v : double)
  : string :=
  let data := fillin_csv_row sz_data (event mon_data) emax llc_v mbr_v mbl_v in
  if negb pmode then
    (time ++ "," ++ fmt_u 0 (socket mon_data) ++ "," ++ context mon_data
     ++ "," ++ fmt_u 0 (rmid mon_data) ++ data ++ nl)%string
  else
    (time ++ "," ++ fmt_u 0 (md_pid mon_data) ++ "," ++ "N/A" ++ ","
     ++ "N/A" ++ data ++ nl)%string.

(** *** monitor_loop *)

Definition TERM_MIN_NUM_LINES : Z := 3.

(** What [nanosleep] answers: [0], or [-1] with the time left in [rem]. *)
Inductive nanosleep_result : Type :=
| Ns_done
| Ns_interrupted (rem_sec rem_nsec : Z).

(** What one iteration of the [while] loop gets from outside, in the order in
    which it asks: the flag [stop_monitoring_loop] at the loop test, the
    clock, the poll ([None]: a status other than [PQOS_RETVAL_OK], otherwise
    the counters the library stored for the polled groups), the formatted
    local time ([None]: [localtime] returned [NULL]), the clock, the flag
    after the rows, the first [nanosleep], the flag after it, and the clock
    for the time limit.  [te_ws_row] is the number of rows the terminal has
    while the iteration draws; the loop body never asks for it. *)
Record tick_env : Type := mk_tick_env {
  te_ws_row : Z;
  te_stop_top : bool;
  te_tv_s : timeval;
  te_poll : option (list pqos_event_values);
  te_localtime : option string;
  te_tv_e : timeval;
  te_stop_rows : bool;
  te_sleep : nanosleep_result;
  te_stop_sleep : bool;
  te_tv_limit : timeval
}.

(** What the function gets from outside before the loop: [isatty], the
    [ws_row] that [ioctl(TIOCGWINSZ)] stores ([None]: it returned -1) and
    the clock. *)
Record loop_env : Type := mk_loop_env {
  le_isatty : bool;
  le_ws_row : option Z;
  le_tv_start : timeval
}.

(** [pqos_mon_poll(m_mon_grps, n)] stores fresh counters in the first [n]
    groups. *)
Fixpoint poll_update (n : nat) (grps : list pqos_mon_data)
  (vs : list pqos_event_values) : list pqos_mon_data :=
  match n, grps, vs with
  | S n', g :: gt, v :: vt =>
      mk_mon_data (event g) (context g) (md_pid g) (rmid g) (socket g)
        (md_cores g) v :: poll_update n' gt vt
  | _, _, _ => grps
  end.

(** The header of the text and CSV formats; [strncpy] and [strncat] keep it
    within [sz_header - 1] characters. *)
Definition build_header (istext pmode : bool) (emax : Z) : string :=
  let col (e : Z) (s : string) :=
    if negb (Z.land emax e =? 0) then s else EmptyString in
  take 127
    (if istext then
       ((if negb pmode then "SKT     CORE     RMID"
         else "PID      CORE     RMID")
        ++ col PQOS_MON_EVENT_L3_OCCUP "    LLC[KB]"
        ++ col PQOS_MON_EVENT_LMEM_BW "  MBL[MB/s]"
        ++ col PQOS_MON_EVENT_RMEM_BW "  MBR[MB/s]")%string
     else
       ((if negb pmode then "Time,Socket,Core,RMID" else "Time,PID,Core,RMID")
        ++ col PQOS_MON_EVENT_L3_OCCUP ",LLC[KB]"
        ++ col PQOS_MON_EVENT_LMEM_BW ",MBL[MB/s]"
        ++ col PQOS_MON_EVENT_RMEM_BW ",MBR[MB/s]")%string).

(** The values of the locals of [monitor_loop] that stay fixed in the loop. *)
Record loop_ctx : Type := mk_loop_ctx {
  lc_istext : bool;
  lc_isxml : bool;
  lc_istty : bool;
  lc_pmode : bool;
  lc_top_mode : Z;
  lc_sel_time : Z;
  lc_interval : Z;
  lc_max_lines : Z;
  lc_emax : Z;
  lc_factors : factors;
  lc_coeff : double;
  lc_header : string;
  lc_tv_start : timeval
}.

(** The limit on the number of rows: [mon_number] after
    [if (max_lines > 0) { if ((mon_number+TERM_MIN_NUM_LINES-1) > max_lines)
    mon_number = max_lines - TERM_MIN_NUM_LINES + 1; }]. *)
Definition clamp_lines (max_lines mon_number : Z) : Z :=
  if (0 <? max_lines)
     && (to_unsigned (mon_number + TERM_MIN_NUM_LINES - 1) >? max_lines)
  then to_unsigned (max_lines - TERM_MIN_NUM_LINES + 1)
  else mon_number.

(** The groups whose rows one iteration prints, in the order of the rows:
    [mon_data[0 .. mon_number)] after the copy of [mon_number] pointers
    from [m_mon_grps], the sort, and the limit on [mon_number]. *)
Definition rendered (top_mode : Z) (pmode : bool) (max_lines mon_number : Z)
  (grps : list pqos_mon_data) : list pqos_mon_data :=
  firstn (Z.to_nat (clamp_lines max_lines mon_number))
    (sort_mon_data top_mode pmode (firstn (Z.to_nat mon_number) grps)).

(** [max_lines] as the code before the loop leaves it. *)
Definition term_max_lines (le : loop_env) : Z :=
  if le_isatty le then
    match le_ws_row le with
    | Some ws_row =>
        if ws_row <? TERM_MIN_NUM_LINES then TERM_MIN_NUM_LINES else ws_row
    | None => 0
    end
  else 0.

(** How one iteration ends: at the foot of the loop (with the new value of
    [mon_number] and the groups as polled), by [break], or by [return]. *)
Inductive tick_end : Type :=
| T_next (mon_number : Z) (grps : list pqos_mon_data)
| T_break
| T_return.

(** The rows of one tick. *)
Definition print_row (c : loop_ctx) (cb_time : string) (md : pqos_mon_data)
  : string :=
  let sz_data := 128 in
  let llc_v := Dmul (D_of_Z (llc (values md))) (llc_factor (lc_factors c)) in
  let mbr_v := Dmul (Dmul (D_of_Z (mbm_remote_delta (values md)))
                       (mbr_factor (lc_factors c))) (lc_coeff c) in
  let mbl_v := Dmul (Dmul (D_of_Z (mbm_local_delta (values md)))
                       (mbl_factor (lc_factors c))) (lc_coeff c) in
  if lc_istext c then
    print_text_row (lc_pmode c) (lc_emax c) md sz_data llc_v mbr_v mbl_v
  else if lc_isxml c then
    print_xml_row (lc_pmode c) (lc_emax c) cb_time md sz_data llc_v mbr_v mbl_v
  else
    print_csv_row (lc_pmode c) (lc_emax c) cb_time md sz_data llc_v mbr_v mbl_v.

(** The end of the loop body: the pause up to the next measurement and the
    time limit.  [mon_number] and [grps] are what the iteration leaves. *)
Definition pace (c : loop_ctx) (e : tick_env) (mon_number : Z)
  (grps : list pqos_mon_data) : list action * tick_end :=
  let usec_start := tv_usec (te_tv_s e) + tv_sec (te_tv_s e) * 1000000 in
  let usec_end := tv_usec (te_tv_e e) + tv_sec (te_tv_e e) * 1000000 in
  let usec_diff := usec_end - usec_start in
  let limit (acts : list action) :=
    if (0 <=? lc_sel_time c)
       && (tv_sec (te_tv_limit e) - tv_sec (lc_tv_start c) >? lc_sel_time c)
    then (acts, T_break)
    else (acts, T_next mon_number grps) in
  if usec_diff <? lc_interval c then
    let req_sec := Z.quot (lc_interval c - usec_diff) 1000000 in
    let req_nsec := Z.rem (lc_interval c - usec_diff) 1000000 * 1000 in
    match te_sleep e with
    | Ns_done => limit [A_nanosleep req_sec req_nsec]
    | Ns_interrupted rem_sec rem_nsec =>
        if te_stop_sleep e then ([A_nanosleep req_sec req_nsec], T_break)
        else limit [A_nanosleep req_sec req_nsec;
                    A_nanosleep rem_sec rem_nsec]
    end
  else limit [].

(** One iteration of [while (!stop_monitoring_loop)], the loop test
    excluded. *)
Definition tick (c : loop_ctx) (e : tick_env) (mon_number : Z)
  (grps : list pqos_mon_data) : list action * tick_end :=
  match te_poll e with
  | None =>
      ([A_poll mon_number;
        A_printf ("Failed to poll monitoring data!" ++ nl)], T_return)
  | Some vs =>
      let grps1 := poll_update (Z.to_nat mon_number) grps vs in
      let clear := if lc_istty c then [A_write (esc ++ "[2J")] else [] in
      let cb_time := match te_localtime e with
                     | Some t => t
                     | None => "error"%string
                     end in
      let home := match te_localtime e with
                  | Some t =>
                      (if lc_istty c then [A_write (esc ++ "[0;0H")] else [])
                      ++ (if lc_istext c
                          then [A_write ("TIME " ++ t ++ nl)] else [])
                  | None => []
                  end in
      let mon_number1 := clamp_lines (lc_max_lines c) mon_number in
      let head := if lc_istext c then [A_write (lc_header c)] else [] in
      let rows := map (fun md => A_write (print_row c cb_time md))
                    (rendered (lc_top_mode c) (lc_pmode c) (lc_max_lines c)
                       mon_number grps1) in
      let foot := if lc_istty c then [A_write (esc ++ "[0;0")] else [] in
      let acts := [A_poll mon_number] ++ clear ++ home ++ head ++ rows
                  ++ [A_flush] ++ foot in
      if te_stop_rows e then (acts, T_break)
      else
        let (acts', o) := pace c e mon_number1 grps1 in
        (acts ++ acts', o)
  end.

(** How the run of the loop over a script of iterations ends: the loop was
    left (its test failed or a [break]), the function returned from inside
    it, or the script ended with the loop still going. *)
Inductive loop_end : Type :=
| L_left
| L_returned
| L_running.

Fixpoint run_ticks (c : loop_ctx) (envs : list tick_env) (mon_number : Z)
  (grps : list pqos_mon_data) : list action * loop_end :=
  match envs with
  | [] => ([], L_running)
  | e :: rest =>
      if te_stop_top e then ([], L_left)
      else
        match tick c e mon_number grps with
        | (acts, T_next mon_number' grps') =>
            let (acts', l) := run_ticks c rest mon_number' grps' in
            (acts ++ acts', l)
        | (acts, T_break) => (acts, L_left)
        | (acts, T_return) => (acts, L_returned)
        end
  end.

(** [monitor_loop]: everything done from the call up to the return, or up to
    the end of the script. *)
Definition monitor_loop (cap : option pqos_cap) (m : monitor) (le : loop_env)
  (envs : list tick_env) : list action * loop_end :=
  let st := mon_st m in
  let cfg := mon_cfg m in
  let output_type := match sel_output_type cfg with
                     | Some t => t
                     | None => EmptyString
                     end in
  let istext := strcasecmp_eq output_type "text" in
  let isxml := strcasecmp_eq output_type "xml" in
  let iscsv := strcasecmp_eq output_type "csv" in
  let pmode := process_mode st in
  let mon_number := if negb pmode then Z.of_nat (sel_monitor_num st)
                    else Z.of_nat (sel_process_num st) in
  if negb istext && negb isxml && negb iscsv then
    ([A_printf ("Invalid selection of output file type '" ++ output_type
                ++ "'!" ++ nl)], L_returned)
  else
    match get_event_factors cap (sel_events_max st)
            (mk_factors (D_of_Z 1) (D_of_Z 1) (D_of_Z 1)) with
    | (PQOS_RETVAL_OK, f) =>
        let istty := le_isatty le in
        let max_lines := term_max_lines le in
        let interval := sel_mon_interval cfg in
        let coeff := Ddiv (D_of_Z 10) (D_of_Z interval) in
        let header := if negb isxml
                      then build_header istext pmode (sel_events_max st)
                      else EmptyString in
        let pre := if negb isxml && negb istext
                   then [A_write (header ++ nl)] else [] in
        let c := mk_loop_ctx istext isxml istty pmode (sel_mon_top_like cfg)
                   (sel_timeout cfg) (interval * 100000) max_lines
                   (sel_events_max st) f coeff header (le_tv_start le) in
        match run_ticks c envs mon_number (mon_grps m) with
        | (acts, L_left) =>
            (pre ++ acts
             ++ (if isxml then [A_write (xml_root_close ++ nl)] else [])
             ++ (if istty then [A_write (nl ++ nl)] else []), L_left)
        | (acts, l) => (pre ++ acts, l)
        end
    | (_, _) =>
        ([A_printf ("Error in retrieving monitoring scale factors!" ++ nl)],
         L_returned)
    end.

(** * Properties that depend on the platform *)

(** ** The display mask [sel_events_max] *)

(** The event that a token names: what [parse_event] ORs into
    [sel_events_max] for it. *)
Definition named_event (str : string) : Z :=
  if strncasecmp_eq str "llc:" 4 then PQOS_MON_EVENT_L3_OCCUP
  else if strncasecmp_eq str "mbr:" 4 then PQOS_MON_EVENT_RMEM_BW
  else if strncasecmp_eq str "mbl:" 4 then PQOS_MON_EVENT_LMEM_BW
  else 0.

Definition named_mask_from (m : Z) (tokens : list string) : Z :=
  fold_left (fun acc tok => Z.lor acc (named_event tok)) tokens m.

(** The events named in the argument of one [-m] or [-p] option. *)
Definition named_mask (arg : string) : Z :=
  named_mask_from 0 (strtok_r_all ";" arg).

Lemma parse_event_mask :
  forall str st evt st',
    parse_event str st = Ok (evt, st') ->
    sel_events_max st' = Z.lor (sel_events_max st) (named_event str).
Proof.
  intros str st evt st'. unfold parse_event, named_event.
  destruct (strncasecmp_eq str "llc:" 4); [now intros [= _ <-]|].
  destruct (strncasecmp_eq str "mbr:" 4); [now intros [= _ <-]|].
  destruct (strncasecmp_eq str "mbl:" 4); [now intros [= _ <-]|].
  destruct (_ || _); [|discriminate].
  intros [= _ <-]. now rewrite Z.lor_0_r.
Qed.

Lemma register_cgrp_mask :
  forall evt cg st st',
    register_cgrp evt cg st = Ok st' -> sel_events_max st' = sel_events_max st.
Proof.
  intros evt cg st st'. unfold register_cgrp.
  destruct (find_cgrp _ cg evt) as [[tab'|]|]; simpl; try discriminate;
    now intros [= <-].
Qed.

Lemma register_cgrps_mask :
  forall evt cgrp_tab st st',
    register_cgrps evt cgrp_tab st = Ok st' ->
    sel_events_max st' = sel_events_max st.
Proof.
  intros evt cgrp_tab; induction cgrp_tab as [|cg t IH]; intros st st'; simpl.
  - now intros [= <-].
  - destruct (register_cgrp evt cg st) as [st1|] eqn:E; simpl; [|discriminate].
    intros H. rewrite (IH _ _ H). now apply register_cgrp_mask in E.
Qed.

Lemma parse_monitor_event_mask :
  forall str st st',
    parse_monitor_event str st = Ok st' ->
    sel_events_max st' = Z.lor (sel_events_max st) (named_event str).
Proof.
  intros str st st'. unfold parse_monitor_event.
  destruct (parse_event str st) as [[evt st1]|] eqn:E; simpl; [|discriminate].
  destruct (strtocgrps _ _) as [[cgrp_tab|]|]; simpl; try discriminate.
  intros H. apply register_cgrps_mask in H. rewrite H.
  now apply parse_event_mask in E.
Qed.

Lemma store_pid_mask :
  forall evt p st, sel_events_max (store_pid evt p st) = sel_events_max st.
Proof.
  intros evt p st. unfold store_pid.
  now destruct (find_pid _ p evt).
Qed.

Lemma store_pids_mask :
  forall evt ps st,
    sel_events_max (fold_left (fun s p => store_pid evt p s) ps st)
    = sel_events_max st.
Proof.
  intros evt ps; induction ps as [|p t IH]; intros st; simpl; [reflexivity|].
  now rewrite IH, store_pid_mask.
Qed.

Lemma sel_store_process_id_mask :
  forall str st st',
    sel_store_process_id str st = Ok st' ->
    sel_events_max st' = Z.lor (sel_events_max st) (named_event str).
Proof.
  intros str st st'. unfold sel_store_process_id.
  destruct (parse_event str st) as [[evt st1]|] eqn:E; cbn [bind];
    [|discriminate].
  destruct (match strchr_next ":" str with
            | Some s => strlisttotab s (Z.of_nat PQOS_MAX_PIDS)
            | None => Ok []
            end) as [ps|]; cbn [bind]; [|discriminate].
  destruct (Nat.eqb (length ps) 0); [discriminate|].
  destruct (Nat.leb PQOS_MAX_PIDS (length ps)); [discriminate|].
  intros [= <-]. rewrite store_pids_mask. now apply parse_event_mask in E.
Qed.

Lemma for_each_token_mask :
  forall f,
    (forall str st st',
        f str st = Ok st' ->
        sel_events_max st' = Z.lor (sel_events_max st) (named_event str)) ->
    forall tokens st st',
      for_each_token f tokens st = Ok st' ->
      sel_events_max st' = named_mask_from (sel_events_max st) tokens.
Proof.
  intros f Hf tokens; induction tokens as [|tok t IH]; intros st st'; simpl.
  - now intros [= <-].
  - destruct (f tok st) as [st1|] eqn:E; simpl; [|discriminate].
    intros H. rewrite (IH _ _ H). unfold named_mask_from. simpl.
    now rewrite (Hf _ _ _ E).
Qed.

(** A token that starts with ["all:"] or with [":"] names no event. *)
Lemma all_prefix_not_named :
  forall str,
    strncasecmp_eq str "all:" 4 || strncasecmp_eq str ":" 1 = true ->
    strncasecmp_eq str "llc:" 4 = false
    /\ strncasecmp_eq str "mbr:" 4 = false
    /\ strncasecmp_eq str "mbl:" 4 = false.
Proof.
  intros [|c t]; [cbn; discriminate|].
  cbn [strncasecmp_eq].
  destruct (Ascii.eqb_spec (tolower c) (tolower "a")) as [Ea|Ea];
    destruct (Ascii.eqb_spec (tolower c) (tolower ":")) as [Ec|Ec];
    try rewrite Ea; try rewrite Ec; simpl; try discriminate;
    intros _; repeat split; reflexivity.
Qed.

(** What the start loops of [monitor_setup] make of an entry: the events
    of the platform in the place of [PQOS_MON_EVENT_ALL]. *)
Definition expand_cores (all_core_evts : Z) (cg : core_group) : core_group :=
  if events cg =? PQOS_MON_EVENT_ALL
  then mk_core_group (desc cg) (cores cg) (pgrp cg) all_core_evts
  else cg.

Definition expand_pid (all_pid_evts : Z) (e : pid_entry) : pid_entry :=
  if pid_events e =? PQOS_MON_EVENT_ALL
  then mk_pid_entry (pid e) (pid_pgrp e) all_pid_evts
  else e.

(** Some entry carries [PQOS_MON_EVENT_ALL]. *)
Definition cores_carry_all (tab : list core_group) : bool :=
  existsb (fun cg => events cg =? PQOS_MON_EVENT_ALL) tab.

Definition pids_carry_all (tab : list pid_entry) : bool :=
  existsb (fun e => pid_events e =? PQOS_MON_EVENT_ALL) tab.

Lemma start_cores_expands :
  forall todo i done emax a started tab' emax' started',
    start_cores i todo done emax a started = (tab', emax', started', true) ->
    tab' = done ++ map (expand_cores a) todo
    /\ emax' = (if cores_carry_all todo then Z.lor emax a else emax).
Proof.
  induction todo as [|cg t IH];
    intros i done emax a started tab' emax' started'; simpl.
  - intros [= <- <- _]. now rewrite app_nil_r.
  - fold (expand_cores a cg).
    destruct (pqos_mon_start i _ _ _) as [md|]; [|discriminate].
    intros H. apply IH in H. destruct H as [-> ->].
    rewrite <- app_assoc. split; [reflexivity|].
    unfold cores_carry_all. cbn [existsb].
    destruct (events cg =? PQOS_MON_EVENT_ALL); cbn [orb]; [|reflexivity].
    destruct (existsb _ t); [|reflexivity].
    now rewrite <- Z.lor_assoc, Z.lor_diag.
Qed.

Lemma start_pids_expands :
  forall todo i done emax a started tab' emax' started',
    start_pids i todo done emax a started = (tab', emax', started', true) ->
    tab' = done ++ map (expand_pid a) todo
    /\ emax' = (if pids_carry_all todo then Z.lor emax a else emax).
Proof.
  induction todo as [|e t IH];
    intros i done emax a started tab' emax' started'; simpl.
  - intros [= <- <- _]. now rewrite app_nil_r.
  - fold (expand_pid a e).
    destruct (pqos_mon_start_pid i _ _) as [md|]; [|discriminate].
    intros H. apply IH in H. destruct H as [-> ->].
    rewrite <- app_assoc. split; [reflexivity|].
    unfold pids_carry_all. cbn [existsb].
    destruct (pid_events e =? PQOS_MON_EVENT_ALL); cbn [orb]; [|reflexivity].
    destruct (existsb _ t); [|reflexivity].
    now rewrite <- Z.lor_assoc, Z.lor_diag.
Qed.

(** [monitor_setup] on a registry that is not empty, up to the start
    loops. *)
Lemma monitor_setup_selected :
  forall cpu_lcores mon_events fe cfg st m,
    (0 < sel_monitor_num st + sel_process_num st)%nat ->
    monitor_setup cpu_lcores mon_events fe cfg st = (0, m) ->
    if negb (process_mode st) then
      exists tab emax started,
        start_cores 0 (sel_monitor_core_tab st) [] (sel_events_max st)
          (fst (all_events mon_events)) [] = (tab, emax, started, true)
        /\ sel_monitor_core_tab (mon_st m) = tab
        /\ sel_monitor_pid_tab (mon_st m) = sel_monitor_pid_tab st
        /\ sel_events_max (mon_st m) = emax
    else
      exists tab emax started,
        start_pids 0 (sel_monitor_pid_tab st) [] (sel_events_max st)
          (snd (all_events mon_events)) [] = (tab, emax, started, true)
        /\ sel_monitor_core_tab (mon_st m) = sel_monitor_core_tab st
        /\ sel_monitor_pid_tab (mon_st m) = tab
        /\ sel_events_max (mon_st m) = emax.
Proof.
  intros cpu_lcores mon_events fe cfg st m Hsel. unfold monitor_setup.
  destruct (negb _ && negb _ && negb _); [discriminate|].
  destruct (setup_output _ _ fe) as [[fp out] [|]]; [|discriminate].
  destruct (all_events mon_events) as [a b]. cbn [fst snd].
  replace (Nat.eqb (sel_monitor_num st) 0 && Nat.eqb (sel_process_num st) 0)
    with false.
  - destruct (Nat.ltb 0 (sel_process_num st) && Nat.ltb 0 (sel_monitor_num st));
      [discriminate|].
    destruct (negb (process_mode st)).
    + destruct (start_cores 0 _ [] _ a []) as [[[tab emax] started] ok].
      destruct ok; [|discriminate]. intros [= <-].
      exists tab, emax, started. repeat split.
    + destruct (start_pids 0 _ [] _ b []) as [[[tab emax] started] ok].
      destruct ok; [|discriminate]. intros [= <-].
      exists tab, emax, started. repeat split.
  - symmetry. apply andb_false_iff.
    destruct (sel_monitor_num st); [right|left; reflexivity].
    destruct (sel_process_num st); [inversion Hsel|reflexivity].
Qed.

(** C10.  A call of [selfn_monitor_cores] or [selfn_monitor_pids] that
    returns leaves in [sel_events_max] exactly the events named by the
    ["llc:"], ["mbr:"] and ["mbl:"] tokens of its own argument, whatever the
    mask was before the call; a token with the prefix ["all:"] or [":"] gets
    the value [PQOS_MON_EVENT_ALL] and leaves the mask alone.  The events of
    the platform enter the mask in [monitor_setup], in the loops that start
    the groups: the mask a start loop leaves is the one it found or that one
    with the events of the platform, and the latter only when an entry
    carries [PQOS_MON_EVENT_ALL].  When [monitor_setup] returns 0 on a
    registry of core groups, the mask is the one the setters left if no
    group carries [PQOS_MON_EVENT_ALL], and otherwise that mask with all
    events of the platform; every group that carried [PQOS_MON_EVENT_ALL]
    has the events of the platform instead and the other groups are as they
    were.  The same holds on a registry of process ids, with the events
    that the platform supports for process ids. *)
Theorem setters_rebuild_display_mask :
  (forall arg st st',
      selfn_monitor_cores arg st = Ok st' ->
      exists a, arg = Some a /\ sel_events_max st' = named_mask a)
  /\ (forall arg st st',
         selfn_monitor_pids arg st = Ok st' ->
         exists a, arg = Some a /\ sel_events_max st' = named_mask a)
  /\ (forall str st,
         strncasecmp_eq str "all:" 4 || strncasecmp_eq str ":" 1 = true ->
         parse_event str st = Ok (PQOS_MON_EVENT_ALL, st)
         /\ named_event str = 0)
  /\ (forall i todo done emax all_core_evts started,
         snd (fst (fst (start_cores i todo done emax all_core_evts started)))
         = emax
         \/ (exists cg, In cg todo /\ events cg = PQOS_MON_EVENT_ALL)
            /\ snd (fst (fst (start_cores i todo done emax all_core_evts started)))
               = Z.lor emax all_core_evts)
  /\ (forall i todo done emax all_pid_evts started,
         snd (fst (fst (start_pids i todo done emax all_pid_evts started)))
         = emax
         \/ (exists e, In e todo /\ pid_events e = PQOS_MON_EVENT_ALL)
            /\ snd (fst (fst (start_pids i todo done emax all_pid_evts started)))
               = Z.lor emax all_pid_evts)
  /\ (forall cpu_lcores mon_events fe cfg st m,
         (0 < sel_monitor_num st)%nat -> sel_process_num st = 0%nat ->
         monitor_setup cpu_lcores mon_events fe cfg st = (0, m) ->
         sel_events_max (mon_st m)
         = (if cores_carry_all (sel_monitor_core_tab st)
            then Z.lor (sel_events_max st) (fst (all_events mon_events))
            else sel_events_max st)
         /\ sel_monitor_core_tab (mon_st m)
            = map (expand_cores (fst (all_events mon_events)))
                (sel_monitor_core_tab st))
  /\ (forall cpu_lcores mon_events fe cfg st m,
         (0 < sel_process_num st)%nat -> sel_monitor_num st = 0%nat ->
         monitor_setup cpu_lcores mon_events fe cfg st = (0, m) ->
         sel_events_max (mon_st m)
         = (if pids_carry_all (sel_monitor_pid_tab st)
            then Z.lor (sel_events_max st) (snd (all_events mon_events))
            else sel_events_max st)
         /\ sel_monitor_pid_tab (mon_st m)
            = map (expand_pid (snd (all_events mon_events)))
                (sel_monitor_pid_tab st)).
Proof.
  split; [|split; [|split; [|split; [|split; [|split]]]]].
  - intros [a|] st st'; simpl; [|discriminate].
    destruct (Nat.leb (String.length a) 0); [discriminate|].
    intros H. exists a; split; [reflexivity|].
    apply (for_each_token_mask _ parse_monitor_event_mask) in H. exact H.
  - intros [a|] st st'; simpl; [|discriminate].
    destruct (Nat.leb (String.length a) 0); [discriminate|].
    intros H. exists a; split; [reflexivity|].
    apply (for_each_token_mask _ sel_store_process_id_mask) in H. exact H.
  - intros str st H. pose proof (all_prefix_not_named str H) as [H1 [H2 H3]].
    unfold parse_event, named_event. rewrite H1, H2, H3, H. now split.
  - intros i todo; revert i; induction todo as [|cg t IH];
      intros i done emax a started; simpl; [now left|].
    destruct (Z.eqb_spec (events cg) PQOS_MON_EVENT_ALL) as [E|E].
    + right. split; [exists cg; split; [now left|assumption]|].
      destruct (pqos_mon_start _ _ _ _); [|reflexivity].
      destruct (IH (S i) (done ++ [mk_core_group (desc cg) (cores cg) (pgrp cg) a])
                  (Z.lor emax a) a (started ++ [p])) as [->|[_ ->]];
        [reflexivity|].
      now rewrite <- Z.lor_assoc, Z.lor_diag.
    + destruct (pqos_mon_start _ _ _ _); [|now left].
      destruct (IH (S i) (done ++ [cg]) emax a (started ++ [p]))
        as [->|[[cg' [Hin Hev]] ->]]; [now left|].
      right. split; [|reflexivity]. exists cg'. split; [now right|assumption].
  - intros i todo; revert i; induction todo as [|e t IH];
      intros i done emax a started; simpl; [now left|].
    destruct (Z.eqb_spec (pid_events e) PQOS_MON_EVENT_ALL) as [E|E].
    + right. split; [exists e; split; [now left|assumption]|].
      destruct (pqos_mon_start_pid _ _ _); [|reflexivity].
      destruct (IH (S i) (done ++ [mk_pid_entry (pid e) (pid_pgrp e) a])
                  (Z.lor emax a) a (started ++ [p])) as [->|[_ ->]];
        [reflexivity|].
      now rewrite <- Z.lor_assoc, Z.lor_diag.
    + destruct (pqos_mon_start_pid _ _ _); [|now left].
      destruct (IH (S i) (done ++ [e]) emax a (started ++ [p]))
        as [->|[[e' [Hin Hev]] ->]]; [now left|].
      right. split; [|reflexivity]. exists e'. split; [now right|assumption].
  - intros cpu_lcores mon_events fe cfg st m Hc Hp Hs.
    apply monitor_setup_selected in Hs;
      [|apply Nat.lt_lt_add_r; exact Hc].
    unfold process_mode in Hs. rewrite Hp in Hs. cbn [Nat.leb negb] in Hs.
    destruct Hs as [tab [emax [started [Hs [Ht [_ He]]]]]].
    apply start_cores_expands in Hs. destruct Hs as [-> ->].
    rewrite He, Ht. split; reflexivity.
  - intros cpu_lcores mon_events fe cfg st m Hp Hc Hs.
    apply monitor_setup_selected in Hs;
      [|rewrite Nat.add_comm; apply Nat.lt_lt_add_r; exact Hp].
    unfold process_mode in Hs.
    destruct (sel_process_num st) as [|k] eqn:Ek; [inversion Hp|].
    cbn [Nat.leb negb] in Hs.
    destruct Hs as [tab [emax [started [Hs [_ [Ht He]]]]]].
    apply start_pids_expands in Hs. destruct Hs as [-> ->].
    rewrite He, Ht. split; reflexivity.
Qed.

(** ** The scale factors *)

(** The event is in the display mask. *)
Definition observed (emax e : Z) : Prop := Z.land emax e <> 0.

(** The factor of an event as the claim has it: the scale factor of the
    library divided by [unit] when the event is observed, otherwise 1.0. *)
Definition factor_is (c : pqos_cap) (emax e : Z) (unit : double) (f : double)
  : Prop :=
  (observed emax e ->
   exists mon, pqos_cap_get_event c e = Some mon
               /\ f = Ddiv (D_of_Z (scale_factor mon)) unit)
  /\ (~ observed emax e -> f = D_of_Z 1).

Lemma land_test : forall a b, negb (Z.land a b =? 0) = true <-> observed a b.
Proof.
  intros a b. unfold observed.
  destruct (Z.eqb_spec (Z.land a b) 0); simpl; split; congruence.
Qed.

Lemma get_event_factors_ok :
  forall c emax f0 f,
    get_event_factors (Some c) emax f0 = (PQOS_RETVAL_OK, f) ->
    factor_is c emax PQOS_MON_EVENT_L3_OCCUP (D_of_Z 1024) (llc_factor f)
    /\ factor_is c emax PQOS_MON_EVENT_LMEM_BW
         (Dmul (D_of_Z 1024) (D_of_Z 1024)) (mbl_factor f)
    /\ factor_is c emax PQOS_MON_EVENT_RMEM_BW
         (Dmul (D_of_Z 1024) (D_of_Z 1024)) (mbr_factor f).
Proof.
  intros c emax f0 f. unfold get_event_factors, factor_is, observed.
  destruct (Z.eqb_spec (Z.land emax PQOS_MON_EVENT_L3_OCCUP) 0) as [E1|E1];
    destruct (pqos_cap_get_event c PQOS_MON_EVENT_L3_OCCUP) as [m1|];
    cbn [negb]; try discriminate;
    destruct (Z.eqb_spec (Z.land emax PQOS_MON_EVENT_RMEM_BW) 0) as [E2|E2];
    destruct (pqos_cap_get_event c PQOS_MON_EVENT_RMEM_BW) as [m2|];
    cbn [negb]; try discriminate;
    destruct (Z.eqb_spec (Z.land emax PQOS_MON_EVENT_LMEM_BW) 0) as [E3|E3];
    destruct (pqos_cap_get_event c PQOS_MON_EVENT_LMEM_BW) as [m3|];
    cbn [negb]; try discriminate;
    intros [= <-]; cbn [llc_factor mbr_factor mbl_factor];
    repeat split; intros; try contradiction; try reflexivity;
    try (eexists; split; reflexivity).
Qed.

Lemma get_event_factors_error :
  forall c emax f0 e,
    e = PQOS_MON_EVENT_L3_OCCUP \/ e = PQOS_MON_EVENT_RMEM_BW
    \/ e = PQOS_MON_EVENT_LMEM_BW ->
    observed emax e -> pqos_cap_get_event c e = None ->
    fst (get_event_factors (Some c) emax f0) = PQOS_RETVAL_ERROR.
Proof.
  intros c emax f0 e He Hobs Hnone. apply land_test in Hobs.
  unfold get_event_factors.
  destruct He as [-> | [-> | ->]]; rewrite ?Hobs, ?Hnone.
  - reflexivity.
  - destruct (if negb (Z.land emax PQOS_MON_EVENT_L3_OCCUP =? 0)
              then _ else _); reflexivity.
  - destruct (if negb (Z.land emax PQOS_MON_EVENT_L3_OCCUP =? 0)
              then _ else _); [|reflexivity].
    destruct (if negb (Z.land emax PQOS_MON_EVENT_RMEM_BW =? 0)
              then _ else _); reflexivity.
Qed.

Lemma get_event_factors_total :
  forall c emax f0,
    (forall e,
        e = PQOS_MON_EVENT_L3_OCCUP \/ e = PQOS_MON_EVENT_RMEM_BW
        \/ e = PQOS_MON_EVENT_LMEM_BW ->
        observed emax e -> pqos_cap_get_event c e <> None) ->
    fst (get_event_factors (Some c) emax f0) = PQOS_RETVAL_OK.
Proof.
  intros c emax f0 H. unfold get_event_factors.
  destruct (negb (Z.land emax PQOS_MON_EVENT_L3_OCCUP =? 0)) eqn:E1.
  - apply land_test in E1.
    destruct (pqos_cap_get_event c PQOS_MON_EVENT_L3_OCCUP) eqn:G1;
      [|exfalso; apply (H _ (or_introl eq_refl) E1 G1)].
    destruct (negb (Z.land emax PQOS_MON_EVENT_RMEM_BW =? 0)) eqn:E2.
    + apply land_test in E2.
      destruct (pqos_cap_get_event c PQOS_MON_EVENT_RMEM_BW) eqn:G2;
        [|exfalso; apply (H _ (or_intror (or_introl eq_refl)) E2 G2)].
      destruct (negb (Z.land emax PQOS_MON_EVENT_LMEM_BW =? 0)) eqn:E3;
        [|reflexivity].
      apply land_test in E3.
      destruct (pqos_cap_get_event c PQOS_MON_EVENT_LMEM_BW) eqn:G3;
        [reflexivity
        |exfalso; apply (H _ (or_intror (or_intror eq_refl)) E3 G3)].
    + destruct (negb (Z.land emax PQOS_MON_EVENT_LMEM_BW =? 0)) eqn:E3;
        [|reflexivity].
      apply land_test in E3.
      destruct (pqos_cap_get_event c PQOS_MON_EVENT_LMEM_BW) eqn:G3;
        [reflexivity
        |exfalso; apply (H _ (or_intror (or_intror eq_refl)) E3 G3)].
  - destruct (negb (Z.land emax PQOS_MON_EVENT_RMEM_BW =? 0)) eqn:E2.
    + apply land_test in E2.
      destruct (pqos_cap_get_event c PQOS_MON_EVENT_RMEM_BW) eqn:G2;
        [|exfalso; apply (H _ (or_intror (or_introl eq_refl)) E2 G2)].
      destruct (negb (Z.land emax PQOS_MON_EVENT_LMEM_BW =? 0)) eqn:E3;
        [|reflexivity].
      apply land_test in E3.
      destruct (pqos_cap_get_event c PQOS_MON_EVENT_LMEM_BW) eqn:G3;
        [reflexivity
        |exfalso; apply (H _ (or_intror (or_intror eq_refl)) E3 G3)].
    + destruct (negb (Z.land emax PQOS_MON_EVENT_LMEM_BW =? 0)) eqn:E3;
        [|reflexivity].
      apply land_test in E3.
      destruct (pqos_cap_get_event c PQOS_MON_EVENT_LMEM_BW) eqn:G3;
        [reflexivity
        |exfalso; apply (H _ (or_intror (or_intror eq_refl)) E3 G3)].
Qed.

(** No iteration of the loop runs when the factors cannot be resolved. *)
Lemma monitor_loop_without_factors :
  forall cap m le envs,
    fst (get_event_factors cap (sel_events_max (mon_st m))
           (mk_factors (D_of_Z 1) (D_of_Z 1) (D_of_Z 1))) <> PQOS_RETVAL_OK ->
    snd (monitor_loop cap m le envs) = L_returned
    /\ forall n, ~ In (A_poll n) (fst (monitor_loop cap m le envs)).
Proof.
  intros cap m le envs H. unfold monitor_loop.
  destruct (negb _ && negb _ && negb _).
  - split; [reflexivity|]. intros n [E|[]]. discriminate.
  - destruct (get_event_factors _ _ _) as [[| |] f]; simpl in H;
      try (exfalso; now apply H);
      (split; [reflexivity|]; intros n [E|[]]; discriminate).
Qed.

(** C9.  With a capability structure at hand, [get_event_factors] looks at
    the three events in the display mask.  When it returns
    [PQOS_RETVAL_OK], the factor of cache occupancy is the scale factor of
    the library divided by 1024 and the factors of local and of remote
    bandwidth are the scale factor divided by 1024*1024, for each event that
    is in the mask, and 1.0 for each event that is not.  It returns
    [PQOS_RETVAL_ERROR] whenever one of the three events is in the mask and
    the library gives no descriptor for it, and [PQOS_RETVAL_OK] otherwise.
    When it does not return [PQOS_RETVAL_OK], [monitor_loop] returns without
    a single poll. *)
Theorem get_event_factors_spec :
  forall (c : pqos_cap) (emax : Z) (f0 : factors),
    (forall f,
        get_event_factors (Some c) emax f0 = (PQOS_RETVAL_OK, f) ->
        factor_is c emax PQOS_MON_EVENT_L3_OCCUP (D_of_Z 1024) (llc_factor f)
        /\ factor_is c emax PQOS_MON_EVENT_LMEM_BW
             (Dmul (D_of_Z 1024) (D_of_Z 1024)) (mbl_factor f)
        /\ factor_is c emax PQOS_MON_EVENT_RMEM_BW
             (Dmul (D_of_Z 1024) (D_of_Z 1024)) (mbr_factor f))
    /\ (forall e,
           e = PQOS_MON_EVENT_L3_OCCUP \/ e = PQOS_MON_EVENT_RMEM_BW
           \/ e = PQOS_MON_EVENT_LMEM_BW ->
           observed emax e -> pqos_cap_get_event c e = None ->
           fst (get_event_factors (Some c) emax f0) = PQOS_RETVAL_ERROR)
    /\ ((forall e,
            e = PQOS_MON_EVENT_L3_OCCUP \/ e = PQOS_MON_EVENT_RMEM_BW
            \/ e = PQOS_MON_EVENT_LMEM_BW ->
            observed emax e -> pqos_cap_get_event c e <> None) ->
        fst (get_event_factors (Some c) emax f0) = PQOS_RETVAL_OK)
    /\ (forall cap m le envs,
           fst (get_event_factors cap (sel_events_max (mon_st m))
                  (mk_factors (D_of_Z 1) (D_of_Z 1) (D_of_Z 1)))
           <> PQOS_RETVAL_OK ->
           snd (monitor_loop cap m le envs) = L_returned
           /\ forall n, ~ In (A_poll n) (fst (monitor_loop cap m le envs))).
Proof.
  intros c emax f0. split; [|split; [|split]].
  - apply get_event_factors_ok.
  - apply get_event_factors_error.
  - apply get_event_factors_total.
  - apply monitor_loop_without_factors.
Qed.

(** ** The pause at the end of an iteration *)

(** The time the iteration took, in microseconds. *)
Definition usec_diff (e : tick_env) : Z :=
  (tv_usec (te_tv_e e) + tv_sec (te_tv_e e) * 1000000)
  - (tv_usec (te_tv_s e) + tv_sec (te_tv_s e) * 1000000).

Lemma pace_unfold :
  forall c e mon_number grps,
    pace c e mon_number grps
    = let limit (acts : list action) :=
        if (0 <=? lc_sel_time c)
           && (tv_sec (te_tv_limit e) - tv_sec (lc_tv_start c) >? lc_sel_time c)
        then (acts, T_break)
        else (acts, T_next mon_number grps) in
      if usec_diff e <? lc_interval c then
        let req_sec := Z.quot (lc_interval c - usec_diff e) 1000000 in
        let req_nsec := Z.rem (lc_interval c - usec_diff e) 1000000 * 1000 in
        match te_sleep e with
        | Ns_done => limit [A_nanosleep req_sec req_nsec]
        | Ns_interrupted rem_sec rem_nsec =>
            if te_stop_sleep e then ([A_nanosleep req_sec req_nsec], T_break)
            else limit [A_nanosleep req_sec req_nsec;
                        A_nanosleep rem_sec rem_nsec]
        end
      else limit [].
Proof. reflexivity. Qed.








(** ** A poll that fails *)

(** X20.  The iteration in which [pqos_mon_poll] fails ends the function at once:
    nothing is written, the poll is not repeated and no later iteration
    runs. *)
Lemma poll_failure_ends_run :
  forall c e rest mon_number grps,
    te_stop_top e = false -> te_poll e = None ->
    run_ticks c (e :: rest) mon_number grps
    = ([A_poll mon_number;
        A_printf ("Failed to poll monitoring data!" ++ nl)], L_returned).
Proof.
  intros c e rest mon_number grps Htop Hpoll.
  cbn [run_ticks]. rewrite Htop. unfold tick. rewrite Hpoll. reflexivity.
Qed.

(** ** The number of groups from one iteration to the next *)

(** Every iteration starts with the poll of [mon_number] groups, and hands
    the limited [mon_number] on to the next one. *)
Lemma tick_polls_mon_number :
  forall c e mon_number grps,
    exists acts, fst (tick c e mon_number grps) = A_poll mon_number :: acts.
Proof.
  intros c e mon_number grps. unfold tick.
  destruct (te_poll e) as [vs|]; [|eexists; reflexivity].
  destruct (te_stop_rows e); [eexists; reflexivity|].
  destruct (pace c e _ _) as [acts' o]. eexists; reflexivity.
Qed.

Lemma tick_next_mon_number :
  forall c e mon_number grps acts mon_number' grps',
    tick c e mon_number grps = (acts, T_next mon_number' grps') ->
    mon_number' = clamp_lines (lc_max_lines c) mon_number.
Proof.
  intros c e mon_number grps acts mon_number' grps'. unfold tick.
  destruct (te_poll e) as [vs|]; [|discriminate].
  destruct (te_stop_rows e); [discriminate|].
  rewrite pace_unfold. cbv zeta.
  destruct (usec_diff e <? lc_interval c).
  - destruct (te_sleep e) as [|rs rn].
    + destruct (_ && _); [discriminate|]. now intros [= _ <- _].
    + destruct (te_stop_sleep e); [discriminate|].
      destruct (_ && _); [discriminate|]. now intros [= _ <- _].
  - destruct (_ && _); [discriminate|]. now intros [= _ <- _].
Qed.

(** ** Blank columns *)

Definition has_event (mask e : Z) : bool := negb (Z.land mask e =? 0).

Definition blank_text_cell (emax e : Z) : string :=
  if has_event emax e then blank_column else EmptyString.

Definition blank_xml_cell (emax e : Z) (node_name : string) : string :=
  if has_event emax e
  then (tab_char ++ "<" ++ node_name ++ "></" ++ node_name ++ ">" ++ nl)%string
  else EmptyString.

Definition blank_csv_cell (emax e : Z) : string :=
  if has_event emax e then ","%string else EmptyString.

(** X16.  A group whose own mask has none of the three events: in each format the
    data part of its row is one blank cell for every event of the display
    mask, in the order of the columns, whatever the counters are. *)
Lemma rows_blank_without_events :
  forall mon_event emax llc_v mbr_v mbl_v,
    Z.land mon_event PQOS_MON_EVENT_L3_OCCUP = 0 ->
    Z.land mon_event PQOS_MON_EVENT_LMEM_BW = 0 ->
    Z.land mon_event PQOS_MON_EVENT_RMEM_BW = 0 ->
    fillin_text_row 128 mon_event emax llc_v mbr_v mbl_v
    = (blank_text_cell emax PQOS_MON_EVENT_L3_OCCUP
       ++ blank_text_cell emax PQOS_MON_EVENT_LMEM_BW
       ++ blank_text_cell emax PQOS_MON_EVENT_RMEM_BW)%string
    /\ fillin_xml_row 128 mon_event emax llc_v mbr_v mbl_v
       = (blank_xml_cell emax PQOS_MON_EVENT_L3_OCCUP "l3_occupancy_kB"
          ++ blank_xml_cell emax PQOS_MON_EVENT_LMEM_BW "mbm_local_MB"
          ++ blank_xml_cell emax PQOS_MON_EVENT_RMEM_BW "mbm_remote_MB")%string
    /\ fillin_csv_row 128 mon_event emax llc_v mbr_v mbl_v
       = (blank_csv_cell emax PQOS_MON_EVENT_L3_OCCUP
          ++ blank_csv_cell emax PQOS_MON_EVENT_LMEM_BW
          ++ blank_csv_cell emax PQOS_MON_EVENT_RMEM_BW)%string.
Proof.
  intros mon_event emax llc_v mbr_v mbl_v H1 H2 H3.
  unfold fillin_text_row, fillin_xml_row, fillin_csv_row, fillin_row,
    fillin_text_column, fillin_xml_column, fillin_csv_column,
    blank_text_cell, blank_xml_cell, blank_csv_cell, has_event,
    no_names, xml_names.
  rewrite H1, H2, H3.
  destruct (Z.land emax PQOS_MON_EVENT_L3_OCCUP =? 0);
    destruct (Z.land emax PQOS_MON_EVENT_LMEM_BW =? 0);
    destruct (Z.land emax PQOS_MON_EVENT_RMEM_BW =? 0);
    repeat split; reflexivity.
Qed.

(** ** Rows as wide as the header *)

Lemma take_all :
  forall n s, (String.length s <= n)%nat -> take n s = s.
Proof.
  induction n as [|n IH]; intros [|c t] H; simpl in *; try reflexivity.
  - inversion H.
  - f_equal. apply IH. now apply le_S_n.
Qed.

Lemma length_append :
  forall s1 s2,
    String.length (s1 ++ s2) = (String.length s1 + String.length s2)%nat.
Proof.
  induction s1 as [|c t IH]; intros s2; simpl; [reflexivity|].
  now rewrite IH.
Qed.

(** A text column in a buffer with room, for a number that [printf] renders
    in the 11 characters of the format. *)
Lemma fillin_text_column_room :
  forall val sz_data is_monitored is_column_present,
    sizeof_blank_column < sz_data ->
    String.length (fmt_f1 11 val) = 11%nat ->
    fillin_text_column val sz_data is_monitored is_column_present
    = if negb (is_monitored =? 0) then fmt_f1 11 val
      else if negb (is_column_present =? 0) then blank_column
      else EmptyString.
Proof.
  intros val sz_data m p Hsz Hlen. unfold fillin_text_column, snprintf.
  unfold sizeof_blank_column in *.
  destruct (Z.leb_spec sz_data 12) as [Hle|_]; [lia|].
  destruct (negb (m =? 0)).
  - apply take_all. rewrite Hlen. lia.
  - destruct (negb (p =? 0)); [|reflexivity].
    apply take_all. simpl. lia.
Qed.

(** The data part of the text header: 11 characters for each event of the
    display mask. *)
Definition header_columns (emax : Z) : string :=
  ((if has_event emax PQOS_MON_EVENT_L3_OCCUP then "    LLC[KB]" else "")
   ++ (if has_event emax PQOS_MON_EVENT_LMEM_BW then "  MBL[MB/s]" else "")
   ++ (if has_event emax PQOS_MON_EVENT_RMEM_BW then "  MBR[MB/s]" else ""))%string.

(** The events of the group are among those of the display mask. *)
Definition events_displayed (mon_event emax : Z) : Prop :=
  (has_event mon_event PQOS_MON_EVENT_L3_OCCUP = true ->
   has_event emax PQOS_MON_EVENT_L3_OCCUP = true)
  /\ (has_event mon_event PQOS_MON_EVENT_LMEM_BW = true ->
      has_event emax PQOS_MON_EVENT_LMEM_BW = true)
  /\ (has_event mon_event PQOS_MON_EVENT_RMEM_BW = true ->
      has_event emax PQOS_MON_EVENT_RMEM_BW = true).

(** X17.  Text rows line up with the header as long as the events of the group are
    among those of the display mask and the numbers take the 11 characters of
    their format: the data part of the row is as wide as that of the header,
    for every group. *)
Lemma text_row_as_wide_as_header :
  forall mon_event emax llc_v mbr_v mbl_v,
    events_displayed mon_event emax ->
    String.length (fmt_f1 11 llc_v) = 11%nat ->
    String.length (fmt_f1 11 mbl_v) = 11%nat ->
    String.length (fmt_f1 11 mbr_v) = 11%nat ->
    String.length (fillin_text_row 128 mon_event emax llc_v mbr_v mbl_v)
    = String.length (header_columns emax)
    /\ build_header true false emax
       = ("SKT     CORE     RMID" ++ header_columns emax)%string.
Proof.
  intros mon_event emax llc_v mbr_v mbl_v [H1 [H2 H3]] L1 L2 L3.
  split.
  - unfold fillin_text_row, fillin_row, no_names.
    rewrite (fillin_text_column_room llc_v 128) by (try reflexivity; assumption).
    set (c1 := if negb (Z.land mon_event PQOS_MON_EVENT_L3_OCCUP =? 0)
               then fmt_f1 11 llc_v
               else if negb (Z.land emax PQOS_MON_EVENT_L3_OCCUP =? 0)
                    then blank_column else EmptyString).
    assert (Hc1 : String.length c1
                  = if has_event emax PQOS_MON_EVENT_L3_OCCUP
                    then 11%nat else 0%nat).
    { unfold c1. unfold has_event in *.
      destruct (negb (Z.land mon_event PQOS_MON_EVENT_L3_OCCUP =? 0)).
      - rewrite (H1 eq_refl). exact L1.
      - destruct (negb (Z.land emax PQOS_MON_EVENT_L3_OCCUP =? 0));
          reflexivity. }
    rewrite (fillin_text_column_room mbl_v (128 - strlen c1));
      [|unfold strlen, sizeof_blank_column; rewrite Hc1;
        destruct (has_event emax PQOS_MON_EVENT_L3_OCCUP); reflexivity
       |assumption].
    set (c2 := if negb (Z.land mon_event PQOS_MON_EVENT_LMEM_BW =? 0)
               then fmt_f1 11 mbl_v
               else if negb (Z.land emax PQOS_MON_EVENT_LMEM_BW =? 0)
                    then blank_column else EmptyString).
    assert (Hc2 : String.length c2
                  = if has_event emax PQOS_MON_EVENT_LMEM_BW
                    then 11%nat else 0%nat).
    { unfold c2. unfold has_event in *.
      destruct (negb (Z.land mon_event PQOS_MON_EVENT_LMEM_BW =? 0)).
      - rewrite (H2 eq_refl). exact L2.
      - destruct (negb (Z.land emax PQOS_MON_EVENT_LMEM_BW =? 0));
          reflexivity. }
    rewrite (fillin_text_column_room mbr_v (128 - (strlen c1 + strlen c2)));
      [|unfold strlen, sizeof_blank_column; rewrite Hc1, Hc2;
        destruct (has_event emax PQOS_MON_EVENT_L3_OCCUP);
        destruct (has_event emax PQOS_MON_EVENT_LMEM_BW); reflexivity
       |assumption].
    set (c3 := if negb (Z.land mon_event PQOS_MON_EVENT_RMEM_BW =? 0)
               then fmt_f1 11 mbr_v
               else if negb (Z.land emax PQOS_MON_EVENT_RMEM_BW =? 0)
                    then blank_column else EmptyString).
    assert (Hc3 : String.length c3
                  = if has_event emax PQOS_MON_EVENT_RMEM_BW
                    then 11%nat else 0%nat).
    { unfold c3. unfold has_event in *.
      destruct (negb (Z.land mon_event PQOS_MON_EVENT_RMEM_BW =? 0)).
      - rewrite (H3 eq_refl). exact L3.
      - destruct (negb (Z.land emax PQOS_MON_EVENT_RMEM_BW =? 0));
          reflexivity. }
    unfold header_columns. rewrite !length_append, Hc1, Hc2, Hc3.
    destruct (has_event emax PQOS_MON_EVENT_L3_OCCUP);
      destruct (has_event emax PQOS_MON_EVENT_LMEM_BW);
      destruct (has_event emax PQOS_MON_EVENT_RMEM_BW); reflexivity.
  - unfold build_header, header_columns, has_event.
    destruct (negb (Z.land emax PQOS_MON_EVENT_L3_OCCUP =? 0));
      destruct (negb (Z.land emax PQOS_MON_EVENT_LMEM_BW =? 0));
      destruct (negb (Z.land emax PQOS_MON_EVENT_RMEM_BW =? 0)); reflexivity.
Qed.

End Monitor.

(** * Properties that hold on every platform *)

(** ** strtocgrps comes to an end *)

Lemma strsep_shorter :
  forall d s tok rest,
    strsep d s = (tok, Some rest) ->
    (String.length rest < String.length s)%nat.
Proof.
  intros d s; induction s as [|c t IH]; intros tok rest; simpl.
  - discriminate.
  - destruct (Ascii.eqb c d).
    + intros H. inversion H; subst. apply Nat.lt_succ_diag_r.
    + destruct (strsep d t) as [tok' rest'] eqn:E.
      intros H. inversion H; subst.
      apply Nat.lt_lt_succ_r. now apply (IH tok').
Qed.

(** The fuel that the loop needs for the rest [s] of the string. *)
Definition fuel_needed (s : option string) : nat :=
  match s with
  | None => 1%nat
  | Some str => (String.length str + 2)%nat
  end.

Lemma strtocgrps_loop_total :
  forall strlisttotab fuel s tab max,
    (fuel_needed s <= fuel)%nat ->
    exists r, strtocgrps_loop strlisttotab fuel s tab max = Some r.
Proof.
  intros strlisttotab fuel; induction fuel as [|fuel IH]; intros s tab max H.
  - destruct s; simpl in H; lia.
  - destruct s as [str|]; simpl; [|eexists; reflexivity].
    destruct (strsep "[" str) as [non_grp s1] eqn:E1.
    destruct (add_singles strlisttotab non_grp tab max) as [[tab1|]|];
      try (eexists; reflexivity).
    destruct s1 as [str1|].
    + apply strsep_shorter in E1.
      destruct (strsep "]" str1) as [grp s2] eqn:E2.
      destruct (add_group strlisttotab grp tab1 max) as [[tab2|]|];
        try (eexists; reflexivity).
      apply IH. destruct s2 as [str2|]; simpl in *.
      * apply strsep_shorter in E2. lia.
      * lia.
    + apply IH. simpl in *. lia.
Qed.

(** [strtocgrps] returns what the loop returns: the fuel it gives is
    enough. *)
Lemma strtocgrps_total :
  forall strlisttotab s max,
    strtocgrps_loop strlisttotab (strlen_opt s + 2) s [] max
    = Some (strtocgrps strlisttotab s max).
Proof.
  intros strlisttotab s max. unfold strtocgrps.
  destruct (strtocgrps_loop_total strlisttotab (strlen_opt s + 2) s [] max)
    as [r ->]; [|reflexivity].
  destruct s as [str|]; simpl; lia.
Qed.


(** ** The three-way comparison of core groups *)

Definition same_cores (a b : core_group) : Prop :=
  forall c, In c (cores a) <-> In c (cores b).

Definition disjoint_cores (a b : core_group) : Prop :=
  forall c, In c (cores a) -> ~ In c (cores b).

Definition partial_overlap (a b : core_group) : Prop :=
  ~ same_cores a b /\ ~ disjoint_cores a b.

(** A group as the data model has it: a non-empty set of cores. *)
Definition wf_cgrp (cg : core_group) : Prop :=
  NoDup (cores cg) /\ cores cg <> [].

Definition disjoint_lists (la lb : list Z) : Prop :=
  forall c, In c la -> ~ In c lb.

(** The registered groups are such sets and no core is in two of them. *)
Definition wf_tab (tab : list core_group) : Prop :=
  Forall (fun l => NoDup l /\ l <> []) (map cores tab)
  /\ ForallOrdPairs disjoint_lists (map cores tab).

(** The table with [events |= evt] done on entry [j]. *)
Fixpoint merge_at (j : nat) (evt : Z) (tab : list core_group)
  : list core_group :=
  match tab, j with
  | [], _ => []
  | g :: t, O => or_events g evt :: t
  | g :: t, S j' => g :: merge_at j' evt t
  end.

Lemma count_eq_nonneg : forall a l, 0 <= count_eq a l.
Proof.
  intros a l; induction l as [|b l IH]; simpl; [lia|].
  destruct (a =? b); lia.
Qed.

Lemma count_eq_zero : forall a l, count_eq a l = 0 <-> ~ In a l.
Proof.
  intros a l; induction l as [|b l IH]; simpl.
  - split; auto.
  - pose proof (count_eq_nonneg a l) as Hn.
    destruct (Z.eqb_spec a b) as [->|Hab]; split; intro H.
    + lia.
    + exfalso; apply H; now left.
    + intros [Hb|Hin]; [congruence|]. apply IH in Hin; [auto|lia].
    + apply IH. intro Hin. apply H. now right.
Qed.

Lemma count_eq_nodup : forall a l, NoDup l -> In a l -> count_eq a l = 1.
Proof.
  intros a l Hnd; induction Hnd as [|b l Hnin Hnd IH]; simpl; intro Hin.
  - contradiction.
  - destruct (Z.eqb_spec a b) as [->|Hab].
    + apply count_eq_zero in Hnin. lia.
    + destruct Hin as [Hb|Hin]; [congruence|]. rewrite (IH Hin). lia.
Qed.

Lemma count_found_nonneg : forall la lb, 0 <= count_found la lb.
Proof.
  intros la lb; induction la as [|a la IH]; simpl; [lia|].
  pose proof (count_eq_nonneg a lb); lia.
Qed.

Lemma count_found_zero :
  forall la lb, count_found la lb = 0 <-> (forall c, In c la -> ~ In c lb).
Proof.
  intros la lb; induction la as [|a la IH]; simpl.
  - split; [intros _ c []|auto].
  - pose proof (count_eq_nonneg a lb) as H1.
    pose proof (count_found_nonneg la lb) as H2.
    split.
    + intros H c [<-|Hin].
      * apply count_eq_zero. lia.
      * apply IH; [lia|assumption].
    + intros H.
      assert (count_eq a lb = 0) by (apply count_eq_zero, H; now left).
      assert (count_found la lb = 0) by (apply IH; intros c Hc; apply H; now right).
      lia.
Qed.

(** With [lb] free of repetitions [found] counts the cores of [la] that are
    in [lb]: it is at most [length la], with equality exactly when all are. *)
Lemma count_found_le :
  forall la lb, NoDup lb -> count_found la lb <= Z.of_nat (length la).
Proof.
  intros la lb Hnd; induction la as [|a la IH]; simpl length; simpl count_found.
  - lia.
  - destruct (in_dec Z.eq_dec a lb) as [Hin|Hnin].
    + rewrite (count_eq_nodup _ _ Hnd Hin). lia.
    + apply count_eq_zero in Hnin. lia.
Qed.

Lemma count_found_full :
  forall la lb, NoDup lb ->
    (count_found la lb = Z.of_nat (length la) <-> incl la lb).
Proof.
  intros la lb Hnd; induction la as [|a la IH]; simpl length; simpl count_found.
  - split; [intros _ c []|reflexivity].
  - pose proof (count_found_le la lb Hnd) as Hle.
    destruct (in_dec Z.eq_dec a lb) as [Hin|Hnin].
    + rewrite (count_eq_nodup _ _ Hnd Hin). split.
      * intros H c [<-|Hc]; [assumption|]. apply IH; [lia|assumption].
      * intros H.
        assert (count_found la lb = Z.of_nat (length la))
          by (apply IH; intros c Hc; apply H; now right).
        lia.
    + split.
      * apply count_eq_zero in Hnin. lia.
      * intros H. exfalso. apply Hnin, H. now left.
Qed.

Lemma cmp_cgrps_disjoint :
  forall a b, cmp_cgrps a b = 0 <-> disjoint_cores a b.
Proof.
  intros a b. unfold cmp_cgrps, disjoint_cores.
  rewrite <- count_found_zero.
  destruct (Z.eqb_spec (count_found (cores a) (cores b)) 0) as [H|H].
  - tauto.
  - destruct (_ && _); split; intro; try discriminate; contradiction.
Qed.

Lemma cmp_cgrps_same :
  forall a b, wf_cgrp a -> wf_cgrp b ->
    (cmp_cgrps a b = 1 <-> same_cores a b).
Proof.
  intros a b [Hna Hea] [Hnb Heb]. unfold cmp_cgrps, num_cores, same_cores.
  pose proof (count_found_full (cores a) (cores b) Hnb) as Hfull.
  pose proof (count_found_zero (cores a) (cores b)) as Hzero.
  destruct (Z.eqb_spec (count_found (cores a) (cores b)) 0) as [H0|H0].
  - split; [discriminate|]. intros Hs. exfalso.
    destruct (cores a) as [|c la] eqn:Ea; [congruence|].
    apply (proj1 Hzero H0 c); [now left|]. apply Hs. now left.
  - destruct (Z.eqb_spec (Z.of_nat (length (cores a))) (Z.of_nat (length (cores b))))
      as [Hl|Hl]; simpl.
    + destruct (Z.eqb_spec (Z.of_nat (length (cores b)))
                  (count_found (cores a) (cores b))) as [Hf|Hf].
      * split; [intros _|reflexivity].
        assert (Hincl : incl (cores a) (cores b)) by (apply Hfull; lia).
        intro c; split; [apply Hincl|].
        apply (NoDup_length_incl Hna); [lia|assumption].
      * split; [discriminate|]. intros Hs. exfalso. apply Hf.
        symmetry. rewrite <- Hl. apply Hfull. intros c Hc. now apply Hs.
    + split; [discriminate|]. intros Hs. exfalso. apply Hl.
      assert (length (cores a) <= length (cores b))%nat
        by (apply NoDup_incl_length; [assumption|intros c Hc; now apply Hs]).
      assert (length (cores b) <= length (cores a))%nat
        by (apply NoDup_incl_length; [assumption|intros c Hc; now apply Hs]).
      lia.
Qed.

Lemma cmp_cgrps_values :
  forall a b, cmp_cgrps a b = 0 \/ cmp_cgrps a b = 1 \/ cmp_cgrps a b = -1.
Proof.
  intros a b. unfold cmp_cgrps.
  destruct (_ =? 0); [now left|]. destruct (_ && _); auto.
Qed.

Lemma cmp_cgrps_partial :
  forall a b, wf_cgrp a -> wf_cgrp b ->
    (cmp_cgrps a b = -1 <-> partial_overlap a b).
Proof.
  intros a b Ha Hb. unfold partial_overlap.
  rewrite <- (cmp_cgrps_same a b Ha Hb), <- (cmp_cgrps_disjoint a b).
  destruct (cmp_cgrps_values a b) as [H|[H|H]]; rewrite H; split;
    try discriminate; try lia; intros [H1 H2]; try (exfalso; auto; fail);
    reflexivity.
Qed.

(** ** The registration loop *)

Lemma merge_at_cores :
  forall j evt tab, map cores (merge_at j evt tab) = map cores tab.
Proof.
  intros j evt tab; revert j; induction tab as [|g t IH]; intros [|j]; simpl;
    try reflexivity.
  now rewrite IH.
Qed.

Lemma merge_at_length :
  forall j evt tab, length (merge_at j evt tab) = length tab.
Proof.
  intros j evt tab; revert j; induction tab as [|g t IH]; intros [|j]; simpl;
    auto.
Qed.

Lemma merge_at_nth :
  forall j evt tab g, nth_error tab j = Some g ->
    nth_error (merge_at j evt tab) j = Some (or_events g evt).
Proof.
  intros j evt tab; revert j; induction tab as [|g t IH]; intros [|j] g0; simpl;
    try discriminate.
  - now intros [= ->].
  - apply IH.
Qed.

Lemma merge_at_other :
  forall j evt tab i, i <> j ->
    nth_error (merge_at j evt tab) i = nth_error tab i.
Proof.
  intros j evt tab; revert j; induction tab as [|g t IH]; intros [|j] [|i] H;
    simpl; try reflexivity; try contradiction.
  apply IH. congruence.
Qed.

Lemma find_cgrp_new :
  forall tab cg evt,
    Forall (fun g => disjoint_cores g cg) tab -> find_cgrp tab cg evt = Ok None.
Proof.
  intros tab cg evt H; induction H as [|g t Hg _ IH]; simpl; [reflexivity|].
  apply cmp_cgrps_disjoint in Hg. rewrite Hg, IH. reflexivity.
Qed.

Lemma find_cgrp_same :
  forall tab cg evt j g,
    wf_tab tab -> wf_cgrp cg ->
    nth_error tab j = Some g -> same_cores g cg ->
    find_cgrp tab cg evt = Ok (Some (merge_at j evt tab)).
Proof.
  induction tab as [|a t IH]; intros cg evt [|j] g [Hwf Hdis] Hcg Hnth Hsame;
    simpl in Hnth; try discriminate; simpl in Hwf, Hdis;
    inversion Hwf as [|? ? Ha Hwf']; inversion Hdis as [|? ? Hda Hdis'];
    subst; simpl.
  - injection Hnth as ->.
    apply (cmp_cgrps_same g cg Ha Hcg) in Hsame. rewrite Hsame. reflexivity.
  - assert (Hd : disjoint_cores a cg).
    { intros c Hc Hc'. apply Hsame in Hc'.
      rewrite Forall_forall in Hda.
      refine (Hda (cores g) _ c Hc Hc').
      apply in_map. eapply nth_error_In; eassumption. }
    apply cmp_cgrps_disjoint in Hd. rewrite Hd. simpl.
    rewrite (IH cg evt j g); [reflexivity|split; assumption|assumption..].
Qed.

Lemma find_cgrp_partial :
  forall tab cg evt g,
    wf_tab tab -> wf_cgrp cg ->
    In g tab -> partial_overlap g cg ->
    exists msg, find_cgrp tab cg evt = Exit msg.
Proof.
  induction tab as [|a t IH]; intros cg evt g [Hwf Hdis] Hcg Hin Hpart;
    [contradiction|].
  simpl in Hwf, Hdis.
  inversion Hwf as [|? ? Ha Hwf']; inversion Hdis as [|? ? Hda Hdis']; subst.
  simpl. destruct (cmp_cgrps_values a cg) as [H|[H|H]]; rewrite H; simpl.
  - destruct Hin as [->|Hin].
    + apply cmp_cgrps_disjoint in H. destruct Hpart as [_ Hp]. contradiction.
    + destruct (IH cg evt g) as [msg ->]; try assumption; [now split|].
      now exists msg.
  - exfalso. apply (cmp_cgrps_same a cg Ha Hcg) in H.
    destruct Hpart as [Hns Hnd]. destruct Hin as [->|Hin]; [contradiction|].
    apply Hnd. intros c Hc Hc'. apply H in Hc'.
    rewrite Forall_forall in Hda.
    exact (Hda (cores g) (in_map cores _ _ Hin) c Hc' Hc).
  - eexists; reflexivity.
Qed.

Lemma find_cgrp_some :
  forall tab cg evt tab',
    find_cgrp tab cg evt = Ok (Some tab') -> map cores tab' = map cores tab.
Proof.
  induction tab as [|a t IH]; intros cg evt tab'; simpl; [discriminate|].
  destruct (cmp_cgrps a cg <? 0); [discriminate|].
  destruct (negb (cmp_cgrps a cg =? 0)).
  - intros [= <-]. reflexivity.
  - destruct (find_cgrp t cg evt) as [[r|]|] eqn:E; simpl; try discriminate.
    intros [= <-]. simpl. now rewrite (IH _ _ _ E).
Qed.

Lemma find_cgrp_none :
  forall tab cg evt,
    find_cgrp tab cg evt = Ok None -> Forall (fun g => disjoint_cores g cg) tab.
Proof.
  induction tab as [|a t IH]; intros cg evt; simpl; [constructor|].
  destruct (cmp_cgrps a cg <? 0); [discriminate|].
  destruct (Z.eqb_spec (cmp_cgrps a cg) 0) as [H0|H0]; simpl; [|discriminate].
  destruct (find_cgrp t cg evt) as [[r|]|] eqn:E; simpl; try discriminate.
  intros _. constructor; [now apply cmp_cgrps_disjoint|]. now apply (IH cg evt).
Qed.

Lemma ForallOrdPairs_snoc :
  forall (A : Type) (R : A -> A -> Prop) (l : list A) (x : A),
    ForallOrdPairs R l -> Forall (fun y => R y x) l ->
    ForallOrdPairs R (l ++ [x]).
Proof.
  intros A R l x H; induction H as [|a l Ha Hl IH]; intros Hx; simpl.
  - repeat constructor.
  - inversion Hx; subst. constructor; [|now apply IH].
    apply Forall_app; split; [assumption|]. now constructor.
Qed.

Lemma wf_tab_snoc :
  forall tab cg p evt,
    wf_tab tab -> wf_cgrp cg ->
    Forall (fun g => disjoint_cores g cg) tab ->
    wf_tab (tab ++ [mk_core_group (desc cg) (cores cg) p evt]).
Proof.
  intros tab cg p evt [Hwf Hdis] Hcg Hnew. unfold wf_tab.
  rewrite map_app. simpl. split.
  - apply Forall_app; split; [assumption|]. now constructor.
  - apply ForallOrdPairs_snoc; [assumption|].
    rewrite Forall_map. exact Hnew.
Qed.

(** The loop keeps the table well formed. *)
Lemma register_cgrp_wf :
  forall evt cg st st',
    wf_tab (sel_monitor_core_tab st) -> wf_cgrp cg ->
    register_cgrp evt cg st = Ok st' -> wf_tab (sel_monitor_core_tab st').
Proof.
  intros evt cg st st' Hwf Hcg. unfold register_cgrp.
  destruct (find_cgrp (sel_monitor_core_tab st) cg evt) as [[tab'|]|] eqn:E;
    simpl; try discriminate; intros [= <-]; simpl.
  - unfold wf_tab. rewrite (find_cgrp_some _ _ _ _ E). exact Hwf.
  - apply wf_tab_snoc; try assumption. now apply (find_cgrp_none _ _ evt).
Qed.

(** X3.  The registry stays well formed through [register_cgrps]: when
    the groups registered so far are sets of cores, none empty, with no core
    in two of them, and the candidates are such sets too, then every
    registration that returns leaves such a table again. *)
Lemma register_cgrps_wf :
  forall evt cgrp_tab st st',
    wf_tab (sel_monitor_core_tab st) -> Forall wf_cgrp cgrp_tab ->
    register_cgrps evt cgrp_tab st = Ok st' ->
    wf_tab (sel_monitor_core_tab st').
Proof.
  intros evt cgrp_tab; induction cgrp_tab as [|cg t IH]; intros st st' Hwf Hc;
    simpl.
  - now intros [= <-].
  - inversion Hc; subst.
    destruct (register_cgrp evt cg st) as [st1|] eqn:E; simpl; [|discriminate].
    apply IH; [|assumption]. eapply register_cgrp_wf; eassumption.
Qed.

Lemma wf_tab_initial : wf_tab (sel_monitor_core_tab initial_state).
Proof. split; constructor. Qed.

(** X26.  The registration of groups that are sets.  One candidate group against
    a well-formed table of registered groups (sets of cores, none empty, no
    core in two of them), the candidate being such a set too.  If some
    registered group has the same cores, the table keeps its length, that
    entry gets the bitwise OR of its mask and the candidate's event, all other
    entries stay as they are and no block is allocated.  If every registered
    group is disjoint from the candidate, the candidate is appended as a new
    entry with its own block.  If some registered group shares some but not
    all cores with it, the run ends with [exit].  The table that results is
    again well formed. *)
Theorem register_cgrp_three_way :
  forall (evt : Z) (cg : core_group) (st : mon_state),
    wf_tab (sel_monitor_core_tab st) -> wf_cgrp cg ->
    (forall j g,
        nth_error (sel_monitor_core_tab st) j = Some g -> same_cores g cg ->
        exists st',
          register_cgrp evt cg st = Ok st'
          /\ length (sel_monitor_core_tab st') = length (sel_monitor_core_tab st)
          /\ nth_error (sel_monitor_core_tab st') j
             = Some (mk_core_group (desc g) (cores g) (pgrp g)
                       (Z.lor (events g) evt))
          /\ (forall i, i <> j ->
                nth_error (sel_monitor_core_tab st') i
                = nth_error (sel_monitor_core_tab st) i)
          /\ n_alloc st' = n_alloc st)
    /\ (Forall (fun g => disjoint_cores g cg) (sel_monitor_core_tab st) ->
        exists st',
          register_cgrp evt cg st = Ok st'
          /\ sel_monitor_core_tab st'
             = sel_monitor_core_tab st
               ++ [mk_core_group (desc cg) (cores cg) (n_alloc st) evt]
          /\ n_alloc st' = S (n_alloc st))
    /\ ((exists g, In g (sel_monitor_core_tab st) /\ partial_overlap g cg) ->
        exists msg, register_cgrp evt cg st = Exit msg)
    /\ (forall st',
          register_cgrp evt cg st = Ok st' ->
          wf_tab (sel_monitor_core_tab st')).
Proof.
  intros evt cg st Hwf Hcg. split; [|split; [|split]].
  - intros j g Hnth Hsame. unfold register_cgrp.
    rewrite (find_cgrp_same _ cg evt j g Hwf Hcg Hnth Hsame). simpl.
    eexists; split; [reflexivity|]. simpl. split; [|split; [|split]].
    + apply merge_at_length.
    + now apply (merge_at_nth j evt _ g).
    + intros i Hi. now apply merge_at_other.
    + reflexivity.
  - intros Hnew. unfold register_cgrp.
    rewrite (find_cgrp_new _ cg evt Hnew). simpl.
    eexists; split; [reflexivity|]. simpl. split; reflexivity.
  - intros [g [Hin Hpart]]. unfold register_cgrp.
    destruct (find_cgrp_partial _ cg evt g Hwf Hcg Hin Hpart) as [msg ->].
    now exists msg.
  - intros st'. now apply register_cgrp_wf.
Qed.

(** ** The limit on the number of rows *)





(** ** The order of the rows *)

Lemma qsort_insert_perm :
  forall (A : Type) (cmp : A -> A -> Z) (x : A) (l : list A),
    Permutation (qsort_insert cmp x l) (x :: l).
Proof.
  intros A cmp x l; induction l as [|y t IH]; simpl; [reflexivity|].
  destruct (cmp x y <=? 0); [reflexivity|].
  rewrite IH. apply perm_swap.
Qed.

Lemma qsort_perm :
  forall (A : Type) (cmp : A -> A -> Z) (l : list A),
    Permutation (qsort cmp l) l.
Proof.
  intros A cmp l; induction l as [|x t IH]; simpl; [reflexivity|].
  rewrite qsort_insert_perm. now constructor.
Qed.

Section Keyed.

(** A comparison function that orders the elements with property [P] by a
    key: [cmp x y <= 0] exactly when the key of [x] is at most that of [y]. *)
Variable A : Type.
Variable cmp : A -> A -> Z.
Variable key : A -> Z.
Variable P : A -> Prop.
Hypothesis cmp_key :
  forall x y, P x -> P y -> (cmp x y <=? 0) = (key x <=? key y).

Definition key_le (x y : A) : Prop := key x <= key y.

Lemma qsort_insert_hd :
  forall a x l,
    P x -> Forall P l -> key_le a x -> HdRel key_le a l ->
    HdRel key_le a (qsort_insert cmp x l).
Proof.
  intros a x l Hx Hl Hax Hal. destruct l as [|y t]; simpl.
  - now constructor.
  - inversion Hl; subst. inversion Hal; subst.
    destruct (cmp x y <=? 0); now constructor.
Qed.

Lemma qsort_insert_sorted :
  forall x l,
    P x -> Forall P l -> Sorted key_le l ->
    Sorted key_le (qsort_insert cmp x l).
Proof.
  intros x l Hx Hl Hs; induction Hs as [|y t Ht IH Hy]; simpl.
  - repeat constructor.
  - inversion Hl as [|? ? Hpy Hpt]; subst.
    rewrite (cmp_key x y Hx Hpy).
    destruct (Z.leb_spec (key x) (key y)) as [Hle|Hgt].
    + constructor; [now constructor|]. now constructor.
    + constructor; [now apply IH|].
      apply qsort_insert_hd; try assumption. unfold key_le. lia.
Qed.

Lemma qsort_insert_all :
  forall x l, P x -> Forall P l -> Forall P (qsort_insert cmp x l).
Proof.
  intros x l Hx Hl.
  apply (Permutation_Forall (Permutation_sym (qsort_insert_perm A cmp x l))).
  now constructor.
Qed.

Lemma qsort_sorted :
  forall l, Forall P l -> Sorted key_le (qsort cmp l).
Proof.
  intros l Hl; induction Hl as [|x t Hx Ht IH]; simpl; [constructor|].
  apply qsort_insert_sorted; [assumption| |assumption].
  apply (Permutation_Forall (Permutation_sym (qsort_perm A cmp t))).
  assumption.
Qed.

Lemma firstn_sorted :
  forall n l, Sorted key_le l -> Sorted key_le (firstn n l).
Proof.
  intros n l; revert n; induction l as [|x t IH]; intros [|n] Hs; simpl;
    try constructor.
  - apply IH. now inversion Hs.
  - inversion Hs as [|? ? _ Hhd]; subst.
    destruct t as [|y t']; destruct n; simpl; constructor.
    now inversion Hhd.
Qed.

End Keyed.

Lemma Sorted_weaken :
  forall (A : Type) (R R' : A -> A -> Prop) (l : list A),
    (forall x y, R x y -> R' x y) -> Sorted R l -> Sorted R' l.
Proof.
  intros A R R' l Himp Hs; induction Hs as [|x t Ht IH Hhd]; constructor;
    [assumption|].
  destruct Hhd; constructor. now apply Himp.
Qed.

Lemma firstn_all :
  forall (A : Type) (P : A -> Prop) (n : nat) (l : list A),
    Forall P l -> Forall P (firstn n l).
Proof.
  intros A P n l; revert n; induction l as [|x t IH]; intros [|n] H; simpl;
    try constructor; inversion H; subst; auto.
Qed.

(** Counters and core ids below 2^31: the range in which the difference of
    two of them is the same number after the cast to [int]. *)
Definition llc_small (md : pqos_mon_data) : Prop :=
  0 <= llc (values md) < 2 ^ 31.

Definition core_small (md : pqos_mon_data) : Prop :=
  0 <= nth 0 (md_cores md) 0 < 2 ^ 31.

Lemma llc_cmp_small :
  forall a b, llc_small a -> llc_small b ->
    mon_qsort_llc_cmp_desc a b = llc (values b) - llc (values a).
Proof.
  intros a b Ha Hb. unfold llc_small in *.
  unfold mon_qsort_llc_cmp_desc, to_int, to_int64.
  rewrite (Z.mod_small (llc (values b) + 2 ^ 63)) by lia.
  rewrite (Z.mod_small (llc (values a) + 2 ^ 63)) by lia.
  rewrite (Z.mod_small (_ + 2 ^ 63)) by lia.
  rewrite Z.mod_small by lia. lia.
Qed.

Lemma coreid_cmp_small :
  forall a b, core_small a -> core_small b ->
    mon_qsort_coreid_cmp_asc a b
    = nth 0 (md_cores a) 0 - nth 0 (md_cores b) 0.
Proof.
  intros a b Ha Hb. unfold core_small in *.
  unfold mon_qsort_coreid_cmp_asc, to_int, to_unsigned.
  set (x := nth 0 (md_cores a) 0) in *. set (y := nth 0 (md_cores b) 0) in *.
  rewrite (Z.mod_small x) by lia. rewrite (Z.mod_small y) by lia.
  destruct (Z.lt_ge_cases (x - y) 0) as [Hneg|Hpos].
  - replace ((x - y) mod 2 ^ 32) with (x - y + 2 ^ 32)
      by (apply Z.mod_unique with (q := -1); lia).
    replace ((x - y + 2 ^ 32 + 2 ^ 31) mod 2 ^ 32) with (x - y + 2 ^ 31)
      by (apply Z.mod_unique with (q := 1); lia).
    lia.
  - rewrite (Z.mod_small (x - y)) by lia.
    rewrite Z.mod_small by lia. lia.
Qed.

(** X18.  In the range below 2^31 the rows come out as the sort is meant to leave
    them: by falling counter in top mode, else by rising first core id in
    core mode, else in the order of the poll. *)
Lemma rendered_order_small :
  forall top_mode pmode max_lines mon_number grps,
    (top_mode <> 0 -> Forall llc_small grps ->
     Sorted (fun a b => llc (values b) <= llc (values a))
       (rendered top_mode pmode max_lines mon_number grps))
    /\ (top_mode = 0 -> pmode = false -> Forall core_small grps ->
        Sorted (fun a b => nth 0 (md_cores a) 0 <= nth 0 (md_cores b) 0)
          (rendered top_mode pmode max_lines mon_number grps))
    /\ (top_mode = 0 -> pmode = true ->
        rendered top_mode pmode max_lines mon_number grps
        = firstn (Z.to_nat (clamp_lines max_lines mon_number))
            (firstn (Z.to_nat mon_number) grps)).
Proof.
  intros top_mode pmode max_lines mon_number grps. unfold rendered, sort_mon_data.
  split; [|split].
  - intros Htop Hall. destruct (Z.eqb_spec top_mode 0); [contradiction|]. simpl.
    apply (Sorted_weaken _ (key_le _ (fun md => - llc (values md)))).
    + intros x y. unfold key_le. lia.
    + apply firstn_sorted.
      apply (qsort_sorted _ mon_qsort_llc_cmp_desc (fun md => - llc (values md))
               llc_small).
      * intros x y Hx Hy. rewrite (llc_cmp_small x y Hx Hy).
        destruct (Z.leb_spec (llc (values y) - llc (values x)) 0);
          destruct (Z.leb_spec (- llc (values x)) (- llc (values y))); lia.
      * now apply firstn_all.
  - intros Htop Hp Hall. subst. simpl.
    apply (firstn_sorted _ (fun md => nth 0 (md_cores md) 0)).
    apply (qsort_sorted _ mon_qsort_coreid_cmp_asc
             (fun md => nth 0 (md_cores md) 0) core_small).
    + intros x y Hx Hy. rewrite (coreid_cmp_small x y Hx Hy).
      destruct (Z.leb_spec (nth 0 (md_cores x) 0 - nth 0 (md_cores y) 0) 0);
        destruct (Z.leb_spec (nth 0 (md_cores x) 0) (nth 0 (md_cores y) 0)); lia.
    + now apply firstn_all.
  - intros -> ->. reflexivity.
Qed.

(** ** The lines that an iteration draws *)

(** The line ends in a string, and those written to [fp_monitor] by a list
    of actions. *)
Fixpoint newlines (s : string) : nat :=
  match s with
  | EmptyString => O
  | String c t =>
      ((if Ascii.eqb c (ascii_of_nat 10) then 1 else 0) + newlines t)%nat
  end.

Fixpoint line_ends (acts : list action) : nat :=
  match acts with
  | [] => O
  | A_write s :: t => (newlines s + line_ends t)%nat
  | _ :: t => line_ends t
  end.











Section Lines.

Variable PQOS_MON_EVENT_L3_OCCUP : Z.
Variable PQOS_MON_EVENT_LMEM_BW : Z.
Variable PQOS_MON_EVENT_RMEM_BW : Z.
Variable double : Type.
Variable D_of_Z : Z -> double.
Variable Dmul : double -> double -> double.
Variable fmt_f1 : nat -> double -> string.

(** The printed numbers hold no line end. *)
Hypothesis fmt_f1_one_line : forall w v, newlines (fmt_f1 w v) = O.







End Lines.


(** * A sample platform

    The properties above hold for every value of the constants of pqos.h,
    every [strlisttotab], every monitoring library and every floating point
    arithmetic.  To run the module on inputs, this part fixes one of each:
    the constants as pqos.h defines them, a library that starts and polls
    without error, and exact rationals in the place of [double]. *)

Definition sample_MAX_CORES : nat := 1024%nat.
Definition sample_L3_OCCUP : Z := 1.
Definition sample_LMEM_BW : Z := 2.
Definition sample_RMEM_BW : Z := 8.

(** The value of a string of decimal digits. *)
Fixpoint digits_value (s : string) (acc : Z) : option Z :=
  match s with
  | EmptyString => Some acc
  | String c t =>
      let n := nat_of_ascii c in
      if (Nat.leb 48 n && Nat.leb n 57)%bool
      then digits_value t (acc * 10 + Z.of_nat (n - 48))
      else None
  end.

Fixpoint numbers (tokens : list string) : result (list Z) :=
  match tokens with
  | [] => Ok []
  | tok :: rest =>
      match digits_value tok 0 with
      | Some v => vs <- numbers rest ;; Ok (v :: vs)
      | None => Exit "parse error"
      end
  end.

(** Modelled from the spec: [strlisttotab] of main.c, which is not part of
    this module.  The spec describes the lists it reads as comma lists of
    numbers such as [0,1]; here it reads decimal numbers between commas,
    stores at most [max] of them and reports a parse error on anything
    else. *)
Definition sample_strlisttotab (s : string) (max : Z) : result (list Z) :=
  vs <- numbers (strtok_r_all "," s) ;;
  Ok (firstn (Z.to_nat max) vs).

Definition no_values : pqos_event_values := mk_values 0 0 0.

(** A library that starts every group with the events asked for. *)
Definition sample_mon_start (i : nat) (cs : list Z) (ev : Z) (ctx : string)
  : option pqos_mon_data :=
  Some (mk_mon_data ev ctx 0 (Z.of_nat i) 0 cs no_values).

Definition sample_mon_start_pid (i : nat) (p : Z) (ev : Z)
  : option pqos_mon_data :=
  Some (mk_mon_data ev EmptyString p (Z.of_nat i) 0 [] no_values).

(** The capability structure as the list of its events. *)
Definition sample_cap : Type := list pqos_monitor.

Definition sample_cap_get_event (c : sample_cap) (e : Z) : option pqos_monitor :=
  find (fun mon => mon_type mon =? e) c.

(** A platform with the three events, each with scale factor 65536. *)
Definition sample_events : sample_cap :=
  [mk_monitor sample_L3_OCCUP 1 65536;
   mk_monitor sample_LMEM_BW 1 65536;
   mk_monitor sample_RMEM_BW 1 65536].

(** ["%<w>.1f"] on a rational that is not negative: the integer part, a
    point and the first decimal.  The further decimals are cut off, where
    [printf] rounds; the two agree on the values printed below, which have
    at most one decimal. *)
Definition sample_fmt_f1 (w : nat) (q : Q) : string :=
  let tenths := Qnum q * 10 / Zpos (Qden q) in
  pad_left w (NilZero.string_of_uint (N.to_uint (Z.to_N (tenths / 10)))
              ++ "."
              ++ NilZero.string_of_uint (N.to_uint (Z.to_N (tenths mod 10)))).

(** The module on the sample platform. *)
Definition sample_selfn_monitor_cores :=
  selfn_monitor_cores sample_MAX_CORES sample_L3_OCCUP sample_LMEM_BW
    sample_RMEM_BW sample_strlisttotab.

Definition sample_selfn_monitor_pids :=
  selfn_monitor_pids sample_L3_OCCUP sample_LMEM_BW sample_RMEM_BW
    sample_strlisttotab.

Definition sample_monitor_setup :=
  monitor_setup sample_mon_start sample_mon_start_pid.

Definition sample_monitor_loop :=
  monitor_loop sample_L3_OCCUP sample_LMEM_BW sample_RMEM_BW
    Q inject_Z Qmult Qdiv sample_fmt_f1 sample_cap sample_cap_get_event.

(** The strings written to [fp_monitor] and the sizes of the polls. *)
Fixpoint writes (acts : list action) : list string :=
  match acts with
  | [] => []
  | A_write s :: t => s :: writes t
  | _ :: t => writes t
  end.

Fixpoint polls (acts : list action) : list Z :=
  match acts with
  | [] => []
  | A_poll n :: t => n :: polls t
  | _ :: t => polls t
  end.

(** [needle] occurs in [s]. *)
Fixpoint occurs_in (needle s : string) : bool :=
  String.prefix needle s
  || match s with
     | EmptyString => false
     | String _ t => occurs_in needle t
     end.

(** An iteration in which the poll succeeds, no signal arrives, drawing takes
    no time and the pause is not interrupted; [ws_row] is the height of the
    terminal at that moment. *)
Definition quiet_tick (ws_row : Z) (sec : Z) : tick_env :=
  mk_tick_env ws_row false (mk_timeval sec 0) (Some []) (Some "time"%string)
    (mk_timeval sec 0) false Ns_done false (mk_timeval (sec + 1) 0).

(** The loop test finds the stop flag set. *)
Definition stopped_tick : tick_env :=
  mk_tick_env 24 true (mk_timeval 0 0) None None (mk_timeval 0 0) false
    Ns_done false (mk_timeval 0 0).

Definition sample_file_env : file_env := mk_file_env true true 0.

(** ["first,first+1,...,first+count-1"] *)
Fixpoint number_list (first : Z) (count : nat) : string :=
  match count with
  | O => EmptyString
  | S O => uinttostr first
  | S n => (uinttostr first ++ "," ++ number_list (first + 1) n)%string
  end.

(** * The properties on the sample platform *)

(** ** Registration *)

(** One registered group, cores 0 and 1, cache occupancy; the display mask
    holds that event. *)
Definition sample_registered : mon_state :=
  mk_mon_state [mk_core_group "0,1" [0; 1] 0 sample_L3_OCCUP] []
    sample_L3_OCCUP [0%nat] 1.

(** The same cores, listed the other way round. *)
Definition sample_candidate : core_group :=
  mk_core_group "1,0" [1; 0] 0 0.

Lemma register_cgrp_three_way_witness :
  wf_tab (sel_monitor_core_tab sample_registered)
  /\ wf_cgrp sample_candidate
  /\ exists st',
       register_cgrp sample_LMEM_BW sample_candidate sample_registered = Ok st'
       /\ length (sel_monitor_core_tab st') = 1%nat
       /\ nth_error (sel_monitor_core_tab st') 0
          = Some (mk_core_group "0,1" [0; 1] 0 3).
Proof.
  assert (Hwf : wf_tab (sel_monitor_core_tab sample_registered)).
  { split; simpl.
    - constructor; [|constructor]. split; [|discriminate].
      constructor; [simpl; intros [H|[]]; discriminate|].
      constructor; [simpl; tauto|constructor].
    - repeat constructor. }
  assert (Hcg : wf_cgrp sample_candidate).
  { split; [|discriminate]. simpl.
    constructor; [simpl; intros [H|[]]; discriminate|].
    constructor; [simpl; tauto|constructor]. }
  split; [exact Hwf|]. split; [exact Hcg|].
  destruct (proj1 (register_cgrp_three_way sample_LMEM_BW sample_candidate
                     sample_registered Hwf Hcg)
              0%nat (mk_core_group "0,1" [0; 1] 0 sample_L3_OCCUP) eq_refl)
    as [st' [H1 [H2 [H3 _]]]].
  { intro c; simpl; tauto. }
  exists st'. split; [exact H1|]. split; [exact H2|exact H3].
Defined.

(** The properties of the registry that the specification lists as testable,
    on the sample platform. *)
Example identical_sets_one_group :
  sample_selfn_monitor_cores (Some "llc:0;mbl:0"%string) initial_state
  = Ok (mk_mon_state [mk_core_group "0" [0] 0 3] [] 3 [0%nat] 1).
Proof. reflexivity. Qed.

Example disjoint_sets_two_groups :
  sample_selfn_monitor_cores (Some "llc:0;mbl:1"%string) initial_state
  = Ok (mk_mon_state [mk_core_group "0" [0] 0 1; mk_core_group "1" [1] 1 2]
          [] 3 [0%nat; 1%nat] 2).
Proof. reflexivity. Qed.

Example overlapping_sets_fail :
  sample_selfn_monitor_cores (Some "llc:[0,1];mbl:[1,2]"%string) initial_state
  = Exit "Error: cannot monitor same cores in different groups".
Proof. reflexivity. Qed.

Example bracket_is_one_group :
  sample_selfn_monitor_cores (Some "llc:[0,1]"%string) initial_state
  = Ok (mk_mon_state [mk_core_group "0,1" [0; 1] 0 1] [] 1 [0%nat] 1).
Proof. reflexivity. Qed.

(** The group that [strtocgrps] builds from ["[1,4294967297]"]: [set_cgrp]
    stores both numbers as [unsigned], so core 1 is in it twice. *)
Definition wrapped_group : core_group :=
  set_cgrp cgrp_uninit "1,4294967297" [1; 4294967297].

(** C1 fails on the code.  Two tokens that name the same cores are meant to
    give one group with both events, as they do for ["[1]"].  When the
    cores are ["[1,4294967297]"], the stored list is [1; 1]; [cmp_cgrps]
    counts four equal pairs for a group of two, answers -1 for the group
    against itself, and the second token ends the run with [exit] instead
    of a merge.  When the bracket is empty, [cmp_cgrps] answers 0 and the
    same empty set is registered twice. *)
Theorem identical_sets_not_merged :
  cores wrapped_group = [1; 1]
  /\ cmp_cgrps wrapped_group wrapped_group = -1
  /\ (exists st,
         register_cgrps sample_L3_OCCUP [wrapped_group] initial_state = Ok st
         /\ register_cgrps sample_LMEM_BW [wrapped_group] st
            = Exit "Error: cannot monitor same cores in different groups")
  /\ sample_selfn_monitor_cores
       (Some "llc:[1,4294967297];mbl:[1,4294967297]"%string) initial_state
     = Exit "Error: cannot monitor same cores in different groups"
  /\ sample_selfn_monitor_cores (Some "llc:[];mbl:[]"%string) initial_state
     = Ok (mk_mon_state
             [mk_core_group "" [] 0 sample_L3_OCCUP;
              mk_core_group "" [] 1 sample_LMEM_BW]
             [] 3 [0%nat; 1%nat] 2)
  /\ sample_selfn_monitor_cores (Some "llc:[1];mbl:[1]"%string) initial_state
     = Ok (mk_mon_state [mk_core_group "1" [1] 0 3] [] 3 [0%nat] 1).
Proof.
  split; [reflexivity|]. split; [reflexivity|]. split.
  - eexists. split; reflexivity.
  - split; [reflexivity|]. split; reflexivity.
Qed.

Example same_pid_merges :
  sample_selfn_monitor_pids (Some "llc:7;mbr:7"%string) initial_state
  = Ok (mk_mon_state [] [mk_pid_entry 7 0 9] 9 [0%nat] 1).
Proof. reflexivity. Qed.

(** ** The display mask *)

(** A platform on which cache occupancy and remote bandwidth can be
    monitored for process ids and local bandwidth cannot. *)
Definition pid_platform : list pqos_monitor :=
  [mk_monitor sample_L3_OCCUP 1 65536;
   mk_monitor sample_LMEM_BW 0 65536;
   mk_monitor sample_RMEM_BW 1 65536].

(** What [-p llc:5] leaves: one process id, cache occupancy. *)
Definition pid_registered : mon_state :=
  mk_mon_state [] [mk_pid_entry 5 0 sample_L3_OCCUP] sample_L3_OCCUP
    [0%nat] 1.

Lemma setters_rebuild_display_mask_witness :
  exists st1 m1 st2 m2,
    sample_selfn_monitor_cores (Some "mbl:2;all:3"%string) sample_registered
    = Ok st1
    /\ sel_events_max sample_registered = sample_L3_OCCUP
    /\ sel_events_max st1 = sample_LMEM_BW
    /\ sample_monitor_setup [0; 1] sample_events sample_file_env
         default_config st1 = (0, m1)
    /\ sel_events_max (mon_st m1) = 11
    /\ map events (sel_monitor_core_tab (mon_st m1)) = [1; 2; 11]
    /\ sample_selfn_monitor_pids (Some "all:7;mbl:9"%string) pid_registered
       = Ok st2
    /\ sel_events_max pid_registered = sample_L3_OCCUP
    /\ sel_events_max st2 = sample_LMEM_BW
    /\ sample_monitor_setup [0; 1] pid_platform sample_file_env
         default_config st2 = (0, m2)
    /\ sel_events_max (mon_st m2) = 11
    /\ map pid_events (sel_monitor_pid_tab (mon_st m2)) = [1; 9; 2].
Proof.
  destruct (setters_rebuild_display_mask sample_MAX_CORES sample_L3_OCCUP
              sample_LMEM_BW sample_RMEM_BW sample_strlisttotab
              sample_mon_start sample_mon_start_pid)
    as [T1 [T2 [_ [_ [_ [T6 T7]]]]]].
  assert (E1 : exists st1,
             sample_selfn_monitor_cores (Some "mbl:2;all:3"%string)
               sample_registered = Ok st1
             /\ (0 < sel_monitor_num st1)%nat
             /\ sel_process_num st1 = 0%nat
             /\ cores_carry_all (sel_monitor_core_tab st1) = true
             /\ map events (sel_monitor_core_tab st1) = [1; 2; -1])
    by (vm_compute; eexists; split; [reflexivity|];
        split; [repeat constructor|]; repeat split).
  destruct E1 as [st1 [E1 [C1 [P1 [A1 V1]]]]].
  assert (S1 : exists m1,
             sample_monitor_setup [0; 1] sample_events sample_file_env
               default_config st1 = (0, m1)).
  { revert E1. vm_compute. intros [= <-]. eexists; reflexivity. }
  destruct S1 as [m1 S1].
  assert (E2 : exists st2,
             sample_selfn_monitor_pids (Some "all:7;mbl:9"%string)
               pid_registered = Ok st2
             /\ (0 < sel_process_num st2)%nat
             /\ sel_monitor_num st2 = 0%nat
             /\ pids_carry_all (sel_monitor_pid_tab st2) = true
             /\ map pid_events (sel_monitor_pid_tab st2) = [1; -1; 2])
    by (vm_compute; eexists; split; [reflexivity|];
        split; [repeat constructor|]; repeat split).
  destruct E2 as [st2 [E2 [P2 [C2 [A2 V2]]]]].
  assert (S2 : exists m2,
             sample_monitor_setup [0; 1] pid_platform sample_file_env
               default_config st2 = (0, m2)).
  { revert E2. vm_compute. intros [= <-]. eexists; reflexivity. }
  destruct S2 as [m2 S2].
  destruct (T1 _ _ _ E1) as [a1 [Ha1 M1]]. injection Ha1 as <-.
  destruct (T2 _ _ _ E2) as [a2 [Ha2 M2]]. injection Ha2 as <-.
  destruct (T6 _ _ _ _ _ _ C1 P1 S1) as [X1 Y1].
  destruct (T7 _ _ _ _ _ _ P2 C2 S2) as [X2 Y2].
  exists st1, m1, st2, m2.
  split; [exact E1|]. split; [reflexivity|].
  split; [rewrite M1; reflexivity|]. split; [exact S1|].
  split; [rewrite X1, A1, M1; reflexivity|].
  split.
  { rewrite Y1, map_map.
    revert V1. generalize (sel_monitor_core_tab st1).
    intros l; destruct l as [|g1 [|g2 [|g3 [|g4 l]]]]; try discriminate.
    cbn [map]. intros [= H1 H2 H3]. unfold expand_cores.
    rewrite H1, H2, H3. cbn. rewrite H1, H2. reflexivity. }
  split; [exact E2|]. split; [reflexivity|].
  split; [rewrite M2; reflexivity|]. split; [exact S2|].
  split; [rewrite X2, A2, M2; reflexivity|].
  rewrite Y2, map_map.
  revert V2. generalize (sel_monitor_pid_tab st2).
  intros l; destruct l as [|g1 [|g2 [|g3 [|g4 l]]]]; try discriminate.
  cbn [map]. intros [= H1 H2 H3]. unfold expand_pid.
  rewrite H1, H2, H3. cbn. rewrite H1, H3. reflexivity.
Defined.

(** ** The scale factors *)

Definition unit_factors : factors Q := mk_factors Q 1%Q 1%Q 1%Q.

Lemma get_event_factors_spec_witness :
  exists f,
    get_event_factors sample_L3_OCCUP sample_LMEM_BW sample_RMEM_BW
      Q inject_Z Qmult Qdiv sample_cap sample_cap_get_event
      (Some sample_events) sample_L3_OCCUP unit_factors
    = (PQOS_RETVAL_OK, f)
    /\ llc_factor Q f = Qdiv (inject_Z 65536) (inject_Z 1024)
    /\ mbl_factor Q f = inject_Z 1
    /\ mbr_factor Q f = inject_Z 1.
Proof.
  assert (E : exists f,
             get_event_factors sample_L3_OCCUP sample_LMEM_BW sample_RMEM_BW
               Q inject_Z Qmult Qdiv sample_cap sample_cap_get_event
               (Some sample_events) sample_L3_OCCUP unit_factors
             = (PQOS_RETVAL_OK, f))
    by (eexists; reflexivity).
  destruct E as [f E]. exists f. split; [exact E|].
  destruct (proj1 (get_event_factors_spec sample_L3_OCCUP sample_LMEM_BW
                     sample_RMEM_BW Q inject_Z Qmult Qdiv sample_fmt_f1
                     sample_cap sample_cap_get_event
                     sample_events sample_L3_OCCUP unit_factors) f E)
    as [[H1 _] [[_ H2] [_ H3]]].
  destruct (H1 ltac:(discriminate)) as [mon [Hmon Hf]].
  injection Hmon as <-.
  split; [exact Hf|]. split.
  - apply H2. intro H. apply H. reflexivity.
  - apply H3. intro H. apply H. reflexivity.
Defined.

(** ** The pause *)


Definition sample_ctx : loop_ctx Q :=
  mk_loop_ctx Q true false false false 0 (-1) 1000000 0 sample_L3_OCCUP
    unit_factors 1%Q EmptyString (mk_timeval 0 0).


(** ** The limit on the number of rows *)

Definition sample_group (i : nat) : pqos_mon_data :=
  mk_mon_data sample_L3_OCCUP (uinttostr (Z.of_nat i)) 0 (Z.of_nat i) 0
    [Z.of_nat i] no_values.

Definition sample_groups (n : nat) : list pqos_mon_data :=
  map sample_group (seq 0 n).

(** A terminal of 24 rows when the loop starts. *)
Definition sample_terminal : loop_env :=
  mk_loop_env true (Some 24) (mk_timeval 0 0).







(** The same terminal with the XML format: the limit counts groups and a
    group takes seven lines there, so the 22 groups of one iteration take
    154 lines. *)
Definition xml_terminal_ctx : loop_ctx Q :=
  mk_loop_ctx Q false true true false 0 (-1) 1000000
    (term_max_lines sample_terminal) sample_L3_OCCUP unit_factors 1%Q
    EmptyString (mk_timeval 0 0).

Example xml_rows_outgrow_terminal :
  line_ends
    (fst (tick sample_L3_OCCUP sample_LMEM_BW sample_RMEM_BW Q inject_Z
            Qmult sample_fmt_f1 xml_terminal_ctx (quiet_tick 24 0) 30
            (sample_groups 30))) = 154%nat.
Proof. vm_compute. reflexivity. Qed.

(** ** The order of the rows in top mode *)

Definition group_with_llc (v : Z) : pqos_mon_data :=
  mk_mon_data sample_L3_OCCUP "0" 0 0 0 [0] (mk_values v 0 0).

(** C2, where the code departs from it.  Two groups with cache occupancy
    counters 0 and 2^31, polled in that order: the comparison function
    answers "first argument first" whichever way it is asked, because the
    difference does not fit the [int] it is cast to, and in top mode the rows
    come out with the counter 0 above the counter 2^31. *)
Theorem top_order_lost_beyond_int :
  let a := group_with_llc 0 in
  let b := group_with_llc (2 ^ 31) in
  llc (values a) < llc (values b)
  /\ mon_qsort_llc_cmp_desc a b < 0
  /\ mon_qsort_llc_cmp_desc b a < 0
  /\ rendered 1 false 0 2 [a; b] = [a; b].
Proof.
  cbv zeta. repeat split.
Qed.

(** ** The groups that a poll covers *)

Definition thirty_cores : list Z := map Z.of_nat (seq 0 30).

(** C3, where the code departs from it.  Thirty cores selected by default,
    text output on a terminal of 24 rows: the first iteration polls the 30
    groups and the second one polls 22, because the limit on the number of
    rows is stored in [mon_number], which is also the number of groups given
    to [pqos_mon_poll]. *)
Theorem later_polls_cover_fewer_groups :
  let sm := sample_monitor_setup thirty_cores sample_events sample_file_env
              default_config initial_state in
  fst sm = 0
  /\ sel_monitor_num (mon_st (snd sm)) = 30%nat
  /\ polls (fst (sample_monitor_loop (Some sample_events) (snd sm)
                   sample_terminal
                   [quiet_tick 24 0; quiet_tick 24 1; stopped_tick]))
     = [30; 22].
Proof.
  vm_compute. repeat split.
Qed.

(** ** The bound on the number of process ids *)

(** Two clauses of one [-p] option, 100 process ids each, all different. *)
Definition two_hundred_pids : string :=
  ("llc:" ++ number_list 1 100 ++ ";mbl:" ++ number_list 101 100)%string.

(** C6, where the code departs from it.  [sel_store_process_id] compares the
    number of ids of one clause with the size of [sel_monitor_pid_tab], not
    the number of ids stored so far: the option above is accepted, 200 entries
    are stored in a table declared with [PQOS_MAX_PIDS] = 128 elements, and a
    block is allocated for each of them. *)
Theorem pid_bound_is_per_clause :
  match sample_selfn_monitor_pids (Some two_hundred_pids) initial_state with
  | Ok st =>
      sel_process_num st = 200%nat
      /\ n_alloc st = 200%nat
      /\ (PQOS_MAX_PIDS < sel_process_num st)%nat
  | Exit _ => False
  end.
Proof.
  vm_compute. repeat split.
  repeat apply le_n_S. apply le_0_n.
Qed.

(** ** The root element of the XML output *)

Definition xml_to_stdout : mon_config :=
  mk_mon_config None (Some "xml"%string) 10 0 (-1).

Definition xml_to_file : mon_config :=
  mk_mon_config (Some "out.xml"%string) (Some "xml"%string) 10 0 (-1).

(** Everything written to [fp_monitor] by [monitor_setup] and by a run of
    [monitor_loop] with one iteration, for two cores selected by default. *)
Definition xml_run (cfg : mon_config) : list string :=
  let sm := sample_monitor_setup [0; 1] sample_events sample_file_env cfg
              initial_state in
  writes (mon_out (snd sm)
          ++ fst (sample_monitor_loop (Some sample_events) (snd sm)
                    (mk_loop_env false None (mk_timeval 0 0))
                    [quiet_tick 24 0; stopped_tick])).

(** C7, where the code departs from it.  With XML output to a file the run
    starts with the declaration and the opening root element and ends with
    the closing one.  With XML output to [stdout] the closing root element is
    written all the same, but nothing opens it: [monitor_setup] writes the
    opening only in the branch that opens a file. *)
Theorem xml_root_not_opened_on_stdout :
  hd_error (xml_run xml_to_file)
  = Some (xml_declaration ++ nl ++ xml_root_open ++ nl)%string
  /\ filter (occurs_in xml_root_close) (xml_run xml_to_file)
     = [(xml_root_close ++ nl)%string]
  /\ filter (occurs_in xml_root_open) (xml_run xml_to_stdout) = []
  /\ filter (occurs_in xml_root_close) (xml_run xml_to_stdout)
     = [(xml_root_close ++ nl)%string].
Proof.
  vm_compute. repeat split.
Qed.

(** ** Rows of groups with different events *)

(** Two [-m] options: cache occupancy on core 0, local bandwidth on core 1. *)
Definition two_options : result mon_state :=
  st1 <- sample_selfn_monitor_cores (Some "llc:0"%string) initial_state ;;
  sample_selfn_monitor_cores (Some "mbl:1"%string) st1.

(** C8, where the code departs from it.  After the two options the display
    mask holds local bandwidth only, since the second call cleared it, while
    the group of core 0 still has cache occupancy.  The header has one data
    column.  The row of core 0 has two: its counter, which a row function
    writes for every event of the group, and a blank for local bandwidth.
    The row of core 1 has one. *)
Theorem rows_misaligned_after_two_options :
  match two_options with
  | Ok st =>
      let m := snd (sample_monitor_setup [] sample_events sample_file_env
                      default_config st) in
      let emax := sel_events_max (mon_st m) in
      emax = sample_LMEM_BW
      /\ map event (mon_grps m) = [sample_L3_OCCUP; sample_LMEM_BW]
      /\ build_header sample_L3_OCCUP sample_LMEM_BW sample_RMEM_BW
           true false emax
         = "SKT     CORE     RMID  MBL[MB/s]"%string
      /\ map (fun g => fillin_text_row sample_L3_OCCUP sample_LMEM_BW
                         sample_RMEM_BW Q sample_fmt_f1 128 (event g) emax
                         1%Q 1%Q 1%Q) (mon_grps m)
         = ["        1.0           "%string; "        1.0"%string]
      /\ build_header sample_L3_OCCUP sample_LMEM_BW sample_RMEM_BW
           false false emax
         = "Time,Socket,Core,RMID,MBL[MB/s]"%string
      /\ map (fun g => fillin_csv_row sample_L3_OCCUP sample_LMEM_BW
                         sample_RMEM_BW Q sample_fmt_f1 128 (event g) emax
                         1%Q 1%Q 1%Q) (mon_grps m)
         = [",1.0,"%string; ",1.0"%string]
  | Exit _ => False
  end.
Proof.
  vm_compute. repeat split.
Qed.

(** * Further properties of the registry *)

(** ** cmp_cgrps on arbitrary groups *)

Lemma count_found_cons_r :
  forall la b lb,
    count_found la (b :: lb) = count_eq b la + count_found la lb.
Proof.
  induction la as [|a la IH]; intros b lb; simpl; [reflexivity|].
  rewrite IH, (Z.eqb_sym b a). destruct (a =? b); lia.
Qed.

Lemma count_found_sym :
  forall la lb, count_found la lb = count_found lb la.
Proof.
  induction la as [|a la IH]; intros lb; simpl.
  - induction lb as [|b lb IHb]; simpl; [reflexivity|]. now rewrite <- IHb.
  - now rewrite count_found_cons_r, IH.
Qed.

(** X1.  The comparison of two groups does not depend on which one is given
    first, whatever the groups hold. *)
Theorem cmp_cgrps_sym :
  forall (cg_a cg_b : core_group), cmp_cgrps cg_a cg_b = cmp_cgrps cg_b cg_a.
Proof.
  intros cg_a cg_b. unfold cmp_cgrps.
  rewrite (count_found_sym (cores cg_b) (cores cg_a)).
  destruct (count_found (cores cg_a) (cores cg_b) =? 0); [reflexivity|].
  destruct (Z.eqb_spec (num_cores cg_a) (num_cores cg_b)) as [E|E];
    destruct (Z.eqb_spec (num_cores cg_b) (num_cores cg_a)) as [E'|E'];
    try lia; simpl; [|reflexivity].
  rewrite E. reflexivity.
Qed.

Lemma count_eq_in : forall a l, In a l -> 1 <= count_eq a l.
Proof.
  intros a l; induction l as [|b l IH]; simpl; [contradiction|].
  pose proof (count_eq_nonneg a l).
  intros [->|Hin].
  - rewrite Z.eqb_refl. lia.
  - specialize (IH Hin). destruct (a =? b); lia.
Qed.

Lemma count_found_self :
  forall l,
    Z.of_nat (length l) <= count_found l l
    /\ (count_found l l = Z.of_nat (length l) <-> NoDup l).
Proof.
  induction l as [|a l [IHle IHeq]].
  - simpl. split; [lia|]. split; [constructor|reflexivity].
  - cbn [count_found]. rewrite count_found_cons_r.
    cbn [count_eq length]. rewrite Z.eqb_refl, Nat2Z.inj_succ.
    pose proof (count_eq_nonneg a l) as Hn.
    split; [lia|]. split.
    + intros H. constructor.
      * apply count_eq_zero. lia.
      * apply IHeq. lia.
    + intros H. inversion H as [|? ? Hnin Hnd]; subst.
      apply count_eq_zero in Hnin. apply IHeq in Hnd. lia.
Qed.

(** X2.  A group compared with itself: "same cores" (1) exactly when its list of
    cores is not empty and names no core twice; "no core in common" (0) when
    the list is empty; "some but not all" (-1) when a core is repeated. *)
Theorem cmp_cgrps_self :
  forall (cg : core_group),
    (cmp_cgrps cg cg = 1 <-> cores cg <> [] /\ NoDup (cores cg))
    /\ (cmp_cgrps cg cg = 0 <-> cores cg = [])
    /\ (cmp_cgrps cg cg = -1 <-> ~ NoDup (cores cg)).
Proof.
  intros cg. unfold cmp_cgrps, num_cores.
  destruct (count_found_self (cores cg)) as [Hle Heq].
  rewrite Z.eqb_refl. cbn [andb].
  destruct (cores cg) as [|c l] eqn:E.
  - simpl. split; [|split]; split.
    + discriminate.
    + intros [H _]. now contradiction H.
    + reflexivity.
    + reflexivity.
    + discriminate.
    + intros H. exfalso. apply H. constructor.
  - assert (Hpos : 0 < Z.of_nat (length (c :: l)))
      by (cbn [length]; rewrite Nat2Z.inj_succ; lia).
    destruct (Z.eqb_spec (count_found (c :: l) (c :: l)) 0) as [H0|H0]; [lia|].
    destruct (Z.eqb_spec (Z.of_nat (length (c :: l)))
                (count_found (c :: l) (c :: l))) as [Hf|Hf].
    + assert (Hnd : NoDup (c :: l)) by (apply Heq; lia).
      split; [|split]; split.
      * intros _. split; [discriminate|assumption].
      * reflexivity.
      * discriminate.
      * discriminate.
      * discriminate.
      * intros H. contradiction.
    + assert (Hnd : ~ NoDup (c :: l))
        by (intros H; apply Hf; symmetry; now apply Heq).
      split; [|split]; split.
      * discriminate.
      * intros [_ H]. contradiction.
      * discriminate.
      * discriminate.
      * intros _. assumption.
      * reflexivity.
Qed.

(** ** The table of process ids *)

(** The value an entry is compared by: [(unsigned) sel_monitor_pid_tab[j].pid]. *)
Definition pid_key (e : pid_entry) : Z := to_unsigned (pid e).

Definition or_pid_events (e : pid_entry) (evt : Z) : pid_entry :=
  mk_pid_entry (pid e) (pid_pgrp e) (Z.lor (pid_events e) evt).

Lemma to_unsigned_to_int :
  forall p, 0 <= p < 2 ^ 32 -> to_unsigned (to_int p) = p.
Proof.
  intros p Hp. unfold to_unsigned, to_int.
  rewrite Zminus_mod_idemp_l.
  replace (p + 2 ^ 31 - 2 ^ 31) with p by lia.
  now apply Z.mod_small.
Qed.

Lemma find_pid_absent :
  forall tab p evt,
    ~ In p (map pid_key tab) -> find_pid tab p evt = None.
Proof.
  induction tab as [|e t IH]; intros p evt H; simpl; [reflexivity|].
  simpl in H. fold (pid_key e).
  destruct (Z.eqb_spec (pid_key e) p) as [E|E].
  - exfalso. apply H. now left.
  - rewrite IH; [reflexivity|]. intro Hin. apply H. now right.
Qed.

Lemma find_pid_present :
  forall tab p evt j e,
    NoDup (map pid_key tab) ->
    nth_error tab j = Some e -> pid_key e = p ->
    exists tab',
      find_pid tab p evt = Some tab'
      /\ length tab' = length tab
      /\ nth_error tab' j = Some (or_pid_events e evt)
      /\ (forall i, i <> j -> nth_error tab' i = nth_error tab i)
      /\ map pid_key tab' = map pid_key tab.
Proof.
  induction tab as [|a t IH]; intros p evt [|j] e Hnd Hnth Hkey;
    simpl in Hnth; try discriminate; simpl in Hnd;
    inversion Hnd as [|? ? Hnin Hnd']; subst; simpl; fold (pid_key a).
  - injection Hnth as ->. rewrite Z.eqb_refl.
    eexists. split; [reflexivity|]. split; [reflexivity|].
    split; [reflexivity|]. split; [|reflexivity].
    intros [|i] Hi; [contradiction|reflexivity].
  - destruct (Z.eqb_spec (pid_key a) (pid_key e)) as [E|E].
    + exfalso. apply Hnin. rewrite E. apply in_map.
      eapply nth_error_In; eassumption.
    + destruct (IH (pid_key e) evt j e Hnd' Hnth eq_refl)
        as [tab' [Hf [Hlen [Hj [Hother Hkeys]]]]].
      rewrite Hf. eexists. split; [reflexivity|]. simpl.
      split; [now rewrite Hlen|]. split; [exact Hj|]. split.
      * intros [|i] Hi; [reflexivity|]. simpl. apply Hother. congruence.
      * now rewrite Hkeys.
Qed.

(** X8.  One process id of a [-p] clause against a table whose entries have
    different ids.  An id that is in the table gets the event ORed into the
    mask of its entry: the table keeps its length and its other entries, and
    no block is allocated.  An id that is not in the table is appended, as a
    [pid_t], with a block of its own.  The ids of the table stay
    different. *)
Theorem store_pid_merges_or_appends :
  forall (evt p : Z) (st : mon_state),
    0 <= p < 2 ^ 32 ->
    NoDup (map pid_key (sel_monitor_pid_tab st)) ->
    (forall j e,
        nth_error (sel_monitor_pid_tab st) j = Some e -> pid_key e = p ->
        length (sel_monitor_pid_tab (store_pid evt p st))
        = length (sel_monitor_pid_tab st)
        /\ nth_error (sel_monitor_pid_tab (store_pid evt p st)) j
           = Some (mk_pid_entry (pid e) (pid_pgrp e) (Z.lor (pid_events e) evt))
        /\ (forall i, i <> j ->
              nth_error (sel_monitor_pid_tab (store_pid evt p st)) i
              = nth_error (sel_monitor_pid_tab st) i)
        /\ n_alloc (store_pid evt p st) = n_alloc st)
    /\ (~ In p (map pid_key (sel_monitor_pid_tab st)) ->
        sel_monitor_pid_tab (store_pid evt p st)
        = sel_monitor_pid_tab st ++ [mk_pid_entry (to_int p) (n_alloc st) evt]
        /\ n_alloc (store_pid evt p st) = S (n_alloc st)
        /\ (p < 2 ^ 31 -> to_int p = p))
    /\ NoDup (map pid_key (sel_monitor_pid_tab (store_pid evt p st))).
Proof.
  intros evt p st Hp Hnd. split; [|split].
  - intros j e Hnth Hkey.
    destruct (find_pid_present _ p evt j e Hnd Hnth Hkey)
      as [tab' [Hf [Hlen [Hj [Hother _]]]]].
    unfold store_pid. rewrite Hf. simpl. repeat split; assumption.
  - intros Hnin. unfold store_pid. rewrite (find_pid_absent _ p evt Hnin).
    simpl. split; [reflexivity|]. split; [reflexivity|].
    intros Hlt. unfold to_int. rewrite Z.mod_small by lia. lia.
  - unfold store_pid.
    destruct (in_dec Z.eq_dec p (map pid_key (sel_monitor_pid_tab st)))
      as [Hin|Hnin].
    + apply in_map_iff in Hin. destruct Hin as [e [Hkey Hin]].
      apply In_nth_error in Hin. destruct Hin as [j Hnth].
      destruct (find_pid_present _ p evt j e Hnd Hnth Hkey)
        as [tab' [Hf [_ [_ [_ Hkeys]]]]].
      rewrite Hf. simpl. now rewrite Hkeys.
    + rewrite (find_pid_absent _ p evt Hnin). simpl.
      rewrite map_app. simpl. unfold pid_key at 2. simpl.
      rewrite (to_unsigned_to_int p Hp).
      apply NoDup_app; [assumption| |].
      * constructor; [intros []|constructor].
      * intros x Hx [<-|[]]. contradiction.
Qed.

(** ** What registration keeps *)

(** Entry [g'] is entry [g] with, at most, more events. *)
Definition keeps (g g' : core_group) : Prop :=
  desc g' = desc g /\ cores g' = cores g /\ pgrp g' = pgrp g
  /\ Z.lor (events g) (events g') = events g'.

(** The table [tab'] is the table [tab], entry by entry and in the same
    order, with at most more events and more entries at the end. *)
Definition extends (tab tab' : list core_group) : Prop :=
  exists kept added, tab' = kept ++ added /\ Forall2 keeps tab kept.

Lemma keeps_refl : forall g, keeps g g.
Proof. intros g. repeat split. apply Z.lor_diag. Qed.

Lemma keeps_trans : forall a b c, keeps a b -> keeps b c -> keeps a c.
Proof.
  intros a b c [D1 [C1 [P1 E1]]] [D2 [C2 [P2 E2]]].
  repeat split; try congruence.
  rewrite <- E2, Z.lor_assoc, E1. reflexivity.
Qed.

Lemma keeps_all_refl : forall tab, Forall2 keeps tab tab.
Proof.
  induction tab; constructor; [apply keeps_refl|assumption].
Qed.

Lemma keeps_all_trans :
  forall t1 t2 t3,
    Forall2 keeps t1 t2 -> Forall2 keeps t2 t3 -> Forall2 keeps t1 t3.
Proof.
  intros t1 t2 t3 H12; revert t3; induction H12 as [|a b l1 l2 Hab _ IH];
    intros t3 H23; inversion H23; subst; constructor.
  - eapply keeps_trans; eassumption.
  - now apply IH.
Qed.

Lemma extends_refl : forall tab, extends tab tab.
Proof.
  intros tab. exists tab, []. split; [now rewrite app_nil_r|].
  apply keeps_all_refl.
Qed.

Lemma extends_trans :
  forall t1 t2 t3, extends t1 t2 -> extends t2 t3 -> extends t1 t3.
Proof.
  intros t1 t2 t3 [k1 [a1 [-> H1]]] [k2 [a2 [-> H2]]].
  apply Forall2_app_inv_l in H2.
  destruct H2 as [k2a [k2b [Ha [Hb ->]]]].
  exists k2a, (k2b ++ a2). split; [now rewrite app_assoc|].
  eapply keeps_all_trans; eassumption.
Qed.

Lemma find_cgrp_keeps :
  forall tab cg evt tab',
    find_cgrp tab cg evt = Ok (Some tab') -> Forall2 keeps tab tab'.
Proof.
  induction tab as [|a t IH]; intros cg evt tab'; simpl; [discriminate|].
  destruct (cmp_cgrps a cg <? 0); [discriminate|].
  destruct (negb (cmp_cgrps a cg =? 0)).
  - intros [= <-]. constructor; [|apply keeps_all_refl].
    repeat split. simpl. now rewrite Z.lor_assoc, Z.lor_diag.
  - destruct (find_cgrp t cg evt) as [[r|]|] eqn:E; simpl; try discriminate.
    intros [= <-]. constructor; [apply keeps_refl|]. now apply (IH cg evt).
Qed.

Lemma register_cgrp_extends :
  forall evt cg st st',
    register_cgrp evt cg st = Ok st' ->
    extends (sel_monitor_core_tab st) (sel_monitor_core_tab st')
    /\ sel_monitor_pid_tab st' = sel_monitor_pid_tab st.
Proof.
  intros evt cg st st'. unfold register_cgrp.
  destruct (find_cgrp (sel_monitor_core_tab st) cg evt) as [[tab'|]|] eqn:E;
    simpl; try discriminate; intros [= <-]; simpl; (split; [|reflexivity]).
  - exists tab', []. split; [now rewrite app_nil_r|].
    now apply (find_cgrp_keeps _ cg evt).
  - eexists _, _. split; [reflexivity|]. apply keeps_all_refl.
Qed.

Lemma register_cgrps_extends :
  forall evt cgrp_tab st st',
    register_cgrps evt cgrp_tab st = Ok st' ->
    extends (sel_monitor_core_tab st) (sel_monitor_core_tab st')
    /\ sel_monitor_pid_tab st' = sel_monitor_pid_tab st.
Proof.
  intros evt cgrp_tab; induction cgrp_tab as [|cg t IH]; intros st st'; simpl.
  - intros [= <-]. split; [apply extends_refl|reflexivity].
  - destruct (register_cgrp evt cg st) as [st1|] eqn:E; simpl; [|discriminate].
    intros H. apply register_cgrp_extends in E. destruct E as [E1 E2].
    apply IH in H. destruct H as [H1 H2]. split; [|congruence].
    eapply extends_trans; eassumption.
Qed.

(** ** The blocks of the registered entries *)

(** A registry that holds core groups only: entry [i] points to block [i],
    which is also [m_mon_grps[i]], and there are no other blocks. *)
Definition core_blocks (st : mon_state) : Prop :=
  sel_monitor_pid_tab st = []
  /\ m_mon_grps st = seq 0 (sel_monitor_num st)
  /\ map pgrp (sel_monitor_core_tab st) = seq 0 (sel_monitor_num st)
  /\ n_alloc st = sel_monitor_num st.

(** The same for a registry that holds process ids only. *)
Definition pid_blocks (st : mon_state) : Prop :=
  sel_monitor_core_tab st = []
  /\ m_mon_grps st = seq 0 (sel_process_num st)
  /\ map pid_pgrp (sel_monitor_pid_tab st) = seq 0 (sel_process_num st)
  /\ n_alloc st = sel_process_num st.

Lemma store_at_end :
  forall (A : Type) (l : list A) (x : A), store_at l (length l) x = l ++ [x].
Proof.
  intros A l x; induction l as [|h t IH]; simpl; [reflexivity|].
  now rewrite IH.
Qed.

Lemma keeps_pgrp :
  forall tab tab', Forall2 keeps tab tab' -> map pgrp tab' = map pgrp tab.
Proof.
  intros tab tab' H; induction H as [|a b l1 l2 [_ [_ [Hp _]]] _ IH]; simpl;
    [reflexivity|]. now rewrite Hp, IH.
Qed.

Lemma register_cgrp_core_blocks :
  forall evt cg st st',
    core_blocks st -> register_cgrp evt cg st = Ok st' -> core_blocks st'.
Proof.
  intros evt cg st st' [Hp [Hm [Hg Hn]]]. unfold register_cgrp.
  destruct (find_cgrp (sel_monitor_core_tab st) cg evt) as [[tab'|]|] eqn:E;
    simpl; try discriminate; intros [= <-]; unfold core_blocks, sel_monitor_num;
    simpl.
  - apply find_cgrp_keeps in E.
    rewrite (keeps_pgrp _ _ E), <- (Forall2_length E).
    repeat split; assumption.
  - unfold sel_monitor_num in *.
    rewrite Hn, Hm. rewrite <- (length_seq (length (sel_monitor_core_tab st)) 0) at 2.
    rewrite store_at_end, map_app, Hg, length_app. simpl.
    rewrite Nat.add_1_r, seq_S. simpl. repeat split; try assumption.
Qed.

Lemma register_cgrps_core_blocks :
  forall evt cgrp_tab st st',
    core_blocks st -> register_cgrps evt cgrp_tab st = Ok st' ->
    core_blocks st'.
Proof.
  intros evt cgrp_tab; induction cgrp_tab as [|cg t IH]; intros st st' Hb;
    simpl.
  - now intros [= <-].
  - destruct (register_cgrp evt cg st) as [st1|] eqn:E; simpl; [|discriminate].
    apply IH. eapply register_cgrp_core_blocks; eassumption.
Qed.

Lemma find_pid_blocks :
  forall tab p evt tab',
    find_pid tab p evt = Some tab' ->
    map pid_pgrp tab' = map pid_pgrp tab /\ length tab' = length tab.
Proof.
  induction tab as [|e t IH]; intros p evt tab'; simpl; [discriminate|].
  destruct (to_unsigned (pid e) =? p).
  - intros [= <-]. split; reflexivity.
  - destruct (find_pid t p evt) as [r|] eqn:E; [|discriminate].
    intros [= <-]. destruct (IH _ _ _ E) as [H1 H2]. simpl.
    now rewrite H1, H2.
Qed.

Lemma store_pid_blocks :
  forall evt p st, pid_blocks st -> pid_blocks (store_pid evt p st).
Proof.
  intros evt p st [Hc [Hm [Hg Hn]]]. unfold store_pid.
  destruct (find_pid (sel_monitor_pid_tab st) p evt) as [tab'|] eqn:E;
    unfold pid_blocks, sel_process_num in *; simpl.
  - destruct (find_pid_blocks _ _ _ _ E) as [H1 H2]. rewrite H1, H2.
    repeat split; assumption.
  - rewrite Hn, Hm. rewrite <- (length_seq (length (sel_monitor_pid_tab st)) 0) at 2.
    rewrite store_at_end, map_app, Hg, length_app. simpl.
    rewrite Nat.add_1_r, seq_S. simpl. repeat split; try assumption.
Qed.

Lemma store_pids_blocks :
  forall evt ps st,
    pid_blocks st -> pid_blocks (fold_left (fun s p => store_pid evt p s) ps st).
Proof.
  intros evt ps; induction ps as [|p t IH]; intros st Hb; simpl;
    [assumption|]. apply IH. now apply store_pid_blocks.
Qed.

Lemma core_blocks_initial : core_blocks initial_state.
Proof. repeat split. Qed.

Lemma pid_blocks_initial : pid_blocks initial_state.
Proof. repeat split. Qed.

(** * Further properties that depend on the platform *)

Section Platform.

Variable PQOS_MAX_CORES : nat.
Variable PQOS_MON_EVENT_L3_OCCUP : Z.
Variable PQOS_MON_EVENT_LMEM_BW : Z.
Variable PQOS_MON_EVENT_RMEM_BW : Z.
Variable strlisttotab : string -> Z -> result (list Z).

Local Abbreviation parse_event_ :=
  (parse_event PQOS_MON_EVENT_L3_OCCUP PQOS_MON_EVENT_LMEM_BW
     PQOS_MON_EVENT_RMEM_BW).
Local Abbreviation parse_monitor_event_ :=
  (parse_monitor_event PQOS_MAX_CORES PQOS_MON_EVENT_L3_OCCUP
     PQOS_MON_EVENT_LMEM_BW PQOS_MON_EVENT_RMEM_BW strlisttotab).
Local Abbreviation selfn_monitor_cores_ :=
  (selfn_monitor_cores PQOS_MAX_CORES PQOS_MON_EVENT_L3_OCCUP
     PQOS_MON_EVENT_LMEM_BW PQOS_MON_EVENT_RMEM_BW strlisttotab).
Local Abbreviation sel_store_process_id_ :=
  (sel_store_process_id PQOS_MON_EVENT_L3_OCCUP PQOS_MON_EVENT_LMEM_BW
     PQOS_MON_EVENT_RMEM_BW strlisttotab).
Local Abbreviation selfn_monitor_pids_ :=
  (selfn_monitor_pids PQOS_MON_EVENT_L3_OCCUP PQOS_MON_EVENT_LMEM_BW
     PQOS_MON_EVENT_RMEM_BW strlisttotab).

(** ** What a setter call keeps *)

(** [parse_event] touches the display mask only. *)
Lemma parse_event_tables :
  forall str st evt st',
    parse_event_ str st = Ok (evt, st') ->
    sel_monitor_core_tab st' = sel_monitor_core_tab st
    /\ sel_monitor_pid_tab st' = sel_monitor_pid_tab st
    /\ m_mon_grps st' = m_mon_grps st
    /\ n_alloc st' = n_alloc st.
Proof.
  intros str st evt st'. unfold parse_event.
  destruct (strncasecmp_eq str "llc:" 4);
    [intros [= _ <-]; repeat split|].
  destruct (strncasecmp_eq str "mbr:" 4);
    [intros [= _ <-]; repeat split|].
  destruct (strncasecmp_eq str "mbl:" 4);
    [intros [= _ <-]; repeat split|].
  destruct (_ || _); [|discriminate].
  intros [= _ <-]. repeat split.
Qed.

Lemma core_blocks_tables :
  forall st st',
    sel_monitor_core_tab st' = sel_monitor_core_tab st ->
    sel_monitor_pid_tab st' = sel_monitor_pid_tab st ->
    m_mon_grps st' = m_mon_grps st -> n_alloc st' = n_alloc st ->
    (core_blocks st -> core_blocks st') /\ (pid_blocks st -> pid_blocks st').
Proof.
  intros st st' H1 H2 H3 H4.
  unfold core_blocks, pid_blocks, sel_monitor_num, sel_process_num.
  rewrite H1, H2, H3, H4. split; intros H; exact H.
Qed.

Lemma parse_monitor_event_keeps :
  forall str st st',
    parse_monitor_event_ str st = Ok st' ->
    extends (sel_monitor_core_tab st) (sel_monitor_core_tab st')
    /\ sel_monitor_pid_tab st' = sel_monitor_pid_tab st
    /\ (core_blocks st -> core_blocks st').
Proof.
  intros str st st'. unfold parse_monitor_event.
  destruct (parse_event_ str st) as [[evt st1]|] eqn:E; cbn [bind];
    [|discriminate].
  destruct (strtocgrps _ _ _) as [[cgrp_tab|]|]; cbn [bind]; try discriminate.
  intros H. apply parse_event_tables in E. destruct E as [E1 [E2 [E3 E4]]].
  pose proof (register_cgrps_extends _ _ _ _ H) as [X1 X2].
  rewrite E1 in X1. rewrite E2 in X2. split; [exact X1|]. split; [exact X2|].
  intros Hb. apply (register_cgrps_core_blocks _ _ _ _
                      (proj1 (core_blocks_tables st st1 E1 E2 E3 E4) Hb) H).
Qed.

Lemma for_each_token_keeps :
  forall tokens st st',
    for_each_token parse_monitor_event_ tokens st = Ok st' ->
    extends (sel_monitor_core_tab st) (sel_monitor_core_tab st')
    /\ sel_monitor_pid_tab st' = sel_monitor_pid_tab st
    /\ (core_blocks st -> core_blocks st').
Proof.
  induction tokens as [|tok t IH]; intros st st'; simpl.
  - intros [= <-]. split; [apply extends_refl|]. split; [reflexivity|auto].
  - destruct (parse_monitor_event_ tok st) as [st1|] eqn:E; cbn [bind];
      [|discriminate].
    intros H. apply parse_monitor_event_keeps in E. destruct E as [E1 [E2 E3]].
    apply IH in H. destruct H as [H1 [H2 H3]].
    split; [eapply extends_trans; eassumption|].
    split; [congruence|auto].
Qed.

Lemma selfn_monitor_cores_pid_tab :
  forall (arg : option string) (st st' : mon_state),
    selfn_monitor_cores_ arg st = Ok st' ->
    sel_monitor_pid_tab st' = sel_monitor_pid_tab st.
Proof.
  intros [a|] st st'; simpl; [|discriminate].
  destruct (Nat.leb (String.length a) 0); [discriminate|].
  intros H. apply for_each_token_keeps in H. destruct H as [_ [H _]].
  exact H.
Qed.

(** X7.  A call of [selfn_monitor_cores] that returns leaves every group that was
    registered before where it was, with its description, its cores and its
    block, and with at least the events it had; new groups come after them.
    The process ids are not touched.  In a registry of core groups only,
    entry [i] still points to block [i] = [m_mon_grps[i]] and every block
    belongs to an entry. *)
Theorem selfn_monitor_cores_keeps :
  forall (arg : option string) (st st' : mon_state),
    selfn_monitor_cores_ arg st = Ok st' ->
    extends (sel_monitor_core_tab st) (sel_monitor_core_tab st')
    /\ sel_monitor_pid_tab st' = sel_monitor_pid_tab st
    /\ (core_blocks st -> core_blocks st').
Proof.
  intros [a|] st st'; simpl; [|discriminate].
  destruct (Nat.leb (String.length a) 0); [discriminate|].
  intros H. apply for_each_token_keeps in H. destruct H as [H1 [H2 H3]].
  split; [exact H1|]. split; [exact H2|].
  intros Hb. apply H3.
  revert Hb. apply core_blocks_tables; reflexivity.
Qed.

Lemma sel_store_process_id_blocks :
  forall str st st',
    sel_store_process_id_ str st = Ok st' ->
    sel_monitor_core_tab st' = sel_monitor_core_tab st
    /\ (pid_blocks st -> pid_blocks st')
    /\ (length (sel_monitor_pid_tab st) <= length (sel_monitor_pid_tab st'))%nat.
Proof.
  intros str st st'. unfold sel_store_process_id.
  destruct (parse_event_ str st) as [[evt st1]|] eqn:E; cbn [bind];
    [|discriminate].
  destruct (match strchr_next ":" str with
            | Some s => strlisttotab s (Z.of_nat PQOS_MAX_PIDS)
            | None => Ok []
            end) as [ps|]; cbn [bind]; [|discriminate].
  destruct (Nat.eqb (length ps) 0); [discriminate|].
  destruct (Nat.leb PQOS_MAX_PIDS (length ps)); [discriminate|].
  intros [= <-]. apply parse_event_tables in E. destruct E as [E1 [E2 [E3 E4]]].
  split; [|split].
  - rewrite <- E1. clear. revert st1.
    induction ps as [|p t IH]; intros s; simpl; [reflexivity|].
    rewrite IH. unfold store_pid. now destruct (find_pid _ p evt).
  - intros Hb. apply store_pids_blocks.
    apply (proj2 (core_blocks_tables st st1 E1 E2 E3 E4) Hb).
  - rewrite <- E2. clear. revert st1.
    induction ps as [|p t IH]; intros s; simpl; [apply Nat.le_refl|].
    eapply Nat.le_trans; [|apply IH]. unfold store_pid.
    destruct (find_pid _ p evt) as [tab'|] eqn:F; simpl.
    + destruct (find_pid_blocks _ _ _ _ F) as [_ ->]. apply Nat.le_refl.
    + rewrite length_app. apply Nat.le_add_r.
Qed.

(** X9.  A call of [selfn_monitor_pids] that returns does not touch the core
    groups and never removes a process id.  In a registry of process ids
    only, entry [i] still points to block [i] = [m_mon_grps[i]] and every
    block belongs to an entry. *)
Theorem selfn_monitor_pids_keeps :
  forall (arg : option string) (st st' : mon_state),
    selfn_monitor_pids_ arg st = Ok st' ->
    sel_monitor_core_tab st' = sel_monitor_core_tab st
    /\ (pid_blocks st -> pid_blocks st')
    /\ (sel_process_num st <= sel_process_num st')%nat.
Proof.
  intros [a|] st st'; simpl; [|discriminate].
  destruct (Nat.leb (String.length a) 0); [discriminate|].
  assert (G : forall tokens s s',
             for_each_token sel_store_process_id_ tokens s = Ok s' ->
             sel_monitor_core_tab s' = sel_monitor_core_tab s
             /\ (pid_blocks s -> pid_blocks s')
             /\ (sel_process_num s <= sel_process_num s')%nat).
  { induction tokens as [|tok t IH]; intros s s'; simpl.
    - intros [= <-]. split; [reflexivity|]. split; [auto|apply Nat.le_refl].
    - destruct (sel_store_process_id_ tok s) as [s1|] eqn:E; cbn [bind];
        [|discriminate].
      intros H. apply sel_store_process_id_blocks in E.
      destruct E as [E1 [E2 E3]]. apply IH in H. destruct H as [H1 [H2 H3]].
      split; [congruence|]. split; [auto|].
      unfold sel_process_num in *. eapply Nat.le_trans; eassumption. }
  intros H. apply G in H. destruct H as [H1 [H2 H3]].
  split; [exact H1|]. split; [|exact H3].
  intros Hb. apply H2. revert Hb. apply core_blocks_tables; reflexivity.
Qed.

(** ** The display mask after one option *)

Variable pqos_mon_start :
  nat -> list Z -> Z -> string -> option pqos_mon_data.
Variable pqos_mon_start_pid : nat -> Z -> Z -> option pqos_mon_data.

Local Abbreviation monitor_setup_ :=
  (monitor_setup pqos_mon_start pqos_mon_start_pid).

(** Every event of [a] is an event of [b]. *)
Definition sub_events (a b : Z) : Prop := Z.lor a b = b.

(** The events of a group are in the display mask, or the group still waits
    for [monitor_setup] to replace [PQOS_MON_EVENT_ALL]. *)
Definition covered (emax ev : Z) : Prop :=
  ev = PQOS_MON_EVENT_ALL \/ sub_events ev emax.

Definition all_covered (st : mon_state) : Prop :=
  Forall (fun g => covered (sel_events_max st) (events g))
    (sel_monitor_core_tab st).

Lemma sub_events_refl : forall a, sub_events a a.
Proof. intros a. apply Z.lor_diag. Qed.

Lemma sub_events_trans :
  forall a b c, sub_events a b -> sub_events b c -> sub_events a c.
Proof.
  unfold sub_events. intros a b c H1 H2.
  rewrite <- H2, Z.lor_assoc, H1. reflexivity.
Qed.

Lemma sub_events_lor_l : forall a b, sub_events a (Z.lor a b).
Proof. intros a b. unfold sub_events. now rewrite Z.lor_assoc, Z.lor_diag. Qed.

Lemma sub_events_lor_r : forall a b, sub_events b (Z.lor a b).
Proof. intros a b. rewrite Z.lor_comm. apply sub_events_lor_l. Qed.

Lemma sub_events_lor :
  forall a b m, sub_events a m -> sub_events b m -> sub_events (Z.lor a b) m.
Proof.
  unfold sub_events. intros a b m H1 H2. now rewrite <- Z.lor_assoc, H2, H1.
Qed.

Lemma covered_mono :
  forall m m' ev, sub_events m m' -> covered m ev -> covered m' ev.
Proof.
  intros m m' ev Hm [H|H]; [now left|right].
  eapply sub_events_trans; eassumption.
Qed.

Lemma covered_lor :
  forall m a b, covered m a -> covered m b -> covered m (Z.lor a b).
Proof.
  intros m a b [Ha|Ha] [Hb|Hb].
  - left. rewrite Ha. apply Z.lor_m1_l.
  - left. rewrite Ha. apply Z.lor_m1_l.
  - left. rewrite Hb. apply Z.lor_m1_r.
  - right. now apply sub_events_lor.
Qed.

Lemma parse_event_covered :
  forall str st evt st',
    parse_event_ str st = Ok (evt, st') ->
    covered (sel_events_max st') evt
    /\ sub_events (sel_events_max st) (sel_events_max st').
Proof.
  intros str st evt st'. unfold parse_event.
  destruct (strncasecmp_eq str "llc:" 4);
    [intros [= <- <-]; simpl; split;
     [right; apply sub_events_lor_r|apply sub_events_lor_l]|].
  destruct (strncasecmp_eq str "mbr:" 4);
    [intros [= <- <-]; simpl; split;
     [right; apply sub_events_lor_r|apply sub_events_lor_l]|].
  destruct (strncasecmp_eq str "mbl:" 4);
    [intros [= <- <-]; simpl; split;
     [right; apply sub_events_lor_r|apply sub_events_lor_l]|].
  destruct (_ || _); [|discriminate].
  intros [= <- <-]. split; [now left|apply sub_events_refl].
Qed.

Lemma find_cgrp_covered :
  forall m tab cg evt tab',
    Forall (fun g => covered m (events g)) tab -> covered m evt ->
    find_cgrp tab cg evt = Ok (Some tab') ->
    Forall (fun g => covered m (events g)) tab'.
Proof.
  intros m tab; induction tab as [|a t IH]; intros cg evt tab' Hall Hevt;
    simpl; [discriminate|].
  inversion Hall as [|? ? Ha Ht]; subst.
  destruct (cmp_cgrps a cg <? 0); [discriminate|].
  destruct (negb (cmp_cgrps a cg =? 0)).
  - intros [= <-]. constructor; [|assumption]. simpl. now apply covered_lor.
  - destruct (find_cgrp t cg evt) as [[r|]|] eqn:E; simpl; try discriminate.
    intros [= <-]. constructor; [assumption|]. now apply (IH cg evt).
Qed.

Lemma register_cgrps_covered :
  forall evt cgrp_tab st st',
    all_covered st -> covered (sel_events_max st) evt ->
    register_cgrps evt cgrp_tab st = Ok st' -> all_covered st'.
Proof.
  intros evt cgrp_tab; induction cgrp_tab as [|cg t IH]; intros st st' Hall Hevt;
    simpl.
  - now intros [= <-].
  - destruct (register_cgrp evt cg st) as [st1|] eqn:E; cbn [bind];
      [|discriminate].
    assert (H1 : all_covered st1 /\ sel_events_max st1 = sel_events_max st).
    { revert E. unfold register_cgrp, all_covered in *.
      destruct (find_cgrp (sel_monitor_core_tab st) cg evt) as [[tab'|]|] eqn:F;
        cbn [bind]; try discriminate; intros [= <-]; simpl;
        (split; [|reflexivity]).
      - now apply (find_cgrp_covered _ (sel_monitor_core_tab st) cg evt).
      - apply Forall_app. split; [assumption|]. now constructor. }
    destruct H1 as [H1 H2]. apply IH; [assumption|]. now rewrite H2.
Qed.

Lemma parse_monitor_event_covered :
  forall str st st',
    all_covered st -> parse_monitor_event_ str st = Ok st' -> all_covered st'.
Proof.
  intros str st st' Hall. unfold parse_monitor_event.
  destruct (parse_event_ str st) as [[evt st1]|] eqn:E; cbn [bind];
    [|discriminate].
  destruct (strtocgrps _ _ _) as [[cgrp_tab|]|]; cbn [bind]; try discriminate.
  pose proof (parse_event_tables _ _ _ _ E) as [E1 _].
  apply parse_event_covered in E. destruct E as [Hevt Hsub].
  apply register_cgrps_covered; [|assumption].
  unfold all_covered in *. rewrite E1.
  eapply Forall_impl; [|exact Hall].
  intros g. apply covered_mono. exact Hsub.
Qed.

Lemma selfn_monitor_cores_covered :
  forall arg st st',
    sel_monitor_core_tab st = [] ->
    selfn_monitor_cores_ arg st = Ok st' -> all_covered st'.
Proof.
  intros [a|] st st' Hempty; simpl; [|discriminate].
  destruct (Nat.leb (String.length a) 0); [discriminate|].
  assert (G : forall tokens s s',
             all_covered s ->
             for_each_token parse_monitor_event_ tokens s = Ok s' ->
             all_covered s').
  { induction tokens as [|tok t IH]; intros s s' Hs; simpl.
    - now intros [= <-].
    - destruct (parse_monitor_event_ tok s) as [s1|] eqn:E; cbn [bind];
        [|discriminate].
      apply IH. eapply parse_monitor_event_covered; eassumption. }
  apply G. unfold all_covered. simpl. rewrite Hempty. constructor.
Qed.

Lemma start_cores_covered :
  forall todo i done emax a started tab' emax' started',
    start_cores pqos_mon_start i todo done emax a started
    = (tab', emax', started', true) ->
    Forall (fun g => covered emax (events g)) todo ->
    Forall (fun g => sub_events (events g) emax) done ->
    Forall (fun g => sub_events (events g) emax') tab'.
Proof.
  induction todo as [|cg t IH];
    intros i done emax a started tab' emax' started'; simpl.
  - intros [= <- <- _] _ Hdone. exact Hdone.
  - intros H Htodo Hdone. inversion Htodo as [|? ? Hcg Ht]; subst.
    destruct (pqos_mon_start i _ _ _) as [md|]; [|discriminate].
    destruct (Z.eqb_spec (events cg) PQOS_MON_EVENT_ALL) as [E|E].
    + apply (IH _ _ _ _ _ _ _ _ H).
      * eapply Forall_impl; [|exact Ht].
        intros g. apply covered_mono. apply sub_events_lor_l.
      * apply Forall_app. split.
        -- eapply Forall_impl; [|exact Hdone]. intros g Hg.
           eapply sub_events_trans; [exact Hg|apply sub_events_lor_l].
        -- constructor; [|constructor]. simpl. apply sub_events_lor_r.
    + apply (IH _ _ _ _ _ _ _ _ H); [assumption|].
      apply Forall_app. split; [assumption|].
      constructor; [|constructor]. destruct Hcg as [Hcg|Hcg]; [contradiction|].
      exact Hcg.
Qed.

Lemma default_cores_covered :
  forall cpu_lcores st,
    Forall (fun g => sub_events (events g) (sel_events_max st))
      (sel_monitor_core_tab st) ->
    Forall (fun g => sub_events (events g)
                       (sel_events_max (fold_left add_default_core cpu_lcores st)))
      (sel_monitor_core_tab (fold_left add_default_core cpu_lcores st))
    /\ sel_monitor_pid_tab (fold_left add_default_core cpu_lcores st)
       = sel_monitor_pid_tab st.
Proof.
  induction cpu_lcores as [|c t IH]; intros st H; simpl.
  - split; [exact H|reflexivity].
  - destruct (IH (add_default_core st c)) as [H1 H2].
    + unfold add_default_core. simpl. apply Forall_app. split; [exact H|].
      constructor; [|constructor]. simpl. apply sub_events_refl.
    + split; [exact H1|]. rewrite H2. reflexivity.
Qed.

Lemma sub_events_has_event :
  forall ev emax e,
    sub_events ev emax -> has_event ev e = true -> has_event emax e = true.
Proof.
  unfold sub_events, has_event. intros ev emax e Hsub Hev.
  destruct (Z.eqb_spec (Z.land emax e) 0) as [E|E]; [|reflexivity].
  rewrite <- Hsub, Z.land_lor_distr_l in E.
  apply Z.lor_eq_0_iff in E. destruct E as [E _].
  rewrite E in Hev. discriminate.
Qed.

(** X14.  One [-m] option on an empty registry, then [monitor_setup] with every
    group started: the events of every group are in the display mask, so
    every column a row function fills is a column of the header. *)
Theorem one_option_masks_displayed :
  forall (arg : option string) (st0 st : mon_state)
         (cpu_lcores : list Z) (mon_events : list pqos_monitor)
         (fe : file_env) (cfg : mon_config) (m : monitor),
    sel_monitor_core_tab st0 = [] -> sel_monitor_pid_tab st0 = [] ->
    selfn_monitor_cores_ arg st0 = Ok st ->
    monitor_setup_ cpu_lcores mon_events fe cfg st = (0, m) ->
    Forall (fun g =>
              sub_events (events g) (sel_events_max (mon_st m))
              /\ events_displayed PQOS_MON_EVENT_L3_OCCUP
                   PQOS_MON_EVENT_LMEM_BW PQOS_MON_EVENT_RMEM_BW
                   (events g) (sel_events_max (mon_st m)))
      (sel_monitor_core_tab (mon_st m)).
Proof.
  intros arg st0 st cpu_lcores mon_events fe cfg m Hc0 Hp0 Hsel Hsetup.
  assert (Hcov : all_covered st)
    by (eapply selfn_monitor_cores_covered; eassumption).
  assert (Hpid : sel_monitor_pid_tab st = []).
  { rewrite (selfn_monitor_cores_pid_tab _ _ _ Hsel). exact Hp0. }
  assert (G : Forall (fun g => sub_events (events g) (sel_events_max (mon_st m)))
                (sel_monitor_core_tab (mon_st m))).
  { revert Hsetup. unfold monitor_setup.
    destruct (negb _ && negb _ && negb _); [discriminate|].
    destruct (setup_output _ _ fe) as [[fp out] [|]]; [|discriminate].
    destruct (all_events mon_events) as [all_core_evts all_pid_evts].
    set (st1 := if Nat.eqb (sel_monitor_num st) 0 && Nat.eqb (sel_process_num st) 0
                then fold_left add_default_core cpu_lcores
                       (set_sel_events_max st all_core_evts)
                else st).
    assert (H1 : all_covered st1 /\ sel_monitor_pid_tab st1 = []).
    { unfold st1.
      destruct (Nat.eqb (sel_monitor_num st) 0 && Nat.eqb (sel_process_num st) 0)
        eqn:Edef; [|now split].
      apply andb_prop in Edef. destruct Edef as [Edef _].
      apply Nat.eqb_eq in Edef. unfold sel_monitor_num in Edef.
      apply length_zero_iff_nil in Edef.
      destruct (default_cores_covered cpu_lcores
                  (set_sel_events_max st all_core_evts)) as [D1 D2].
      - simpl. rewrite Edef. constructor.
      - split; [|now rewrite D2].
        unfold all_covered. eapply Forall_impl; [|exact D1].
        intros g Hg. now right. }
    destruct H1 as [Hcov1 Hpid1].
    unfold process_mode, sel_process_num. rewrite Hpid1. simpl.
    destruct (start_cores pqos_mon_start 0 (sel_monitor_core_tab st1) []
                (sel_events_max st1) all_core_evts [])
      as [[[tab emax] started] ok] eqn:Es.
    destruct ok; [|discriminate].
    intros [= <-]. simpl.
    apply (start_cores_covered _ _ _ _ _ _ _ _ _ Es); [exact Hcov1|constructor]. }
  eapply Forall_impl; [|exact G].
  intros g Hg. split; [exact Hg|].
  repeat split; apply sub_events_has_event; exact Hg.
Qed.

(** ** The event prefix of a token *)

Fixpoint lower (s : string) : string :=
  match s with
  | EmptyString => EmptyString
  | String c t => String (tolower c) (lower t)
  end.

Lemma tolower_idem : forall c, tolower (tolower c) = tolower c.
Proof. intros [[] [] [] [] [] [] [] []]; reflexivity. Qed.

Lemma tolower_colon : forall c, tolower c = ":"%char -> c = ":"%char.
Proof.
  intros [[] [] [] [] [] [] [] []]; intros H; try reflexivity;
    vm_compute in H; discriminate.
Qed.

Lemma strncasecmp_eq_lower :
  forall n s1 s2,
    strncasecmp_eq (lower s1) s2 n = strncasecmp_eq s1 s2 n.
Proof.
  induction n as [|n IH]; intros s1 s2; [now destruct s1|].
  destruct s1 as [|c1 t1]; destruct s2 as [|c2 t2]; try reflexivity.
  cbn [lower strncasecmp_eq]. now rewrite tolower_idem, IH.
Qed.

(** X5.  The event prefix is read without regard to the case of letters: two
    tokens that differ in case only give the same event, the same display
    mask and the same error. *)
Theorem parse_event_ignores_case :
  forall (str str' : string) (st : mon_state),
    lower str = lower str' -> parse_event_ str st = parse_event_ str' st.
Proof.
  intros str str' st H. unfold parse_event.
  rewrite <- !(strncasecmp_eq_lower _ str), H, !strncasecmp_eq_lower.
  reflexivity.
Qed.

Lemma prefix4_colon :
  forall str a b c,
    tolower a <> ":"%char -> tolower b <> ":"%char -> tolower c <> ":"%char ->
    strncasecmp_eq str (String a (String b (String c ":"))) 4 = true ->
    exists pre targets,
      str = (pre ++ String ":" targets)%string
      /\ String.length pre = 3%nat
      /\ strchr_next ":" str = Some targets.
Proof.
  intros str a b c Ha Hb Hc.
  destruct str as [|c1 [|c2 [|c3 [|c4 rest]]]];
    cbn [strncasecmp_eq]; try discriminate;
    try (rewrite ?andb_false_r; discriminate).
  intros H.
  apply andb_prop in H. destruct H as [H1 H].
  apply andb_prop in H. destruct H as [H2 H].
  apply andb_prop in H. destruct H as [H3 H].
  apply andb_prop in H. destruct H as [H4 _].
  apply Ascii.eqb_eq in H1, H2, H3, H4.
  apply tolower_colon in H4. subst c4.
  exists (String c1 (String c2 (String c3 EmptyString))), rest.
  split; [reflexivity|]. split; [reflexivity|].
  cbn [strchr_next].
  destruct (Ascii.eqb_spec c1 ":") as [E|_];
    [subst c1; exfalso; apply Ha; now rewrite <- H1|].
  destruct (Ascii.eqb_spec c2 ":") as [E|_];
    [subst c2; exfalso; apply Hb; now rewrite <- H2|].
  destruct (Ascii.eqb_spec c3 ":") as [E|_];
    [subst c3; exfalso; apply Hc; now rewrite <- H3|].
  now rewrite Ascii.eqb_refl.
Qed.

(** X6.  A token that [parse_event] accepts holds a colon, so that
    [strchr(str, ':') + 1] in the callers is a pointer into the token: it
    points to what follows the three letters and the colon of the prefix, or
    to what follows the leading colon. *)
Theorem parse_event_leaves_targets :
  forall (str : string) (st : mon_state) (evt : Z) (st' : mon_state),
    parse_event_ str st = Ok (evt, st') ->
    exists pre targets,
      str = (pre ++ String ":" targets)%string
      /\ (String.length pre = 3%nat \/ pre = EmptyString)
      /\ strchr_next ":" str = Some targets.
Proof.
  intros str st evt st'. unfold parse_event.
  assert (G : forall a b c,
             tolower a <> ":"%char -> tolower b <> ":"%char ->
             tolower c <> ":"%char ->
             strncasecmp_eq str (String a (String b (String c ":"))) 4 = true ->
             exists pre targets,
               str = (pre ++ String ":" targets)%string
               /\ (String.length pre = 3%nat \/ pre = EmptyString)
               /\ strchr_next ":" str = Some targets).
  { intros a b c Ha Hb Hc H.
    destruct (prefix4_colon str a b c Ha Hb Hc H) as [pre [t [E1 [E2 E3]]]].
    exists pre, t. split; [exact E1|]. split; [now left|exact E3]. }
  destruct (strncasecmp_eq str "llc:" 4) eqn:E1;
    [intros _; apply (G "l" "l" "c")%char; try discriminate; exact E1|].
  destruct (strncasecmp_eq str "mbr:" 4) eqn:E2;
    [intros _; apply (G "m" "b" "r")%char; try discriminate; exact E2|].
  destruct (strncasecmp_eq str "mbl:" 4) eqn:E3;
    [intros _; apply (G "m" "b" "l")%char; try discriminate; exact E3|].
  destruct (strncasecmp_eq str "all:" 4) eqn:E4;
    [intros _; apply (G "a" "l" "l")%char; try discriminate; exact E4|].
  destruct (strncasecmp_eq str ":" 1) eqn:E5; [|discriminate].
  intros _. destruct str as [|c1 rest]; [discriminate|].
  cbn [strncasecmp_eq] in E5. apply andb_prop in E5. destruct E5 as [E5 _].
  apply Ascii.eqb_eq in E5. apply tolower_colon in E5. subst c1.
  exists EmptyString, rest. split; [reflexivity|]. split; [now right|].
  cbn [strchr_next]. now rewrite Ascii.eqb_refl.
Qed.

(** ** monitor_setup *)

Lemma start_cores_shape :
  forall todo i done emax a started tab' emax' started' ok,
    start_cores pqos_mon_start i todo done emax a started
    = (tab', emax', started', ok) ->
    length tab' = (length done + length todo)%nat
    /\ (ok = true -> length started' = (length started + length todo)%nat)
    /\ (ok = false -> (length started' < length started + length todo)%nat).
Proof.
  induction todo as [|cg t IH];
    intros i done emax a started tab' emax' started' ok; simpl.
  - intros [= <- _ <- <-]. rewrite !Nat.add_0_r.
    split; [reflexivity|]. split; [reflexivity|discriminate].
  - destruct (pqos_mon_start i _ _ _) as [md|].
    + intros H. apply IH in H. rewrite !length_app in H. simpl in H.
      destruct H as [H1 [H2 H3]]. split; [lia|].
      split; intros Hok; [specialize (H2 Hok)|specialize (H3 Hok)]; lia.
    + intros [= <- _ <- <-]. rewrite length_app. simpl.
      split; [reflexivity|]. split; [discriminate|]. intros _. lia.
Qed.

Lemma start_pids_shape :
  forall todo i done emax a started tab' emax' started' ok,
    start_pids pqos_mon_start_pid i todo done emax a started
    = (tab', emax', started', ok) ->
    length tab' = (length done + length todo)%nat
    /\ (ok = true -> length started' = (length started + length todo)%nat)
    /\ (ok = false -> (length started' < length started + length todo)%nat).
Proof.
  induction todo as [|e t IH];
    intros i done emax a started tab' emax' started' ok; simpl.
  - intros [= <- _ <- <-]. rewrite !Nat.add_0_r.
    split; [reflexivity|]. split; [reflexivity|discriminate].
  - destruct (pqos_mon_start_pid i _ _) as [md|].
    + intros H. apply IH in H. rewrite !length_app in H. simpl in H.
      destruct H as [H1 [H2 H3]]. split; [lia|].
      split; intros Hok; [specialize (H2 Hok)|specialize (H3 Hok)]; lia.
    + intros [= <- _ <- <-]. rewrite length_app. simpl.
      split; [reflexivity|]. split; [discriminate|]. intros _. lia.
Qed.

Lemma default_cores_pids :
  forall cpu_lcores st,
    sel_monitor_pid_tab (fold_left add_default_core cpu_lcores st)
    = sel_monitor_pid_tab st.
Proof.
  induction cpu_lcores as [|c t IH]; intros st; simpl; [reflexivity|].
  now rewrite IH.
Qed.

(** The number of groups that [monitor_loop] polls first. *)
Definition mon_number_of (st : mon_state) : nat :=
  if negb (process_mode st) then sel_monitor_num st else sel_process_num st.

(** X10.  When [monitor_setup] returns 0, the registry holds core groups or
    process ids but not both and as many groups have been started as
    [monitor_loop] polls first; the output stream is set and the output type
    is one of the three that [monitor_loop] accepts. *)
Theorem monitor_setup_starts_every_entry :
  forall (cpu_lcores : list Z) (mon_events : list pqos_monitor)
         (fe : file_env) (cfg : mon_config) (st : mon_state) (m : monitor),
    monitor_setup_ cpu_lcores mon_events fe cfg st = (0, m) ->
    (sel_monitor_num (mon_st m) = 0%nat \/ sel_process_num (mon_st m) = 0%nat)
    /\ length (mon_grps m) = mon_number_of (mon_st m)
    /\ fp_monitor m <> None
    /\ exists type,
         sel_output_type (mon_cfg m) = Some type
         /\ (strcasecmp_eq type "text" || strcasecmp_eq type "xml"
             || strcasecmp_eq type "csv") = true.
Proof.
  intros cpu_lcores mon_events fe cfg st m. unfold monitor_setup.
  set (type := match sel_output_type cfg with
               | Some t => t
               | None => "text"%string
               end).
  destruct (strcasecmp_eq type "text") eqn:T1;
    destruct (strcasecmp_eq type "xml") eqn:T2;
    destruct (strcasecmp_eq type "csv") eqn:T3;
    cbn [negb andb]; try discriminate;
    (assert (Hfp : forall fp out,
                setup_output
                  (mk_mon_config (sel_output_file cfg) (Some type)
                     (sel_mon_interval cfg) (sel_mon_top_like cfg)
                     (sel_timeout cfg)) type fe = (fp, out, true) ->
                fp <> None)
      by (unfold setup_output; cbn [sel_output_file];
          intros fp out;
          destruct (sel_output_file cfg);
          [destruct (negb (fopen_ok fe)); [discriminate|];
           destruct (strcasecmp_eq type "xml");
           [destruct (negb (fseek_ok fe)); [discriminate|];
            destruct (ftell_pos fe =? 0)|];
           intros [= <- _]; discriminate
          |intros [= <- _]; discriminate]));
    (destruct (setup_output _ type fe) as [[fp out] [|]] eqn:Eo;
     [|discriminate]);
    specialize (Hfp fp out eq_refl);
    (destruct (all_events mon_events) as [all_core_evts all_pid_evts]);
    (set (st1 := if Nat.eqb (sel_monitor_num st) 0
                    && Nat.eqb (sel_process_num st) 0
                 then fold_left add_default_core cpu_lcores
                        (set_sel_events_max st all_core_evts)
                 else st));
    (destruct (Nat.ltb 0 (sel_process_num st1) && Nat.ltb 0 (sel_monitor_num st1))
       eqn:Emix; [discriminate|]);
    (assert (Hone : sel_monitor_num st1 = 0%nat \/ sel_process_num st1 = 0%nat)
      by (apply andb_false_iff in Emix; destruct Emix as [E|E];
          apply Nat.ltb_ge in E; [right|left]; lia));
    (destruct (negb (process_mode st1)) eqn:Epm;
     [destruct (start_cores pqos_mon_start 0 (sel_monitor_core_tab st1) []
                  (sel_events_max st1) all_core_evts [])
        as [[[tab emax] started] ok] eqn:Es;
      destruct ok; [|discriminate];
      destruct (start_cores_shape _ _ _ _ _ _ _ _ _ _ Es) as [S1 [S2 _]];
      specialize (S2 eq_refl); simpl in S1, S2
     |destruct (start_pids pqos_mon_start_pid 0 (sel_monitor_pid_tab st1) []
                  (sel_events_max st1) all_pid_evts [])
        as [[[tab emax] started] ok] eqn:Es;
      destruct ok; [|discriminate];
      destruct (start_pids_shape _ _ _ _ _ _ _ _ _ _ Es) as [S1 [S2 _]];
      specialize (S2 eq_refl); simpl in S1, S2]);
    intros [= <-];
    unfold mon_number_of, process_mode, sel_monitor_num, sel_process_num in *;
    cbn [mon_st mon_grps fp_monitor mon_cfg sel_output_type
         sel_monitor_core_tab sel_monitor_pid_tab] in *;
    (split; [rewrite ?S1; exact Hone|]);
    (split; [rewrite ?S1; rewrite Epm; exact S2|]);
    (split; [exact Hfp|]);
    exists type; (split; [reflexivity|]);
    rewrite T1, T2, T3; reflexivity.
Qed.

(** X11.  With core groups and process ids both registered [monitor_setup]
    returns -1: it starts no group and leaves the registry as it found it.
    With the default output type and a named output file that opens, the
    file has been opened by then. *)
Theorem monitor_setup_rejects_mixed :
  forall (cpu_lcores : list Z) (mon_events : list pqos_monitor)
         (fe : file_env) (cfg : mon_config) (st : mon_state),
    (0 < sel_monitor_num st)%nat -> (0 < sel_process_num st)%nat ->
    let r := monitor_setup_ cpu_lcores mon_events fe cfg st in
    fst r = -1 /\ mon_grps (snd r) = [] /\ mon_st (snd r) = st
    /\ (sel_output_type cfg = None -> sel_output_file cfg <> None ->
        fopen_ok fe = true ->
        exists name, fp_monitor (snd r) = Some (File name)).
Proof.
  intros cpu_lcores mon_events fe cfg st Hc Hp. unfold monitor_setup.
  assert (E0 : Nat.eqb (sel_monitor_num st) 0 = false)
    by (apply Nat.eqb_neq; lia).
  assert (E1 : Nat.ltb 0 (sel_process_num st) = true)
    by (apply Nat.ltb_lt; exact Hp).
  assert (E2 : Nat.ltb 0 (sel_monitor_num st) = true)
    by (apply Nat.ltb_lt; exact Hc).
  cbv zeta.
  destruct (negb _ && negb _ && negb _) eqn:Et.
  - simpl. split; [reflexivity|]. split; [reflexivity|].
    split; [reflexivity|]. intros Hn. rewrite Hn in Et. discriminate.
  - assert (G : forall fp out b,
               setup_output
                 (mk_mon_config (sel_output_file cfg)
                    (Some match sel_output_type cfg with
                          | Some t => t
                          | None => "text"%string
                          end)
                    (sel_mon_interval cfg) (sel_mon_top_like cfg)
                    (sel_timeout cfg))
                 match sel_output_type cfg with
                 | Some t => t
                 | None => "text"%string
                 end fe = (fp, out, b) ->
               sel_output_type cfg = None -> sel_output_file cfg <> None ->
               fopen_ok fe = true -> exists name, fp = Some (File name)).
    { intros fp out b. unfold setup_output. cbn [sel_output_file].
      intros H Hn Hf Ho. rewrite Hn, Ho in H.
      destruct (sel_output_file cfg) as [name|]; [|now elim Hf].
      cbn in H. injection H as <- _ _. now exists name. }
    destruct (setup_output _ _ fe) as [[fp out] b] eqn:Eo.
    specialize (G fp out b eq_refl).
    destruct b.
    + destruct (all_events mon_events) as [a b]. rewrite E0. cbn [andb].
      rewrite E1, E2. cbn [andb fst snd mon_grps mon_st fp_monitor].
      split; [reflexivity|]. split; [reflexivity|].
      split; [reflexivity|exact G].
    + cbn [fst snd mon_grps mon_st fp_monitor].
      split; [reflexivity|]. split; [reflexivity|].
      split; [reflexivity|exact G].
Qed.

(** The default selection: the groups that the loop over [cpu_info] builds
    from block [p] on. *)
Fixpoint default_groups (p : nat) (evts : Z) (cpu_lcores : list Z)
  : list core_group :=
  match cpu_lcores with
  | [] => []
  | lcore :: t =>
      mk_core_group (uinttostr lcore) [to_unsigned lcore] p evts
      :: default_groups (S p) evts t
  end.

Lemma default_cores_groups :
  forall cpu_lcores st,
    let st' := fold_left add_default_core cpu_lcores st in
    sel_monitor_core_tab st'
    = sel_monitor_core_tab st
      ++ default_groups (n_alloc st) (sel_events_max st) cpu_lcores
    /\ sel_events_max st' = sel_events_max st
    /\ n_alloc st' = (n_alloc st + length cpu_lcores)%nat.
Proof.
  induction cpu_lcores as [|c t IH]; intros st; simpl.
  - rewrite app_nil_r, Nat.add_0_r. repeat split.
  - destruct (IH (add_default_core st c)) as [H1 [H2 H3]].
    rewrite H1, H2, H3. simpl. rewrite <- app_assoc. simpl.
    split; [reflexivity|]. split; [reflexivity|]. lia.
Qed.

Lemma default_groups_events :
  forall cpu_lcores p evts,
    Forall (fun g => events g = evts) (default_groups p evts cpu_lcores).
Proof.
  induction cpu_lcores as [|c t IH]; intros p evts; simpl; constructor;
    [reflexivity|apply IH].
Qed.

Lemma start_cores_same_events :
  forall todo i done a started tab' emax' started' ok,
    Forall (fun g => events g = a) todo ->
    start_cores pqos_mon_start i todo done a a started
    = (tab', emax', started', ok) ->
    tab' = done ++ todo /\ emax' = a.
Proof.
  induction todo as [|cg t IH];
    intros i done a started tab' emax' started' ok Hall; simpl.
  - intros [= <- <- _ _]. now rewrite app_nil_r.
  - inversion Hall as [|g l Hg Ht]; subst g l.
    assert (Ecg : (if events cg =? PQOS_MON_EVENT_ALL
                   then mk_core_group (desc cg) (cores cg) (pgrp cg) a
                   else cg) = cg)
      by (destruct (events cg =? PQOS_MON_EVENT_ALL); [|reflexivity];
          destruct cg; simpl in Hg; now subst).
    assert (Ea : (if events cg =? PQOS_MON_EVENT_ALL then Z.lor a a else a) = a)
      by (destruct (events cg =? PQOS_MON_EVENT_ALL);
          [apply Z.lor_diag|reflexivity]).
    rewrite Ecg, Ea.
    destruct (pqos_mon_start i _ _ _) as [md|].
    + intros H. apply IH in H; [|exact Ht].
      rewrite <- app_assoc in H. exact H.
    + intros [= <- <- _ _]. split; reflexivity.
Qed.

(** X12.  With nothing registered, a [monitor_setup] that returns 0 has registered
    every core of [cpu_info] as a group of its own, in the order of
    [cpu_info], named by its number and with every event of the platform;
    these events are the display mask, and as many groups were started as
    there are cores. *)
Theorem monitor_setup_default_selection :
  forall (cpu_lcores : list Z) (mon_events : list pqos_monitor)
         (fe : file_env) (cfg : mon_config) (st : mon_state) (m : monitor),
    sel_monitor_num st = 0%nat -> sel_process_num st = 0%nat ->
    monitor_setup_ cpu_lcores mon_events fe cfg st = (0, m) ->
    sel_monitor_core_tab (mon_st m)
    = default_groups (n_alloc st) (fst (all_events mon_events)) cpu_lcores
    /\ sel_monitor_pid_tab (mon_st m) = []
    /\ sel_events_max (mon_st m) = fst (all_events mon_events)
    /\ length (mon_grps m) = length cpu_lcores.
Proof.
  intros cpu_lcores mon_events fe cfg st m Hc Hp. unfold monitor_setup.
  destruct (negb _ && negb _ && negb _); [discriminate|].
  destruct (setup_output _ _ fe) as [[fp out] [|]]; [|discriminate].
  destruct (all_events mon_events) as [a b]. rewrite Hc, Hp. cbn [Nat.eqb andb fst].
  destruct (default_cores_groups cpu_lcores (set_sel_events_max st a))
    as [D1 [D2 D3]].
  pose proof (default_cores_pids cpu_lcores (set_sel_events_max st a)) as D4.
  cbn [set_sel_events_max sel_monitor_core_tab sel_monitor_pid_tab
       sel_events_max n_alloc] in D1, D2, D3, D4.
  unfold sel_monitor_num in Hc. apply length_zero_iff_nil in Hc.
  unfold sel_process_num in Hp. apply length_zero_iff_nil in Hp.
  rewrite Hc in D1. rewrite Hp in D4. cbn [app] in D1.
  set (st1 := fold_left add_default_core cpu_lcores (set_sel_events_max st a))
    in *.
  unfold process_mode, sel_process_num, sel_monitor_num.
  rewrite D4. cbn [length Nat.ltb Nat.leb andb negb].
  rewrite D1, D2.
  destruct (start_cores pqos_mon_start 0 _ [] a a [])
    as [[[tab emax] started] ok] eqn:Es.
  destruct ok; [|discriminate].
  destruct (start_cores_same_events _ _ _ _ _ _ _ _ _
              (default_groups_events cpu_lcores (n_alloc st) a) Es)
    as [S1 S2].
  destruct (start_cores_shape _ _ _ _ _ _ _ _ _ _ Es) as [_ [S3 _]].
  specialize (S3 eq_refl). cbn [length Nat.add] in S3.
  intros [= <-]. cbn [mon_st mon_grps sel_monitor_core_tab sel_monitor_pid_tab
                      sel_events_max].
  split; [exact S1|]. split; [reflexivity|]. split; [exact S2|].
  rewrite S3. clear. generalize (n_alloc st).
  induction cpu_lcores as [|c t IH]; intros p; simpl; [reflexivity|].
  now rewrite IH.
Qed.

End Platform.

(** * Further properties of the rows and of the loop *)

Lemma take_length :
  forall n s,
    (String.length (take n s) <= n)%nat
    /\ (String.length (take n s) <= String.length s)%nat.
Proof.
  induction n as [|n IH]; intros s.
  - destruct s; simpl; split; apply Nat.le_0_l.
  - destruct s as [|c t]; simpl; [split; apply Nat.le_0_l|].
    destruct (IH t) as [H1 H2]. split; apply le_n_S; assumption.
Qed.

Lemma strlen_app :
  forall a b, strlen (a ++ b) = strlen a + strlen b.
Proof.
  intros a b. unfold strlen. rewrite <- Nat2Z.inj_add. f_equal.
  induction a as [|c t IH]; simpl; [reflexivity|]. now rewrite IH.
Qed.

Lemma snprintf_fits :
  forall size s, 0 <= strlen (snprintf size s) <= Z.max 0 (size - 1).
Proof.
  intros size s. unfold strlen, snprintf.
  destruct (take_length (Z.to_nat (size - 1)) s) as [H _]. lia.
Qed.

Lemma polls_app :
  forall a b, polls (a ++ b) = polls a ++ polls b.
Proof.
  induction a as [|x t IH]; intros b; simpl; [reflexivity|].
  destruct x; simpl; rewrite IH; reflexivity.
Qed.

Lemma polls_writes :
  forall (A : Type) (f : A -> string) (l : list A),
    polls (map (fun x => A_write (f x)) l) = [].
Proof.
  intros A f l; induction l as [|x t IH]; simpl; [reflexivity|exact IH].
Qed.

Lemma clamp_lines_idem :
  forall max_lines n,
    clamp_lines max_lines (clamp_lines max_lines n) = clamp_lines max_lines n.
Proof.
  intros ml n. unfold clamp_lines.
  destruct ((0 <? ml) && (to_unsigned (n + TERM_MIN_NUM_LINES - 1) >? ml))
    eqn:E.
  - match goal with |- (if ?b then _ else _) = _ => destruct b end;
      reflexivity.
  - rewrite E. reflexivity.
Qed.

(** The sizes of the polls of one run: the first poll covers [n] groups and
    every later one as many as the limit on the rows leaves. *)
Definition poll_sizes (max_lines n : Z) (ps : list Z) : Prop :=
  match ps with
  | [] => True
  | p :: t => p = n /\ Forall (fun q => q = clamp_lines max_lines n) t
  end.

(** An iteration that nothing cuts short: the stop flag stays clear and the
    poll succeeds. *)
Definition undisturbed (e : tick_env) : Prop :=
  te_stop_top e = false /\ te_poll e <> None
  /\ te_stop_rows e = false /\ te_stop_sleep e = false.

Section Rendering.

Variable PQOS_MON_EVENT_L3_OCCUP : Z.
Variable PQOS_MON_EVENT_LMEM_BW : Z.
Variable PQOS_MON_EVENT_RMEM_BW : Z.
Variable double : Type.
Variable D_of_Z : Z -> double.
Variable Dmul : double -> double -> double.
Variable fmt_f1 : nat -> double -> string.

Local Abbreviation fillin_row_ :=
  (fillin_row PQOS_MON_EVENT_L3_OCCUP PQOS_MON_EVENT_LMEM_BW
     PQOS_MON_EVENT_RMEM_BW double).
Local Abbreviation fillin_text_row_ :=
  (fillin_text_row PQOS_MON_EVENT_L3_OCCUP PQOS_MON_EVENT_LMEM_BW
     PQOS_MON_EVENT_RMEM_BW double fmt_f1).
Local Abbreviation fillin_xml_row_ :=
  (fillin_xml_row PQOS_MON_EVENT_L3_OCCUP PQOS_MON_EVENT_LMEM_BW
     PQOS_MON_EVENT_RMEM_BW double fmt_f1).
Local Abbreviation fillin_csv_row_ :=
  (fillin_csv_row PQOS_MON_EVENT_L3_OCCUP PQOS_MON_EVENT_LMEM_BW
     PQOS_MON_EVENT_RMEM_BW double fmt_f1).
Local Abbreviation tick_ :=
  (tick PQOS_MON_EVENT_L3_OCCUP PQOS_MON_EVENT_LMEM_BW
     PQOS_MON_EVENT_RMEM_BW double D_of_Z Dmul fmt_f1).
Local Abbreviation run_ticks_ :=
  (run_ticks PQOS_MON_EVENT_L3_OCCUP PQOS_MON_EVENT_LMEM_BW
     PQOS_MON_EVENT_RMEM_BW double D_of_Z Dmul fmt_f1).

(** ** The row buffer *)

Lemma fillin_text_column_fits :
  forall v sz m p,
    2 <= sz -> 0 <= strlen (fillin_text_column double fmt_f1 v sz m p) <= sz - 2.
Proof.
  intros v sz m p Hsz. unfold fillin_text_column, sizeof_blank_column.
  destruct (Z.leb_spec sz 12) as [H|H]; [cbn; lia|].
  destruct (negb (m =? 0)).
  - pose proof (snprintf_fits (sz - 1) (fmt_f1 11%nat v)). lia.
  - destruct (negb (p =? 0)); [|cbn; lia].
    destruct (take_length (Z.to_nat (sz - 1)) blank_column) as [_ H2].
    unfold strlen. change (String.length blank_column) with 11%nat in H2. lia.
Qed.

Lemma fillin_xml_column_fits :
  forall v sz m p name,
    2 <= sz ->
    0 <= strlen (fillin_xml_column double fmt_f1 v sz m p name) <= sz - 2.
Proof.
  intros v sz m p name Hsz. unfold fillin_xml_column.
  destruct (negb (m =? 0)).
  - match goal with |- context [snprintf ?a ?b] =>
      pose proof (snprintf_fits a b) end. lia.
  - destruct (negb (p =? 0)); [|cbn; lia].
    match goal with |- context [snprintf ?a ?b] =>
      pose proof (snprintf_fits a b) end. lia.
Qed.

Lemma fillin_csv_column_fits :
  forall v sz m p,
    2 <= sz -> 0 <= strlen (fillin_csv_column double fmt_f1 v sz m p) <= sz - 2.
Proof.
  intros v sz m p Hsz. unfold fillin_csv_column.
  destruct (negb (m =? 0)).
  - match goal with |- context [snprintf ?a ?b] =>
      pose proof (snprintf_fits a b) end. lia.
  - destruct (negb (p =? 0)); [|cbn; lia].
    match goal with |- context [snprintf ?a ?b] =>
      pose proof (snprintf_fits a b) end. lia.
Qed.

Lemma fillin_row_fits :
  forall (column : double -> Z -> Z -> Z -> string -> string)
         (names : string * string * string),
    (forall v sz m p name,
        2 <= sz -> 0 <= strlen (column v sz m p name) <= sz - 2) ->
    forall sz ev emax v1 v2 v3,
      2 <= sz ->
      strlen (fillin_row_ column names sz ev emax v1 v2 v3) <= sz - 2.
Proof.
  intros column [[n1 n2] n3] Hcol sz ev emax v1 v2 v3 Hsz.
  unfold fillin_row. cbv zeta.
  set (c1 := column v1 sz _ _ n1).
  assert (H1 : 0 <= strlen c1 <= sz - 2) by (apply Hcol; exact Hsz).
  set (c2 := column v3 (sz - strlen c1) _ _ n2).
  assert (H2 : 0 <= strlen c2 <= sz - strlen c1 - 2) by (apply Hcol; lia).
  set (c3 := column v2 (sz - (strlen c1 + strlen c2)) _ _ n3).
  assert (H3 : 0 <= strlen c3 <= sz - (strlen c1 + strlen c2) - 2)
    by (apply Hcol; lia).
  rewrite !strlen_app. lia.
Qed.

(** X15.  A row never outgrows its buffer: in a buffer of [sz_data] bytes, two or
    more, each of the three row functions puts at most [sz_data - 2]
    characters, whatever the values and however long their printed form is.
    The columns that do not fit are cut or left out. *)
Theorem rows_fit_buffer :
  forall (sz_data mon_event emax : Z) (llc_v mbr_v mbl_v : double),
    2 <= sz_data ->
    strlen (fillin_text_row_ sz_data mon_event emax llc_v mbr_v mbl_v)
    <= sz_data - 2
    /\ strlen (fillin_xml_row_ sz_data mon_event emax llc_v mbr_v mbl_v)
       <= sz_data - 2
    /\ strlen (fillin_csv_row_ sz_data mon_event emax llc_v mbr_v mbl_v)
       <= sz_data - 2.
Proof.
  intros sz ev emax v1 v2 v3 Hsz.
  unfold fillin_text_row, fillin_xml_row, fillin_csv_row.
  split; [|split]; apply fillin_row_fits; try exact Hsz; intros.
  - now apply fillin_text_column_fits.
  - now apply fillin_xml_column_fits.
  - now apply fillin_csv_column_fits.
Qed.

(** ** The polls of a run *)

Lemma pace_polls :
  forall (c : loop_ctx double) e n grps, polls (fst (pace double c e n grps)) = [].
Proof.
  intros c e n grps. unfold pace.
  destruct (_ <? lc_interval double c); [destruct (te_sleep e)|];
    try destruct (te_stop_sleep e);
    try destruct ((0 <=? lc_sel_time double c) && _); reflexivity.
Qed.

Lemma tick_polls :
  forall (c : loop_ctx double) e n grps,
    polls (fst (tick_ c e n grps)) = [n].
Proof.
  intros c e n grps. unfold tick.
  destruct (te_poll e) as [vs|]; [|reflexivity].
  cbv zeta.
  assert (H : forall rows foot tail,
             polls foot = [] -> polls tail = [] ->
             polls (([A_poll n]
                     ++ (if lc_istty double c then [A_write (esc ++ "[2J")] else [])
                     ++ match te_localtime e with
                        | Some t =>
                            (if lc_istty double c
                             then [A_write (esc ++ "[0;0H")] else [])
                            ++ (if lc_istext double c
                                then [A_write ("TIME " ++ t ++ nl)] else [])
                        | None => []
                        end
                     ++ (if lc_istext double c
                         then [A_write (lc_header double c)] else [])
                     ++ map (fun md => A_write (rows md)) (rendered
                          (lc_top_mode double c) (lc_pmode double c)
                          (lc_max_lines double c) n (poll_update (Z.to_nat n) grps vs))
                     ++ [A_flush] ++ foot) ++ tail) = [n]).
  { intros rows foot tail Hf Ht. rewrite !polls_app, polls_writes, Hf, Ht.
    destruct (lc_istty double c); destruct (te_localtime e);
      destruct (lc_istext double c); reflexivity. }
  destruct (te_stop_rows e).
  - cbn [fst]. rewrite <- (app_nil_r (_ ++ _)). apply H; [|reflexivity].
    destruct (lc_istty double c); reflexivity.
  - pose proof (pace_polls c e (clamp_lines (lc_max_lines double c) n)
                  (poll_update (Z.to_nat n) grps vs)) as Hp.
    destruct (pace double c e _ _) as [acts' o]. cbn [fst] in *.
    apply H; [|exact Hp]. destruct (lc_istty double c); reflexivity.
Qed.

(** X19.  Whatever happens in a run of the loop, its first poll covers the
    [mon_number] groups it was entered with and every later poll covers as
    many groups as the limit on the rows leaves of them: the limit that is
    meant for the rows also decides how many groups are polled from the
    second iteration on. *)
Theorem polls_after_first_are_clamped :
  forall (c : loop_ctx double) (envs : list tick_env) (mon_number : Z)
         (grps : list pqos_mon_data),
    poll_sizes (lc_max_lines double c) mon_number
      (polls (fst (run_ticks_ c envs mon_number grps))).
Proof.
  intros c envs n grps. revert n grps.
  induction envs as [|e rest IH]; intros n grps; simpl; [exact I|].
  destruct (te_stop_top e); [exact I|].
  pose proof (tick_polls c e n grps) as Hp.
  destruct (tick_ c e n grps) as [acts o] eqn:Et. cbn [fst] in Hp.
  destruct o as [n' grps'| |]; cbn [fst].
  - apply tick_next_mon_number in Et. subst n'.
    specialize (IH (clamp_lines (lc_max_lines double c) n) grps').
    destruct (run_ticks_ c rest _ grps') as [acts' l]. cbn [fst] in *.
    rewrite polls_app, Hp. cbn [app poll_sizes].
    split; [reflexivity|].
    destruct (polls acts') as [|p t]; [constructor|].
    cbn [poll_sizes] in IH. destruct IH as [-> IH].
    rewrite clamp_lines_idem in IH.
    constructor; [reflexivity|exact IH].
  - rewrite Hp. split; [reflexivity|constructor].
  - rewrite Hp. split; [reflexivity|constructor].
Qed.

(** ** The time limit *)

Lemma pace_undisturbed :
  forall (c : loop_ctx double) e n grps,
    te_stop_sleep e = false ->
    exists acts,
      pace double c e n grps
      = (acts,
         if (0 <=? lc_sel_time double c)
            && (tv_sec (te_tv_limit e) - tv_sec (lc_tv_start double c)
                >? lc_sel_time double c)
         then T_break
         else T_next n grps).
Proof.
  intros c e n grps Hs. unfold pace.
  destruct (_ <? lc_interval double c);
    [destruct (te_sleep e); [|rewrite Hs]|];
    destruct ((0 <=? lc_sel_time double c) && _);
    eexists; reflexivity.
Qed.

Lemma tick_undisturbed :
  forall (c : loop_ctx double) e n grps,
    undisturbed e ->
    exists acts grps',
      tick_ c e n grps
      = (acts,
         if (0 <=? lc_sel_time double c)
            && (tv_sec (te_tv_limit e) - tv_sec (lc_tv_start double c)
                >? lc_sel_time double c)
         then T_break
         else T_next (clamp_lines (lc_max_lines double c) n) grps').
Proof.
  intros c e n grps [_ [Hp [Hr Hs]]]. unfold tick.
  destruct (te_poll e) as [vs|]; [|now elim Hp].
  destruct (pace_undisturbed c e (clamp_lines (lc_max_lines double c) n)
              (poll_update (Z.to_nat n) grps vs) Hs) as [acts' Ep].
  eexists. exists (poll_update (Z.to_nat n) grps vs).
  cbv zeta. rewrite Hr, Ep. reflexivity.
Qed.

(** X21.  Without a time limit ([sel_time] negative) the loop does not end by
    itself: as long as no signal arrives and the polls succeed it is still
    running, with one poll made in every iteration. *)
Theorem loop_runs_on_without_limit :
  forall (c : loop_ctx double) (envs : list tick_env) (mon_number : Z)
         (grps : list pqos_mon_data),
    lc_sel_time double c < 0 ->
    Forall undisturbed envs ->
    snd (run_ticks_ c envs mon_number grps) = L_running
    /\ length (polls (fst (run_ticks_ c envs mon_number grps))) = length envs.
Proof.
  intros c envs n grps Hneg Hall. revert n grps.
  induction Hall as [|e rest He Hrest IH]; intros n grps; simpl;
    [split; reflexivity|].
  pose proof (tick_polls c e n grps) as Hp.
  destruct (tick_undisturbed c e n grps He) as [acts [grps' Et]].
  replace (0 <=? lc_sel_time double c) with false in Et
    by (symmetry; apply Z.leb_gt; exact Hneg).
  cbn [andb] in Et. rewrite Et in Hp. cbn [fst] in Hp.
  destruct He as [-> _]. rewrite Et.
  specialize (IH (clamp_lines (lc_max_lines double c) n) grps').
  destruct (run_ticks_ c rest _ grps') as [acts' l]. cbn [fst snd] in *.
  destruct IH as [-> IH]. split; [reflexivity|].
  rewrite polls_app, Hp. simpl. now rewrite IH.
Qed.

(** X22.  With a time limit of [sel_time] seconds, zero or more, the loop is left
    at the end of the first iteration that finds more than [sel_time] whole
    seconds between the clock at loop start and the clock read after the
    pause; the seconds are compared and the microseconds are not looked at.
    Whatever limit is set, that iteration has made its poll before. *)
Theorem loop_ends_at_time_limit :
  forall (c : loop_ctx double) (before : list tick_env) (e : tick_env)
         (rest : list tick_env) (mon_number : Z) (grps : list pqos_mon_data),
    0 <= lc_sel_time double c ->
    Forall undisturbed before ->
    Forall (fun e' => tv_sec (te_tv_limit e') - tv_sec (lc_tv_start double c)
                      <= lc_sel_time double c) before ->
    undisturbed e ->
    tv_sec (te_tv_limit e) - tv_sec (lc_tv_start double c)
    > lc_sel_time double c ->
    snd (run_ticks_ c (before ++ e :: rest) mon_number grps) = L_left
    /\ length (polls (fst (run_ticks_ c (before ++ e :: rest) mon_number grps)))
       = S (length before).
Proof.
  intros c before e rest n grps Hpos Hall Hle He Hgt. revert n grps.
  assert (Epos : (0 <=? lc_sel_time double c) = true)
    by (apply Z.leb_le; exact Hpos).
  induction Hall as [|e0 t He0 Ht IH]; intros n grps; simpl.
  - pose proof (tick_polls c e n grps) as Hp.
    destruct (tick_undisturbed c e n grps He) as [acts [grps' Et]].
    rewrite Epos in Et.
    replace (_ >? lc_sel_time double c) with true in Et
      by (symmetry; apply Z.gtb_lt; lia).
    cbn [andb] in Et. rewrite Et in Hp. cbn [fst] in Hp.
    destruct He as [-> _]. rewrite Et. cbn [fst snd].
    split; [reflexivity|]. now rewrite Hp.
  - inversion Hle as [|x l Hx Hl]; subst x l.
    pose proof (tick_polls c e0 n grps) as Hp.
    destruct (tick_undisturbed c e0 n grps He0) as [acts [grps' Et]].
    rewrite Epos in Et.
    replace (_ >? lc_sel_time double c) with false in Et
      by (rewrite Z.gtb_ltb; symmetry; apply Z.ltb_ge; exact Hx).
    cbn [andb] in Et. rewrite Et in Hp. cbn [fst] in Hp.
    destruct He0 as [-> _]. rewrite Et.
    specialize (IH Hl (clamp_lines (lc_max_lines double c) n) grps').
    destruct (run_ticks_ c (t ++ e :: rest) _ grps') as [acts' l'].
    cbn [fst snd] in *. destruct IH as [-> IH]. split; [reflexivity|].
    rewrite polls_app, Hp. simpl. now rewrite IH.
Qed.

End Rendering.

(** * The remaining setters and the shutdown *)

(** What [monitor_stop] and [monitor_cleanup] do to the outside, in order.
    Blocks are named as in [n_alloc]; [None] is the null pointer of a slot
    of [m_mon_grps] that nothing was stored in.  [R_free_desc i] and
    [R_free_cores i] are [free(sel_monitor_core_tab[i].desc)] and
    [free(sel_monitor_core_tab[i].cores)]. *)
Inductive release : Type :=
| R_mon_stop (block : option nat)
| R_printf (s : string)
| R_free_desc (i : nat)
| R_free_cores (i : nat)
| R_free_block (block : option nat)
| R_fclose (s : stream)
| R_free_output_file
| R_free_output_type.

(** The blocks given to [pqos_mon_stop] and to [free], in order. *)
Fixpoint stopped (rs : list release) : list (option nat) :=
  match rs with
  | [] => []
  | R_mon_stop b :: t => b :: stopped t
  | _ :: t => stopped t
  end.

Fixpoint freed_blocks (rs : list release) : list (option nat) :=
  match rs with
  | [] => []
  | R_free_block b :: t => b :: freed_blocks t
  | _ :: t => freed_blocks t
  end.

(** The entries of [sel_monitor_core_tab] whose [desc] and [cores] are
    freed, in order. *)
Fixpoint freed_entries (rs : list release) : list nat :=
  match rs with
  | [] => []
  | R_free_desc i :: R_free_cores j :: t =>
      if Nat.eqb i j then i :: freed_entries t else freed_entries t
  | _ :: t => freed_entries t
  end.

(** [selfn_monitor_top_like] *)
Definition selfn_monitor_top_like (arg : string) (cfg : mon_config)
  : mon_config :=
  mk_mon_config (sel_output_file cfg) (sel_output_type cfg)
    (sel_mon_interval cfg) 1 (sel_timeout cfg).

Section Shutdown.

(** [strtouint64] of main.c: the number read, a [uint64_t], or [Exit] when
    it reports a parse error. *)
Variable strtouint64 : string -> result Z.

(** [pqos_mon_stop] of the library: the status of call number [i], made for
    [block]. *)
Variable pqos_mon_stop : nat -> option nat -> retval.

(** [selfn_monitor_time], for [arg != NULL] *)
Definition selfn_monitor_time (arg : string) (cfg : mon_config)
  : result mon_config :=
  if strcasecmp_eq arg "inf" || strcasecmp_eq arg "infinite" then
    Ok (mk_mon_config (sel_output_file cfg) (sel_output_type cfg)
          (sel_mon_interval cfg) (sel_mon_top_like cfg) (-1))
  else
    v <- strtouint64 arg ;;
    Ok (mk_mon_config (sel_output_file cfg) (sel_output_type cfg)
          (sel_mon_interval cfg) (sel_mon_top_like cfg) (to_int v)).

(** [selfn_monitor_interval], for [arg != NULL] *)
Definition selfn_monitor_interval (arg : string) (cfg : mon_config)
  : result mon_config :=
  v <- strtouint64 arg ;;
  Ok (mk_mon_config (sel_output_file cfg) (sel_output_type cfg)
        (to_int v) (sel_mon_top_like cfg) (sel_timeout cfg)).

(** [monitor_stop] *)
Definition monitor_stop (st : mon_state) : list release :=
  let mon_number := if negb (process_mode st) then sel_monitor_num st
                    else sel_process_num st in
  flat_map (fun i =>
              let block := nth_error (m_mon_grps st) i in
              R_mon_stop block
              :: match pqos_mon_stop i block with
                 | PQOS_RETVAL_OK => []
                 | _ => [R_printf ("Monitoring stop error!" ++ nl)]
                 end)
    (seq 0 mon_number)
  ++ (if negb (process_mode st)
      then flat_map (fun i => [R_free_desc i; R_free_cores i])
             (seq 0 (sel_monitor_num st))
      else []).

(** [monitor_cleanup]: what it does and the state it leaves. *)
Definition monitor_cleanup (m : monitor) : list release * monitor :=
  let st := mon_st m in
  let cfg := mon_cfg m in
  ((match fp_monitor m with
    | Some (File name) => [R_fclose (File name)]
    | _ => []
    end)
   ++ (match sel_output_file cfg with
       | Some _ => [R_free_output_file]
       | None => []
       end)
   ++ (match sel_output_type cfg with
       | Some _ => [R_free_output_type]
       | None => []
       end)
   ++ map (fun j => R_free_block (nth_error (m_mon_grps st) j))
        (seq 0 (sel_monitor_num st)),
   mk_monitor_state st
     (mk_mon_config None None (sel_mon_interval cfg) (sel_mon_top_like cfg)
        (sel_timeout cfg))
     None (mon_grps m) (mon_out m)).

End Shutdown.

(** ** The time limit as the setter stores it *)

Lemma to_int_range : forall v, - 2 ^ 31 <= to_int v < 2 ^ 31.
Proof.
  intros v. unfold to_int.
  pose proof (Z.mod_pos_bound (v + 2 ^ 31) (2 ^ 32) ltac:(lia)). lia.
Qed.

Lemma to_int_negative : forall v, to_int v < 0 <-> 2 ^ 31 <= v mod 2 ^ 32.
Proof.
  intros v. unfold to_int.
  pose proof (Z.mod_pos_bound v (2 ^ 32) ltac:(lia)) as Hr.
  rewrite <- (Zplus_mod_idemp_l v).
  destruct (Z_lt_le_dec (v mod 2 ^ 32) (2 ^ 31)) as [H|H].
  - rewrite Z.mod_small by lia. lia.
  - replace ((v mod 2 ^ 32 + 2 ^ 31) mod 2 ^ 32)
      with (v mod 2 ^ 32 - 2 ^ 31).
    + lia.
    + apply (Z.mod_unique _ _ 1); lia.
Qed.

(** X23.  [selfn_monitor_time] stores a value of type [int] and touches nothing
    else.  The value is negative, which the loop reads as no limit, for the
    words inf and infinite in any letter case and also for every number
    whose low 32 bits are 2^31 or more: for these the cast to [int] gives a
    negative number. *)
Theorem selfn_monitor_time_negative :
  forall (strtouint64 : string -> result Z) (arg : string)
         (cfg cfg' : mon_config),
    selfn_monitor_time strtouint64 arg cfg = Ok cfg' ->
    - 2 ^ 31 <= sel_timeout cfg' < 2 ^ 31
    /\ (sel_timeout cfg' < 0 <->
        (strcasecmp_eq arg "inf" || strcasecmp_eq arg "infinite") = true
        \/ exists v, strtouint64 arg = Ok v /\ 2 ^ 31 <= v mod 2 ^ 32)
    /\ sel_output_file cfg' = sel_output_file cfg
    /\ sel_output_type cfg' = sel_output_type cfg
    /\ sel_mon_interval cfg' = sel_mon_interval cfg
    /\ sel_mon_top_like cfg' = sel_mon_top_like cfg.
Proof.
  intros strtouint64 arg cfg cfg'. unfold selfn_monitor_time.
  destruct (strcasecmp_eq arg "inf" || strcasecmp_eq arg "infinite").
  - intros [= <-]. cbn [sel_timeout sel_output_file sel_output_type
                        sel_mon_interval sel_mon_top_like].
    split; [lia|]. split; [|repeat split].
    split; [intros _; now left|intros _; lia].
  - destruct (strtouint64 arg) as [v|msg]; cbn [bind]; [|discriminate].
    intros [= <-]. cbn [sel_timeout sel_output_file sel_output_type
                        sel_mon_interval sel_mon_top_like].
    split; [apply to_int_range|]. split; [|repeat split].
    rewrite to_int_negative. split.
    + intros H. right. exists v. split; [reflexivity|exact H].
    + intros [H|[v' [[= <-] H]]]; [discriminate|exact H].
Qed.

(** ** The blocks at shutdown *)

Lemma stopped_app : forall a b, stopped (a ++ b) = stopped a ++ stopped b.
Proof.
  induction a as [|x t IH]; intros b; simpl; [reflexivity|].
  destruct x; simpl; rewrite IH; reflexivity.
Qed.

Lemma nth_error_seq_self :
  forall n i, (i < n)%nat -> nth_error (seq 0 n) i = Some i.
Proof.
  intros n i H. rewrite nth_error_nth' with (d := O) by (now rewrite length_seq).
  now rewrite seq_nth.
Qed.

Lemma map_nth_error_seq :
  forall n, map (fun i => nth_error (seq 0 n) i) (seq 0 n) = map Some (seq 0 n).
Proof.
  intros n. apply map_ext_in. intros i Hi. apply in_seq in Hi.
  apply nth_error_seq_self. lia.
Qed.

Lemma monitor_stop_stopped :
  forall (pqos_mon_stop : nat -> option nat -> retval) (st : mon_state),
    stopped (monitor_stop pqos_mon_stop st)
    = map (fun i => nth_error (m_mon_grps st) i)
        (seq 0 (if negb (process_mode st) then sel_monitor_num st
                else sel_process_num st)).
Proof.
  intros stop st. unfold monitor_stop. rewrite stopped_app.
  replace (stopped (if negb (process_mode st)
                    then flat_map (fun i => [R_free_desc i; R_free_cores i])
                           (seq 0 (sel_monitor_num st))
                    else [])) with (@nil (option nat)).
  - rewrite app_nil_r.
    induction (seq 0 (if negb (process_mode st) then sel_monitor_num st
                      else sel_process_num st)) as [|i t IH];
      [reflexivity|].
    cbn [flat_map map]. rewrite stopped_app, IH.
    cbn [stopped]. f_equal.
    destruct (stop i (nth_error (m_mon_grps st) i)); reflexivity.
  - destruct (negb (process_mode st)); [|reflexivity].
    induction (seq 0 (sel_monitor_num st)) as [|i t IH]; [reflexivity|].
    exact IH.
Qed.

Lemma monitor_stop_freed :
  forall (pqos_mon_stop : nat -> option nat -> retval) (st : mon_state),
    freed_entries (monitor_stop pqos_mon_stop st)
    = if negb (process_mode st) then seq 0 (sel_monitor_num st) else [].
Proof.
  intros stop st. unfold monitor_stop.
  assert (G : forall l rest,
             freed_entries
               (flat_map (fun i =>
                            R_mon_stop (nth_error (m_mon_grps st) i)
                            :: match stop i (nth_error (m_mon_grps st) i) with
                               | PQOS_RETVAL_OK => []
                               | _ => [R_printf ("Monitoring stop error!" ++ nl)]
                               end) l ++ rest) = freed_entries rest).
  { induction l as [|i t IH]; intros rest; [reflexivity|].
    cbn [flat_map]. rewrite <- app_assoc.
    destruct (stop i (nth_error (m_mon_grps st) i)); cbn; apply IH. }
  rewrite G. destruct (negb (process_mode st)); [|reflexivity].
  induction (seq 0 (sel_monitor_num st)) as [|i t IH]; [reflexivity|].
  cbn [flat_map app freed_entries]. rewrite Nat.eqb_refl. now rewrite IH.
Qed.

(** X24.  After registration by [-m] options only or by [-p] options only,
    [monitor_stop] gives the block of every registered entry to
    [pqos_mon_stop], once and in the order of the table, whatever the calls
    answer: a stop that fails does not keep the next one from being made.
    It then frees [desc] and [cores] of every core group once; for process
    ids it frees nothing. *)
Theorem monitor_stop_reaches_every_entry :
  forall (pqos_mon_stop : nat -> option nat -> retval) (st : mon_state),
    core_blocks st \/ pid_blocks st ->
    stopped (monitor_stop pqos_mon_stop st)
    = map (fun g => Some (pgrp g)) (sel_monitor_core_tab st)
      ++ map (fun e => Some (pid_pgrp e)) (sel_monitor_pid_tab st)
    /\ freed_entries (monitor_stop pqos_mon_stop st)
       = seq 0 (sel_monitor_num st).
Proof.
  intros stop st H.
  rewrite monitor_stop_stopped, monitor_stop_freed.
  unfold process_mode, sel_monitor_num, sel_process_num.
  destruct H as [[Hp [Hm [Hg _]]]|[Hc [Hm [Hg _]]]].
  - unfold sel_monitor_num in Hm, Hg. rewrite Hp. cbn [length Nat.leb negb map].
    rewrite app_nil_r, Hm, map_nth_error_seq, <- Hg, map_map.
    split; reflexivity.
  - unfold sel_process_num in Hm, Hg. rewrite Hc, Hm.
    cbn [length map app seq].
    destruct (Nat.leb (length (sel_monitor_pid_tab st)) 0) eqn:El;
      cbn [negb].
    + apply Nat.leb_le in El.
      destruct (sel_monitor_pid_tab st); [|simpl in El; lia].
      split; reflexivity.
    + rewrite map_nth_error_seq, <- Hg, map_map. split; reflexivity.
Qed.

Lemma NoDup_map_Some :
  forall (A : Type) (l : list A), NoDup l -> NoDup (map Some l).
Proof.
  intros A l H; induction H as [|x l Hx Hl IH]; simpl; constructor;
    [|exact IH].
  intros Hin. apply in_map_iff in Hin. destruct Hin as [y [[= ->] Hy]].
  exact (Hx Hy).
Qed.

Lemma freed_blocks_app :
  forall a b, freed_blocks (a ++ b) = freed_blocks a ++ freed_blocks b.
Proof.
  induction a as [|x t IH]; intros b; simpl; [reflexivity|].
  destruct x; simpl; rewrite IH; reflexivity.
Qed.

(** X25.  After registration by [-m] options only, [monitor_cleanup] frees the
    block of every core group, each one once.  After registration by [-p]
    options only it frees no block: its loop runs over the core groups, so
    the blocks obtained for the process ids stay allocated.  In both cases
    the output stream is unset and standard output is not closed. *)
Theorem monitor_cleanup_frees_core_blocks :
  forall (m : monitor),
    core_blocks (mon_st m) \/ pid_blocks (mon_st m) ->
    freed_blocks (fst (monitor_cleanup m))
    = map (fun g => Some (pgrp g)) (sel_monitor_core_tab (mon_st m))
    /\ NoDup (freed_blocks (fst (monitor_cleanup m)))
    /\ (pid_blocks (mon_st m) -> freed_blocks (fst (monitor_cleanup m)) = [])
    /\ fp_monitor (snd (monitor_cleanup m)) = None
    /\ ~ In (R_fclose Stdout) (fst (monitor_cleanup m)).
Proof.
  intros m H. unfold monitor_cleanup. cbn [fst snd fp_monitor].
  assert (F : freed_blocks
                ((match fp_monitor m with
                  | Some (File name) => [R_fclose (File name)]
                  | _ => []
                  end)
                 ++ (match sel_output_file (mon_cfg m) with
                     | Some _ => [R_free_output_file]
                     | None => []
                     end)
                 ++ (match sel_output_type (mon_cfg m) with
                     | Some _ => [R_free_output_type]
                     | None => []
                     end)
                 ++ map (fun j => R_free_block
                                    (nth_error (m_mon_grps (mon_st m)) j))
                      (seq 0 (sel_monitor_num (mon_st m))))
              = map (fun j => nth_error (m_mon_grps (mon_st m)) j)
                  (seq 0 (sel_monitor_num (mon_st m)))).
  { rewrite !freed_blocks_app.
    replace (freed_blocks match fp_monitor m with
                          | Some (File name) => [R_fclose (File name)]
                          | _ => []
                          end) with (@nil (option nat))
      by (destruct (fp_monitor m) as [[|name]|]; reflexivity).
    replace (freed_blocks match sel_output_file (mon_cfg m) with
                          | Some _ => [R_free_output_file]
                          | None => []
                          end) with (@nil (option nat))
      by (destruct (sel_output_file (mon_cfg m)); reflexivity).
    replace (freed_blocks match sel_output_type (mon_cfg m) with
                          | Some _ => [R_free_output_type]
                          | None => []
                          end) with (@nil (option nat))
      by (destruct (sel_output_type (mon_cfg m)); reflexivity).
    cbn [app].
    induction (seq 0 (sel_monitor_num (mon_st m))) as [|j t IH];
      [reflexivity|]. cbn [map freed_blocks]. now rewrite IH. }
  rewrite F.
  assert (E : map (fun j => nth_error (m_mon_grps (mon_st m)) j)
                (seq 0 (sel_monitor_num (mon_st m)))
              = map Some (seq 0 (sel_monitor_num (mon_st m)))
              /\ map (fun g => Some (pgrp g)) (sel_monitor_core_tab (mon_st m))
                 = map Some (seq 0 (sel_monitor_num (mon_st m)))).
  { destruct H as [[Hp [Hm [Hg _]]]|[Hc [Hm [Hg _]]]].
    - rewrite Hm, map_nth_error_seq, <- Hg, map_map. split; reflexivity.
    - unfold sel_monitor_num. rewrite Hc. split; reflexivity. }
  destruct E as [E1 E2]. rewrite E1, E2.
  split; [reflexivity|]. split.
  - apply NoDup_map_Some, seq_NoDup.
  - split.
    + intros [Hc _]. unfold sel_monitor_num. rewrite Hc. reflexivity.
    + split; [reflexivity|].
      intros Hin. rewrite !in_app_iff in Hin.
      destruct Hin as [Hin|[Hin|[Hin|Hin]]].
      * destruct (fp_monitor m) as [[|name]|]; simpl in Hin;
          try (destruct Hin as [Hin|Hin]; [discriminate|]); exact Hin.
      * destruct (sel_output_file (mon_cfg m)); simpl in Hin;
          try (destruct Hin as [Hin|Hin]; [discriminate|]); exact Hin.
      * destruct (sel_output_type (mon_cfg m)); simpl in Hin;
          try (destruct Hin as [Hin|Hin]; [discriminate|]); exact Hin.
      * apply in_map_iff in Hin. destruct Hin as [j [Hj _]]. discriminate.
Qed.

(** ** The blocks through monitor_setup *)

Lemma start_cores_pgrp :
  forall pqos_mon_start todo i done emax a started tab' emax' started' ok,
    start_cores pqos_mon_start i todo done emax a started
    = (tab', emax', started', ok) ->
    map pgrp tab' = map pgrp (done ++ todo).
Proof.
  intros start; induction todo as [|cg t IH];
    intros i done emax a started tab' emax' started' ok; simpl.
  - intros [= <- _ _ _]. now rewrite app_nil_r.
  - assert (E : pgrp (if events cg =? PQOS_MON_EVENT_ALL
                      then mk_core_group (desc cg) (cores cg) (pgrp cg) a
                      else cg) = pgrp cg)
      by (destruct (events cg =? PQOS_MON_EVENT_ALL); reflexivity).
    destruct (start i _ _ _) as [md|].
    + intros H. apply IH in H. rewrite H, <- app_assoc, !map_app. simpl.
      now rewrite E.
    + intros [= <- _ _ _]. rewrite !map_app. simpl. now rewrite E.
Qed.

Lemma start_pids_pgrp :
  forall pqos_mon_start_pid todo i done emax a started tab' emax' started' ok,
    start_pids pqos_mon_start_pid i todo done emax a started
    = (tab', emax', started', ok) ->
    map pid_pgrp tab' = map pid_pgrp (done ++ todo).
Proof.
  intros start; induction todo as [|e t IH];
    intros i done emax a started tab' emax' started' ok; simpl.
  - intros [= <- _ _ _]. now rewrite app_nil_r.
  - assert (E : pid_pgrp (if pid_events e =? PQOS_MON_EVENT_ALL
                          then mk_pid_entry (pid e) (pid_pgrp e) a
                          else e) = pid_pgrp e)
      by (destruct (pid_events e =? PQOS_MON_EVENT_ALL); reflexivity).
    destruct (start i _ _) as [md|].
    + intros H. apply IH in H. rewrite H, <- app_assoc, !map_app. simpl.
      now rewrite E.
    + intros [= <- _ _ _]. rewrite !map_app. simpl. now rewrite E.
Qed.

Lemma add_default_core_blocks :
  forall st lcore, core_blocks st -> core_blocks (add_default_core st lcore).
Proof.
  intros st lcore [Hp [Hm [Hg Hn]]].
  unfold add_default_core, core_blocks, sel_monitor_num in *. simpl.
  rewrite Hn, Hm.
  rewrite <- (length_seq (length (sel_monitor_core_tab st)) 0) at 2.
  rewrite store_at_end, map_app, Hg, length_app. simpl.
  rewrite Nat.add_1_r, seq_S. simpl.
  split; [assumption|]. split; [reflexivity|]. split; reflexivity.
Qed.

Lemma default_cores_blocks :
  forall cpu_lcores st,
    core_blocks st -> core_blocks (fold_left add_default_core cpu_lcores st).
Proof.
  induction cpu_lcores as [|c t IH]; intros st Hb; simpl; [exact Hb|].
  apply IH, add_default_core_blocks, Hb.
Qed.

(** X13.  [monitor_setup] keeps the link between the tables and the blocks,
    whatever it returns: after [-m] options only, and also with nothing
    registered, entry [i] of the core table points to block [i] =
    [m_mon_grps[i]] when it is done; after [-p] options only the same holds
    for the table of process ids. *)
Theorem monitor_setup_keeps_blocks :
  forall (pqos_mon_start : nat -> list Z -> Z -> string -> option pqos_mon_data)
         (pqos_mon_start_pid : nat -> Z -> Z -> option pqos_mon_data)
         (cpu_lcores : list Z) (mon_events : list pqos_monitor)
         (fe : file_env) (cfg : mon_config) (st : mon_state),
    let m := snd (monitor_setup pqos_mon_start pqos_mon_start_pid cpu_lcores
                    mon_events fe cfg st) in
    (core_blocks st -> core_blocks (mon_st m))
    /\ (pid_blocks st -> (0 < sel_process_num st)%nat -> pid_blocks (mon_st m)).
Proof.
  intros start start_pid cpu_lcores mon_events fe cfg st. unfold monitor_setup.
  cbv zeta.
  destruct (negb _ && negb _ && negb _); [split; intros; assumption|].
  destruct (setup_output _ _ fe) as [[fp out] [|]];
    [|split; intros; assumption].
  destruct (all_events mon_events) as [a b].
  set (st1 := if Nat.eqb (sel_monitor_num st) 0 && Nat.eqb (sel_process_num st) 0
              then fold_left add_default_core cpu_lcores
                     (set_sel_events_max st a)
              else st).
  assert (H1 : (core_blocks st -> core_blocks st1)
               /\ (pid_blocks st -> (0 < sel_process_num st)%nat ->
                   pid_blocks st1)).
  { unfold st1. split.
    - intros Hb. destruct (_ && _); [|exact Hb].
      apply default_cores_blocks. exact Hb.
    - intros Hb Hpos.
      replace (Nat.eqb (sel_process_num st) 0) with false
        by (symmetry; apply Nat.eqb_neq; lia).
      rewrite andb_false_r. exact Hb. }
  clearbody st1. destruct H1 as [Hc1 Hp1].
  destruct (Nat.ltb 0 (sel_process_num st1) && Nat.ltb 0 (sel_monitor_num st1));
    [split; assumption|].
  destruct (negb (process_mode st1)).
  - destruct (start_cores start 0 (sel_monitor_core_tab st1) []
                (sel_events_max st1) a [])
      as [[[tab emax] started] ok] eqn:Es.
    pose proof (start_cores_pgrp _ _ _ _ _ _ _ _ _ _ _ Es) as Eg.
    destruct (start_cores_shape _ _ _ _ _ _ _ _ _ _ _ Es) as [El _].
    simpl in Eg, El. cbn [snd mon_st].
    unfold core_blocks, pid_blocks, sel_monitor_num, sel_process_num in *.
    cbn [sel_monitor_core_tab sel_monitor_pid_tab m_mon_grps n_alloc].
    rewrite Eg, El. split.
    + intros Hb. exact (Hc1 Hb).
    + intros Hb Hpos. destruct (Hp1 Hb Hpos) as [Hc [Hm [Hg Hn]]].
      rewrite Hc in Eg. destruct tab; [|discriminate].
      split; [reflexivity|]. split; [exact Hm|]. split; assumption.
  - destruct (start_pids start_pid 0 (sel_monitor_pid_tab st1) []
                (sel_events_max st1) b [])
      as [[[tab emax] started] ok] eqn:Es.
    pose proof (start_pids_pgrp _ _ _ _ _ _ _ _ _ _ _ Es) as Eg.
    destruct (start_pids_shape _ _ _ _ _ _ _ _ _ _ _ Es) as [El _].
    simpl in Eg, El. cbn [snd mon_st].
    unfold core_blocks, pid_blocks, sel_monitor_num, sel_process_num in *.
    cbn [sel_monitor_core_tab sel_monitor_pid_tab m_mon_grps n_alloc].
    rewrite Eg, El. split.
    + intros Hb. destruct (Hc1 Hb) as [Hp [Hm [Hg Hn]]].
      rewrite Hp in Eg. destruct tab; [|discriminate].
      split; [reflexivity|]. split; [exact Hm|]. split; assumption.
    + intros Hb Hpos. exact (Hp1 Hb Hpos).
Qed.

(** ** The groups that strtocgrps forms *)

Lemma strsep_absent :
  forall d s, strchr_next d s = None -> strsep d s = (s, None).
Proof.
  intros d s; induction s as [|c t IH]; simpl; [reflexivity|].
  destruct (Ascii.eqb c d); [discriminate|].
  intros H. now rewrite (IH H).
Qed.

Lemma strsep_found :
  forall d g rest,
    strchr_next d g = None -> strsep d (g ++ String d rest) = (g, Some rest).
Proof.
  intros d g rest; induction g as [|c t IH]; simpl.
  - intros _. now rewrite Ascii.eqb_refl.
  - destruct (Ascii.eqb c d); [discriminate|].
    intros H. now rewrite (IH H).
Qed.

(** X4.  The two shapes of a core list.  A list without a bracket, not empty,
    gives one group for every number that [strlisttotab] reads from it, in
    that order, named by the number and holding that core alone.  A
    bracketed list gives one group that is named by the text between the
    brackets and holds all the numbers read from it; a closing bracket that
    is missing makes no difference.  Both return -1 when the numbers are
    more than [max]. *)
Theorem strtocgrps_shapes :
  forall (strlisttotab : string -> Z -> result (list Z)) (max : Z)
         (s : string),
    (s <> EmptyString -> strchr_next "[" s = None ->
     strtocgrps strlisttotab (Some s) max
     = (cbuf <- strlisttotab s (to_unsigned max) ;;
        if to_unsigned (Z.of_nat (length cbuf)) >? max then Ok None
        else Ok (Some (map (fun c => mk_core_group (uinttostr (to_unsigned c))
                                       [to_unsigned c] (pgrp cgrp_uninit)
                                       (events cgrp_uninit)) cbuf))))
    /\ (strchr_next "]" s = None ->
        let one_group :=
          cbuf <- strlisttotab s (to_unsigned max) ;;
          if to_unsigned (Z.of_nat (length cbuf)) >? max then Ok None
          else Ok (Some [mk_core_group s (map to_unsigned cbuf)
                           (pgrp cgrp_uninit) (events cgrp_uninit)]) in
        strtocgrps strlisttotab (Some ("[" ++ s ++ "]")%string) max = one_group
        /\ strtocgrps strlisttotab (Some ("[" ++ s)%string) max = one_group).
Proof.
  intros strlisttotab max s. split.
  - intros Hne Hno.
    pose proof (strtocgrps_total strlisttotab (Some s) max) as T.
    rewrite Nat.add_comm in T. cbn [Nat.add strtocgrps_loop] in T.
    rewrite (strsep_absent _ _ Hno) in T.
    unfold add_singles in T.
    replace (Nat.ltb 0 (String.length s)) with true in T
      by (destruct s; [now elim Hne|reflexivity]).
    cbn [length Z.of_nat] in T. rewrite Z.sub_0_r in T.
    destruct (strlisttotab s (to_unsigned max)) as [cbuf|msg]; cbn [bind] in *.
    + rewrite Z.add_0_l in T.
      destruct (to_unsigned (Z.of_nat (length cbuf)) >? max).
      * now injection T as <-.
      * cbn [app] in T. injection T as <-. reflexivity.
    + now injection T as <-.
  - intros Hno. cbv zeta.
    split.
    + pose proof (strtocgrps_total strlisttotab (Some ("[" ++ s ++ "]")%string) max)
        as T.
      rewrite Nat.add_comm in T. cbn [Nat.add strtocgrps_loop] in T.
      change (strsep "[" ("[" ++ s ++ "]")%string) with (EmptyString, Some (s ++ "]")%string)
        in T.
      cbn [add_singles String.length Nat.ltb Nat.leb] in T.
      rewrite (strsep_found "]" s EmptyString Hno) in T.
      unfold add_group in T. cbn [length Z.of_nat] in T.
      rewrite Z.sub_0_r in T.
      destruct (strlisttotab s (to_unsigned max)) as [cbuf|msg];
        cbn [bind] in *.
      * rewrite Z.add_0_l in T.
        destruct (to_unsigned (Z.of_nat (length cbuf)) >? max).
        -- injection T as T; symmetry; exact T.
        -- cbn [app strtocgrps_loop strsep add_singles String.length Nat.ltb
                Nat.leb] in T.
           injection T as T. symmetry. exact T.
      * injection T as T; symmetry; exact T.
    + pose proof (strtocgrps_total strlisttotab (Some ("[" ++ s)%string) max) as T.
      rewrite Nat.add_comm in T. cbn [Nat.add strtocgrps_loop] in T.
      change (strsep "[" ("[" ++ s)%string) with (EmptyString, Some s) in T.
      cbn [add_singles String.length Nat.ltb Nat.leb] in T.
      rewrite (strsep_absent "]" s Hno) in T.
      unfold add_group in T. cbn [length Z.of_nat] in T.
      rewrite Z.sub_0_r in T.
      destruct (strlisttotab s (to_unsigned max)) as [cbuf|msg];
        cbn [bind] in *.
      * rewrite Z.add_0_l in T.
        destruct (to_unsigned (Z.of_nat (length cbuf)) >? max).
        -- injection T as T; symmetry; exact T.
        -- cbn [app strtocgrps_loop] in T.
           injection T as T. symmetry. exact T.
      * injection T as T; symmetry; exact T.
Qed.

(** * The further properties on the sample platform *)

(** ** The registry *)

Lemma store_pid_merges_or_appends_witness :
  0 <= 7 < 2 ^ 32
  /\ NoDup (map pid_key (sel_monitor_pid_tab initial_state))
  /\ sel_monitor_pid_tab (store_pid sample_L3_OCCUP 7 initial_state)
     = [mk_pid_entry 7 0 sample_L3_OCCUP]
  /\ n_alloc (store_pid sample_L3_OCCUP 7 initial_state) = 1%nat.
Proof.
  assert (H1 : 0 <= 7 < 2 ^ 32) by (split; [discriminate|reflexivity]).
  assert (H2 : NoDup (map pid_key (sel_monitor_pid_tab initial_state)))
    by constructor.
  destruct (store_pid_merges_or_appends sample_L3_OCCUP 7 initial_state H1 H2)
    as [_ [Happ _]].
  destruct (Happ (fun H : False => H)) as [Htab [Hn _]].
  split; [exact H1|]. split; [exact H2|]. split; [|exact Hn].
  rewrite Htab. reflexivity.
Defined.

Lemma core_blocks_sample_registered : core_blocks sample_registered.
Proof. repeat split. Defined.

Lemma selfn_monitor_cores_keeps_witness :
  exists st',
    sample_selfn_monitor_cores (Some "mbl:[1,0];all:3"%string) sample_registered
    = Ok st'
    /\ extends (sel_monitor_core_tab sample_registered)
         (sel_monitor_core_tab st')
    /\ sel_monitor_pid_tab st' = []
    /\ core_blocks st'.
Proof.
  assert (E : exists st',
             sample_selfn_monitor_cores (Some "mbl:[1,0];all:3"%string)
               sample_registered = Ok st')
    by (vm_compute; eexists; reflexivity).
  destruct E as [st' E]. exists st'. split; [exact E|].
  destruct (selfn_monitor_cores_keeps sample_MAX_CORES sample_L3_OCCUP
              sample_LMEM_BW sample_RMEM_BW sample_strlisttotab _ _ _ E)
    as [H1 [H2 H3]].
  split; [exact H1|]. split; [exact H2|].
  exact (H3 core_blocks_sample_registered).
Defined.

Lemma selfn_monitor_pids_keeps_witness :
  exists st',
    sample_selfn_monitor_pids (Some "llc:7,9;mbr:7"%string) initial_state
    = Ok st'
    /\ sel_monitor_core_tab st' = []
    /\ pid_blocks st'
    /\ (sel_process_num initial_state <= sel_process_num st')%nat.
Proof.
  assert (E : exists st',
             sample_selfn_monitor_pids (Some "llc:7,9;mbr:7"%string)
               initial_state = Ok st')
    by (vm_compute; eexists; reflexivity).
  destruct E as [st' E]. exists st'. split; [exact E|].
  destruct (selfn_monitor_pids_keeps sample_L3_OCCUP sample_LMEM_BW
              sample_RMEM_BW sample_strlisttotab _ _ _ E) as [H1 [H2 H3]].
  split; [exact H1|]. split; [exact (H2 pid_blocks_initial)|exact H3].
Defined.

(** ** The event prefix *)

Lemma parse_event_ignores_case_witness :
  lower "LLC:0,1" = lower "llc:0,1"
  /\ parse_event sample_L3_OCCUP sample_LMEM_BW sample_RMEM_BW "LLC:0,1"
       initial_state
     = parse_event sample_L3_OCCUP sample_LMEM_BW sample_RMEM_BW "llc:0,1"
         initial_state.
Proof.
  split; [reflexivity|].
  exact (parse_event_ignores_case sample_L3_OCCUP sample_LMEM_BW
           sample_RMEM_BW "LLC:0,1" "llc:0,1" initial_state eq_refl).
Defined.

Lemma parse_event_leaves_targets_witness :
  exists evt st',
    parse_event sample_L3_OCCUP sample_LMEM_BW sample_RMEM_BW "mbr:3,4"
      initial_state = Ok (evt, st')
    /\ exists pre targets,
         "mbr:3,4"%string = (pre ++ String ":" targets)%string
         /\ (String.length pre = 3%nat \/ pre = EmptyString)
         /\ strchr_next ":" "mbr:3,4" = Some targets.
Proof.
  assert (E : exists evt st',
             parse_event sample_L3_OCCUP sample_LMEM_BW sample_RMEM_BW
               "mbr:3,4" initial_state = Ok (evt, st'))
    by (vm_compute; eexists; eexists; reflexivity).
  destruct E as [evt [st' E]]. exists evt, st'. split; [exact E|].
  exact (parse_event_leaves_targets sample_L3_OCCUP sample_LMEM_BW
           sample_RMEM_BW _ _ _ _ E).
Defined.

(** ** monitor_setup *)

Lemma one_option_masks_displayed_witness :
  exists st m,
    sample_selfn_monitor_cores (Some "llc:0;all:1"%string) initial_state
    = Ok st
    /\ sample_monitor_setup [0; 1] sample_events sample_file_env
         default_config st = (0, m)
    /\ Forall (fun g =>
                 sub_events (events g) (sel_events_max (mon_st m))
                 /\ events_displayed sample_L3_OCCUP sample_LMEM_BW
                      sample_RMEM_BW (events g) (sel_events_max (mon_st m)))
         (sel_monitor_core_tab (mon_st m)).
Proof.
  assert (E : exists st,
             sample_selfn_monitor_cores (Some "llc:0;all:1"%string)
               initial_state = Ok st)
    by (vm_compute; eexists; reflexivity).
  destruct E as [st E].
  assert (S : exists m,
             sample_monitor_setup [0; 1] sample_events sample_file_env
               default_config st = (0, m)).
  { revert E. vm_compute. intros [= <-]. eexists; reflexivity. }
  destruct S as [m S]. exists st, m. split; [exact E|]. split; [exact S|].
  exact (one_option_masks_displayed sample_MAX_CORES sample_L3_OCCUP
           sample_LMEM_BW sample_RMEM_BW sample_strlisttotab sample_mon_start
           sample_mon_start_pid _ initial_state st _ _ _ _ m eq_refl eq_refl
           E S).
Defined.

Lemma monitor_setup_starts_every_entry_witness :
  exists m,
    sample_monitor_setup [0; 1] sample_events sample_file_env default_config
      sample_registered = (0, m)
    /\ (sel_monitor_num (mon_st m) = 0%nat \/ sel_process_num (mon_st m) = 0%nat)
    /\ length (mon_grps m) = mon_number_of (mon_st m)
    /\ fp_monitor m <> None.
Proof.
  assert (S : exists m,
             sample_monitor_setup [0; 1] sample_events sample_file_env
               default_config sample_registered = (0, m))
    by (vm_compute; eexists; reflexivity).
  destruct S as [m S]. exists m. split; [exact S|].
  destruct (monitor_setup_starts_every_entry sample_mon_start
              sample_mon_start_pid _ _ _ _ _ _ S) as [H1 [H2 [H3 _]]].
  split; [exact H1|]. split; [exact H2|exact H3].
Defined.

(** One core group and one process id: what [-m llc:0] followed by
    [-p llc:7] leaves. *)
Definition mixed_registry : mon_state :=
  mk_mon_state [mk_core_group "0" [0] 0 sample_L3_OCCUP]
    [mk_pid_entry 7 1 sample_L3_OCCUP] sample_L3_OCCUP [1%nat] 2.

Example mixed_registry_reached :
  (st <- sample_selfn_monitor_cores (Some "llc:0"%string) initial_state ;;
   sample_selfn_monitor_pids (Some "llc:7"%string) st)
  = Ok mixed_registry.
Proof. reflexivity. Qed.

Lemma monitor_setup_rejects_mixed_witness :
  (0 < sel_monitor_num mixed_registry)%nat
  /\ (0 < sel_process_num mixed_registry)%nat
  /\ fst (sample_monitor_setup [0; 1] sample_events sample_file_env
            default_config mixed_registry) = -1
  /\ mon_grps (snd (sample_monitor_setup [0; 1] sample_events sample_file_env
                      default_config mixed_registry)) = [].
Proof.
  assert (H1 : (0 < sel_monitor_num mixed_registry)%nat) by (apply Nat.lt_0_1).
  assert (H2 : (0 < sel_process_num mixed_registry)%nat) by (apply Nat.lt_0_1).
  destruct (monitor_setup_rejects_mixed sample_mon_start sample_mon_start_pid
              [0; 1] sample_events sample_file_env default_config
              mixed_registry H1 H2) as [R1 [R2 _]].
  split; [exact H1|]. split; [exact H2|]. split; [exact R1|exact R2].
Defined.

Lemma monitor_setup_default_selection_witness :
  exists m,
    sel_monitor_num initial_state = 0%nat
    /\ sel_process_num initial_state = 0%nat
    /\ sample_monitor_setup [0; 1; 2] sample_events sample_file_env
         default_config initial_state = (0, m)
    /\ sel_monitor_core_tab (mon_st m)
       = [mk_core_group "0" [0] 0 11; mk_core_group "1" [1] 1 11;
          mk_core_group "2" [2] 2 11]
    /\ sel_events_max (mon_st m) = 11
    /\ length (mon_grps m) = 3%nat.
Proof.
  assert (S : exists m,
             sample_monitor_setup [0; 1; 2] sample_events sample_file_env
               default_config initial_state = (0, m))
    by (vm_compute; eexists; reflexivity).
  destruct S as [m S]. exists m.
  destruct (monitor_setup_default_selection sample_mon_start
              sample_mon_start_pid _ _ _ _ initial_state m eq_refl eq_refl S)
    as [H1 [_ [H3 H4]]].
  split; [reflexivity|]. split; [reflexivity|]. split; [exact S|].
  split; [rewrite H1; reflexivity|]. split; [rewrite H3; reflexivity|exact H4].
Defined.

(** ** The rows and the loop *)

Lemma rows_fit_buffer_witness :
  2 <= 128
  /\ strlen (fillin_text_row sample_L3_OCCUP sample_LMEM_BW sample_RMEM_BW Q
               sample_fmt_f1 128 11 11 (12345678901234567890 # 1)
               (12345678901234567890 # 1) (12345678901234567890 # 1)) <= 126
  /\ strlen (fillin_xml_row sample_L3_OCCUP sample_LMEM_BW sample_RMEM_BW Q
               sample_fmt_f1 128 11 11 (12345678901234567890 # 1)
               (12345678901234567890 # 1) (12345678901234567890 # 1)) <= 126.
Proof.
  assert (H : 2 <= 128) by discriminate.
  destruct (rows_fit_buffer sample_L3_OCCUP sample_LMEM_BW sample_RMEM_BW Q
              sample_fmt_f1 128 11 11 (12345678901234567890 # 1)
              (12345678901234567890 # 1) (12345678901234567890 # 1) H)
    as [H1 [H2 _]].
  split; [exact H|]. split; [exact H1|exact H2].
Defined.

Lemma undisturbed_quiet_tick :
  forall ws_row sec, undisturbed (quiet_tick ws_row sec).
Proof.
  intros ws_row sec. unfold undisturbed, quiet_tick. simpl.
  split; [reflexivity|]. split; [discriminate|]. split; reflexivity.
Defined.

Lemma loop_runs_on_without_limit_witness :
  lc_sel_time Q sample_ctx < 0
  /\ Forall undisturbed [quiet_tick 24 0; quiet_tick 24 1; quiet_tick 24 2]
  /\ snd (run_ticks sample_L3_OCCUP sample_LMEM_BW sample_RMEM_BW Q inject_Z
            Qmult sample_fmt_f1 sample_ctx
            [quiet_tick 24 0; quiet_tick 24 1; quiet_tick 24 2] 1
            (sample_groups 1)) = L_running.
Proof.
  assert (H1 : lc_sel_time Q sample_ctx < 0) by reflexivity.
  assert (H2 : Forall undisturbed
                 [quiet_tick 24 0; quiet_tick 24 1; quiet_tick 24 2])
    by (repeat constructor; try discriminate).
  split; [exact H1|]. split; [exact H2|].
  exact (proj1 (loop_runs_on_without_limit sample_L3_OCCUP sample_LMEM_BW
                  sample_RMEM_BW Q inject_Z Qmult sample_fmt_f1 sample_ctx _ 1
                  (sample_groups 1) H1 H2)).
Defined.

(** The loop of [sample_ctx] with a time limit of one second. *)
Definition timed_ctx : loop_ctx Q :=
  mk_loop_ctx Q true false false false 0 1 1000000 0 sample_L3_OCCUP
    unit_factors 1%Q EmptyString (mk_timeval 0 0).

Lemma loop_ends_at_time_limit_witness :
  0 <= lc_sel_time Q timed_ctx
  /\ snd (run_ticks sample_L3_OCCUP sample_LMEM_BW sample_RMEM_BW Q inject_Z
            Qmult sample_fmt_f1 timed_ctx
            ([quiet_tick 24 0] ++ quiet_tick 24 1 :: [quiet_tick 24 2]) 1
            (sample_groups 1)) = L_left
  /\ length (polls (fst (run_ticks sample_L3_OCCUP sample_LMEM_BW
                           sample_RMEM_BW Q inject_Z Qmult sample_fmt_f1
                           timed_ctx
                           ([quiet_tick 24 0] ++ quiet_tick 24 1
                                                   :: [quiet_tick 24 2]) 1
                           (sample_groups 1)))) = 2%nat.
Proof.
  assert (H1 : 0 <= lc_sel_time Q timed_ctx) by discriminate.
  assert (H2 : Forall undisturbed [quiet_tick 24 0])
    by (repeat constructor; try discriminate).
  assert (H3 : Forall (fun e' => tv_sec (te_tv_limit e')
                                 - tv_sec (lc_tv_start Q timed_ctx)
                                 <= lc_sel_time Q timed_ctx) [quiet_tick 24 0])
    by (repeat constructor; discriminate).
  assert (H4 : tv_sec (te_tv_limit (quiet_tick 24 1))
               - tv_sec (lc_tv_start Q timed_ctx) > lc_sel_time Q timed_ctx)
    by reflexivity.
  split; [exact H1|].
  exact (loop_ends_at_time_limit sample_L3_OCCUP sample_LMEM_BW sample_RMEM_BW
           Q inject_Z Qmult sample_fmt_f1 timed_ctx [quiet_tick 24 0]
           (quiet_tick 24 1) [quiet_tick 24 2] 1 (sample_groups 1) H1 H2 H3
           (undisturbed_quiet_tick 24 1) H4).
Defined.

(** ** The time limit and the shutdown *)

(** Modelled from the spec: [strtouint64] of main.c, which is not part of
    this module.  The spec gives the run timeout as a number of seconds;
    here it reads a decimal number and reports anything else as an error. *)
Definition sample_strtouint64 (s : string) : result Z :=
  match digits_value s 0 with
  | Some v => Ok v
  | None => Exit "parse error"
  end.

Lemma selfn_monitor_time_negative_witness :
  exists cfg',
    selfn_monitor_time sample_strtouint64 "4294967295" default_config = Ok cfg'
    /\ sel_timeout cfg' = -1
    /\ (sel_timeout cfg' < 0 <->
        (strcasecmp_eq "4294967295" "inf"
         || strcasecmp_eq "4294967295" "infinite") = true
        \/ exists v, sample_strtouint64 "4294967295" = Ok v
                     /\ 2 ^ 31 <= v mod 2 ^ 32).
Proof.
  assert (E : exists cfg',
             selfn_monitor_time sample_strtouint64 "4294967295" default_config
             = Ok cfg' /\ sel_timeout cfg' = -1)
    by (vm_compute; eexists; split; reflexivity).
  destruct E as [cfg' [E T]]. exists cfg'. split; [exact E|]. split; [exact T|].
  exact (proj1 (proj2 (selfn_monitor_time_negative sample_strtouint64 _ _ _ E))).
Defined.

(** A library whose [pqos_mon_stop] fails every time. *)
Definition failing_mon_stop (i : nat) (block : option nat) : retval :=
  PQOS_RETVAL_ERROR.

Lemma monitor_stop_reaches_every_entry_witness :
  (core_blocks sample_registered \/ pid_blocks sample_registered)
  /\ stopped (monitor_stop failing_mon_stop sample_registered) = [Some 0%nat]
  /\ freed_entries (monitor_stop failing_mon_stop sample_registered)
     = [0%nat].
Proof.
  assert (H : core_blocks sample_registered \/ pid_blocks sample_registered)
    by (left; exact core_blocks_sample_registered).
  destruct (monitor_stop_reaches_every_entry failing_mon_stop
              sample_registered H) as [H1 H2].
  split; [exact H|]. split; [rewrite H1; reflexivity|rewrite H2; reflexivity].
Defined.

(** The module after [-p llc:7,9] and a run on standard output. *)
Definition sample_pid_monitor : monitor :=
  mk_monitor_state
    (mk_mon_state [] [mk_pid_entry 7 0 sample_L3_OCCUP;
                      mk_pid_entry 9 1 sample_L3_OCCUP]
       sample_L3_OCCUP [0%nat; 1%nat] 2)
    default_config (Some Stdout) [] [].

Lemma monitor_cleanup_frees_core_blocks_witness :
  (core_blocks (mon_st sample_pid_monitor)
   \/ pid_blocks (mon_st sample_pid_monitor))
  /\ n_alloc (mon_st sample_pid_monitor) = 2%nat
  /\ freed_blocks (fst (monitor_cleanup sample_pid_monitor)) = [].
Proof.
  assert (Hp : pid_blocks (mon_st sample_pid_monitor)) by (repeat split).
  assert (H : core_blocks (mon_st sample_pid_monitor)
              \/ pid_blocks (mon_st sample_pid_monitor))
    by (right; exact Hp).
  destruct (monitor_cleanup_frees_core_blocks sample_pid_monitor H)
    as [_ [_ [H3 _]]].
  split; [exact H|]. split; [reflexivity|exact (H3 Hp)].
Defined.

(** ** Sorting, blank cells, a failed poll and the well-formed registry *)

Lemma rows_blank_without_events_witness :
  Z.land 4 sample_L3_OCCUP = 0
  /\ Z.land 4 sample_LMEM_BW = 0
  /\ Z.land 4 sample_RMEM_BW = 0
  /\ fillin_text_row sample_L3_OCCUP sample_LMEM_BW sample_RMEM_BW Q
       sample_fmt_f1 128 4 3 (5 # 1) (6 # 1) (7 # 1)
     = (blank_column ++ blank_column)%string
  /\ fillin_csv_row sample_L3_OCCUP sample_LMEM_BW sample_RMEM_BW Q
       sample_fmt_f1 128 4 3 (5 # 1) (6 # 1) (7 # 1)
     = ",,"%string.
Proof.
  destruct (rows_blank_without_events sample_L3_OCCUP sample_LMEM_BW
              sample_RMEM_BW Q sample_fmt_f1 4 3 (5 # 1) (6 # 1) (7 # 1)
              eq_refl eq_refl eq_refl) as [H1 [_ H3]].
  split; [reflexivity|]. split; [reflexivity|]. split; [reflexivity|].
  split; [rewrite H1; reflexivity|rewrite H3; reflexivity].
Defined.

Lemma text_row_as_wide_as_header_witness :
  events_displayed sample_L3_OCCUP sample_LMEM_BW sample_RMEM_BW 1 3
  /\ String.length (sample_fmt_f1 11 (5 # 1)) = 11%nat
  /\ String.length
       (fillin_text_row sample_L3_OCCUP sample_LMEM_BW sample_RMEM_BW Q
          sample_fmt_f1 128 1 3 (5 # 1) (5 # 1) (5 # 1)) = 22%nat.
Proof.
  assert (H : events_displayed sample_L3_OCCUP sample_LMEM_BW sample_RMEM_BW
                1 3)
    by (split; [|split]; intros E; try reflexivity; discriminate E).
  destruct (text_row_as_wide_as_header sample_L3_OCCUP sample_LMEM_BW
              sample_RMEM_BW Q sample_fmt_f1 1 3 (5 # 1) (5 # 1) (5 # 1) H
              eq_refl eq_refl eq_refl) as [H1 _].
  split; [exact H|]. split; [reflexivity|]. rewrite H1. reflexivity.
Defined.

(** An iteration whose poll fails. *)
Definition failed_poll_tick : tick_env :=
  mk_tick_env 24 false (mk_timeval 0 0) None None (mk_timeval 0 0) false
    Ns_done false (mk_timeval 0 0).

Lemma poll_failure_ends_run_witness :
  te_stop_top failed_poll_tick = false
  /\ te_poll failed_poll_tick = None
  /\ polls (fst (run_ticks sample_L3_OCCUP sample_LMEM_BW sample_RMEM_BW Q
                   inject_Z Qmult sample_fmt_f1 sample_ctx
                   [failed_poll_tick; quiet_tick 24 1] 1 (sample_groups 1)))
     = [1]
  /\ snd (run_ticks sample_L3_OCCUP sample_LMEM_BW sample_RMEM_BW Q
            inject_Z Qmult sample_fmt_f1 sample_ctx
            [failed_poll_tick; quiet_tick 24 1] 1 (sample_groups 1))
     = L_returned.
Proof.
  pose proof (poll_failure_ends_run sample_L3_OCCUP sample_LMEM_BW
                sample_RMEM_BW Q inject_Z Qmult sample_fmt_f1 sample_ctx
                failed_poll_tick [quiet_tick 24 1] 1 (sample_groups 1)
                eq_refl eq_refl) as H.
  split; [reflexivity|]. split; [reflexivity|].
  rewrite H. split; reflexivity.
Defined.

Lemma register_cgrps_wf_witness :
  exists st',
    wf_tab (sel_monitor_core_tab sample_registered)
    /\ Forall wf_cgrp [sample_candidate]
    /\ register_cgrps sample_LMEM_BW [sample_candidate] sample_registered
       = Ok st'
    /\ wf_tab (sel_monitor_core_tab st').
Proof.
  assert (Hwf : wf_tab (sel_monitor_core_tab sample_registered)).
  { split; simpl.
    - constructor; [|constructor]. split; [|discriminate].
      constructor; [simpl; intros [H|[]]; discriminate|].
      constructor; [simpl; intros []|constructor].
    - repeat constructor. }
  assert (Hcg : Forall wf_cgrp [sample_candidate]).
  { constructor; [|constructor]. split; [|discriminate]. simpl.
    constructor; [simpl; intros [H|[]]; discriminate|].
    constructor; [simpl; intros []|constructor]. }
  assert (E : exists st',
             register_cgrps sample_LMEM_BW [sample_candidate]
               sample_registered = Ok st')
    by (vm_compute; eexists; reflexivity).
  destruct E as [st' E]. exists st'.
  split; [exact Hwf|]. split; [exact Hcg|]. split; [exact E|].
  exact (register_cgrps_wf _ _ _ _ Hwf Hcg E).
Defined.
